(** * Embedded sign-in flow engine of BaseSignIn.tsx

    A shallow embedding of the flow logic of the React [BaseSignIn] component
    (the first file of [src/unnamed/part_000]):

    - the authenticator classifier [isPasskeyAuthenticator] and the
      deny-list [HIDDEN_AUTHENTICATORS];
    - the popup handshake set up by [handleRedirectionIfNeeded]: the
      [messageEventHandler] listener, the [popupMonitor] interval and
      [cleanup];
    - the handlers [handleSubmit] and [handleAuthenticatorSelection], the
      initialisation effect, the branch selection of the render body, the
      [onSubmit] of its forms and the effect of its passkey card;
    - of the component-driven variant (the second file of
      [src/unnamed/part_000]), [extractFormFields] and [handleSubmit].

    Handlers are asynchronous closures over one render of the component.
    They are embedded as functions from what the closure captured (the React
    state of that render, the props) and from the outcomes of the promises
    they await to the ordered list of the effects they perform: React state
    setters, calls of the callbacks received as props, platform calls.  The
    React state after a handler is the fold of [applyAction] over that list. *)

From Stdlib Require Import String Ascii List Bool Arith ZArith Lia Permutation.
Import ListNotations.
Open Scope string_scope.
Open Scope list_scope.

Set Implicit Arguments.

(** ** JavaScript values and strings *)

(** The values that can travel in [event.data] and in payload parameters. *)
#[warnings="-register-all"]
Inductive JsVal : Type :=
| JUndefined
| JNull
| JBool (b : bool)
| JNum (n : Z)
| JStr (s : string)
| JObj (fields : list (string * JsVal)).

(** [ToBoolean]: what [if (v)] and [a && b] test. *)
Definition truthy (v : JsVal) : bool :=
  match v with
  | JUndefined | JNull => false
  | JBool b => b
  | JNum n => negb (n =? 0)%Z
  | JStr s => negb (s =? "")
  | JObj _ => true
  end.

(** Truthiness of a [string | null | undefined]. *)
Definition truthyStr (o : option string) : bool :=
  match o with
  | Some s => negb (s =? "")
  | None => false
  end.

Fixpoint lookupField (k : string) (fs : list (string * JsVal)) : JsVal :=
  match fs with
  | [] => JUndefined
  | (k', v) :: rest => if k' =? k then v else lookupField k rest
  end.

(** Property read [v.k] as done by the destructuring [const {code, state} = v]:
    [None] is the [TypeError] raised on [undefined] and [null]; a primitive
    has no such own property. *)
Definition getProp (v : JsVal) (k : string) : option JsVal :=
  match v with
  | JUndefined | JNull => None
  | JObj fs => Some (lookupField k fs)
  | _ => Some JUndefined
  end.

(** [hay.includes(needle)]. *)
Fixpoint includes (needle hay : string) : bool :=
  String.prefix needle hay
  || match hay with
     | EmptyString => false
     | String _ rest => includes needle rest
     end.

(** [xs.includes(x)] on an array of strings. *)
Definition includesStr (xs : list string) (x : string) : bool :=
  existsb (String.eqb x) xs.

(** ** Data model *)

(** Modelled from the spec: the enum [EmbeddedSignInFlowStatus] is imported
    from [@asgardeo/browser] and not part of the sources at hand; its four
    values are those of the data model ([FlowStatus]). *)
Inductive FlowStatus : Type :=
| InProgress
| SuccessCompleted
| FailCompleted
| FailIncomplete.

(** Modelled from the spec: [EmbeddedSignInFlowStepType]; every value other
    than the two the code compares with is [OtherStepType]. *)
Inductive StepType : Type :=
| AuthenticatorPrompt
| MultiOptionsPrompt
| OtherStepType.

(** Modelled from the spec: [EmbeddedSignInFlowAuthenticatorPromptType]. *)
Inductive PromptType : Type :=
| UserPrompt
| InternalPrompt
| RedirectionPrompt.

Definition StepType_eqb (a b : StepType) : bool :=
  match a, b with
  | AuthenticatorPrompt, AuthenticatorPrompt
  | MultiOptionsPrompt, MultiOptionsPrompt
  | OtherStepType, OtherStepType => true
  | _, _ => false
  end.

Definition PromptType_eqb (a b : PromptType) : bool :=
  match a, b with
  | UserPrompt, UserPrompt
  | InternalPrompt, InternalPrompt
  | RedirectionPrompt, RedirectionPrompt => true
  | _, _ => false
  end.

(** [authenticator.metadata].  Every read of [additionalData] in the source
    is [additionalData?.challengeData] or [additionalData?.redirectUrl], so an
    absent [additionalData] is the record with both fields absent; every read
    of [params] treats an absent array as the empty one. *)
Record Metadata : Type := {
  promptType : PromptType;
  params : list string;              (* the [param] name of each entry *)
  challengeData : option string;
  redirectUrl : option string
}.

Record Authenticator : Type := {
  authenticatorId : string;
  idp : string;
  metadata : option Metadata;
  requiredParams : list string
}.

Record StepMessage : Type := {
  msgType : option string;
  msgText : option string
}.

Record Step : Type := {
  stepType : StepType;
  authenticators : list Authenticator;
  stepMessages : option (list StepMessage)
}.

Record Link : Type := {
  linkMethod : string;
  linkHref : string
}.

Definition AuthData : Type := list (string * string).

(** A flow response, from [onInitialize] or from [onSubmit]; the source reads
    both through the same fields ([as any]).  [flowId] and [nextStep] are
    tested with [in], hence optional, and a key that is present holds a value;
    [links] is an array in every response, as its type requires, and an empty
    one makes [links[0].method] raise a [TypeError]. *)
Record FlowResponse : Type := {
  flowId : option string;
  flowStatus : FlowStatus;
  links : list Link;
  nextStep : option Step;
  authData : option AuthData
}.

Record Payload : Type := {
  payloadFlowId : option string;
  selectedAuthenticatorId : string;
  payloadParams : list (string * JsVal)
}.

Record RequestConfig : Type := {
  method : string;
  url : string
}.

(** What a rejected promise or a [throw] carries, as far as the [catch]
    blocks look: [instanceof AsgardeoAPIError], [instanceof Error], [message]. *)
Inductive Thrown : Type :=
| ApiError (msg : string)
| PlainError (msg : string)
| NonError.

Inductive Outcome (A : Type) : Type :=
| Resolve (v : A)
| Reject (e : Thrown).
Arguments Reject {A} e.

Record UiMessage : Type := {
  uiType : string;
  uiMessage : string
}.

(** ** Effects *)

Inductive Action : Type :=
(* React state setters *)
| SetIsSignInInitializationRequestLoading (b : bool)
| SetIsInitialized (b : bool)
| SetCurrentFlow (r : FlowResponse)
| SetCurrentAuthenticator (a : option Authenticator)
| SetError (e : option string)
| SetMessages (ms : list UiMessage)
(* the useForm hook *)
| TouchAllFields
| ValidateForm
| ResetForm
| SetFormValue (k v : string)
(* callbacks received as props *)
| OnInitialize
| OnSubmit (p : Payload) (cfg : RequestConfig)
| OnFlowChange (r : FlowResponse)
| OnSuccess (d : option AuthData)
| OnError (e : Thrown)
(* platform *)
| HandleWebAuthnAuthentication (challenge : string)
| WindowOpen (target : string)
| AddMessageListener
| RemoveMessageListener
| SetInterval
| ClearInterval
| PopupClose
| ConsoleError (what : string).

Definition isOnSubmit (a : Action) : bool :=
  match a with OnSubmit _ _ => true | _ => false end.

Definition isWebAuthn (a : Action) : bool :=
  match a with HandleWebAuthnAuthentication _ => true | _ => false end.

Definition isRelease (a : Action) : bool :=
  match a with RemoveMessageListener | ClearInterval => true | _ => false end.

Definition isCallback (a : Action) : bool :=
  match a with OnFlowChange _ | OnSuccess _ => true | _ => false end.

(** Setters that put an authenticator form on screen. *)
Definition isFormSetup (a : Action) : bool :=
  match a with
  | SetCurrentAuthenticator _ | ResetForm | SetFormValue _ _ => true
  | _ => false
  end.

Definition count (p : Action -> bool) (tr : list Action) : nat :=
  List.length (filter p tr).

(** ** What the platform and the imported modules provide *)

Record Platform : Type := {
  (* ApplicationNativeAuthenticationConstants.SupportedAuthenticators.Passkey *)
  passkeyId : string;
  (* the translation function [t] of useTranslation *)
  translate : string -> string;
  (* [new URL(u).origin]; [None] when the constructor throws *)
  urlOrigin : string -> option string;
  (* [new URL(href).searchParams.get(k)] *)
  searchParam : string -> string -> option string;
  (* [window.location.origin] *)
  locationOrigin : string;
  (* the message of the engine's TypeError for [undefined.method] *)
  typeErrorMessage : string;
  (* the message of the engine's TypeError for [undefined['actionId']] *)
  actionIdTypeErrorMessage : string
}.

(** [{method: currentFlow?.links[0].method, url: currentFlow?.links[0].href}];
    [None] is the [TypeError] raised while the arguments of [onSubmit] are
    evaluated, before [onSubmit] is called. *)
Definition requestConfig (flow : FlowResponse) : option RequestConfig :=
  match links flow with
  | [] => None
  | l :: _ => Some {| method := linkMethod l; url := linkHref l |}
  end.

Section Classifier.

Variable P : Platform.

(** [isPasskeyAuthenticator]: the JavaScript expression yields the
    challenge data itself; the embedding is its truthiness. *)
Definition isPasskeyAuthenticator (a : Authenticator) : bool :=
  (authenticatorId a =? passkeyId P)
  && match metadata a with
     | Some m => PromptType_eqb (promptType m) InternalPrompt && truthyStr (challengeData m)
     | None => false
     end.

(** Lines 569-572: the read of the challenge data at the head of the
    passkey branch and its guard. *)
Definition requireChallengeData (a : Authenticator) : Thrown + string :=
  match metadata a with
  | Some m =>
      match challengeData m with
      | Some cd => if truthyStr (Some cd) then inr cd
                   else inl (PlainError "Missing challenge data for passkey authentication")
      | None => inl (PlainError "Missing challenge data for passkey authentication")
      end
  | None => inl (PlainError "Missing challenge data for passkey authentication")
  end.

End Classifier.

Definition HIDDEN_AUTHENTICATORS : list string :=
  ["T3JnYW5pemF0aW9uQXV0aGVudGljYXRvcjpTU08"].

(** ** The popup handshake of [handleRedirectionIfNeeded]

    Once [window.open] has returned a popup, two callbacks are registered: the
    [message] listener [messageEventHandler] and the interval callback
    [popupMonitor].  Both are [async]: each runs up to its [await onSubmit(..)]
    and resumes when that promise settles, with other events in between.  The
    handshake is a transition system over the events the browser delivers. *)

Inductive WindowRef : Type :=
| PopupWindow
| HostWindow
| ForeignWindow (n : nat).

Definition isPopup (w : WindowRef) : bool :=
  match w with PopupWindow => true | _ => false end.

Record MessageEvent : Type := {
  source : WindowRef;
  origin : string;
  data : JsVal
}.

(** Which callback is suspended at an [await onSubmit(..)]. *)
Inductive Channel : Type :=
| MessageChannel
| PollChannel.

Inductive Event : Type :=
| Message (e : MessageEvent)          (* a [message] event on the host window *)
| Tick (href : option string)         (* the interval fires; [href] is what reading
                                         [popup.location.href] gives, [None] when
                                         the read throws (cross-origin) *)
| UserClosesPopup
| Settled (i : nat) (o : Outcome FlowResponse).
                                      (* the [i]-th pending [onSubmit] promise settles *)

(** What the two callbacks close over. *)
Record Closure : Type := {
  afterSignInUrl : option string;
  capturedFlow : FlowResponse;          (* [currentFlow] of the render that opened the popup *)
  responseAuthenticator : Authenticator
}.

Record Coordinator : Type := {
  listening : bool;               (* the [message] listener is registered *)
  polling : bool;                 (* the interval [popupMonitor] is live *)
  popupClosed : bool;             (* [popup.closed] *)
  hasProcessedCallback : bool;
  awaiting : list Channel         (* callbacks suspended at [await onSubmit] *)
}.

(** The state right after [handleRedirectionIfNeeded] returned [true]. *)
Definition begin : Coordinator :=
  {| listening := true; polling := true; popupClosed := false;
     hasProcessedCallback := false; awaiting := [] |}.

Definition withLatch (s : Coordinator) : Coordinator :=
  {| listening := listening s; polling := polling s; popupClosed := popupClosed s;
     hasProcessedCallback := true; awaiting := awaiting s |}.

Definition withAwait (ch : Channel) (s : Coordinator) : Coordinator :=
  {| listening := listening s; polling := polling s; popupClosed := popupClosed s;
     hasProcessedCallback := hasProcessedCallback s; awaiting := awaiting s ++ [ch] |}.

Definition closePopup (s : Coordinator) : Coordinator :=
  {| listening := listening s; polling := polling s; popupClosed := true;
     hasProcessedCallback := hasProcessedCallback s; awaiting := awaiting s |}.

(** [cleanup]: [popupMonitor] holds the interval id, which is truthy. *)
Definition cleanup (s : Coordinator) : Coordinator * list Action :=
  ({| listening := false; polling := false; popupClosed := popupClosed s;
      hasProcessedCallback := hasProcessedCallback s; awaiting := awaiting s |},
   [RemoveMessageListener; ClearInterval]).

Fixpoint dropNth {A : Type} (i : nat) (xs : list A) : list A :=
  match i, xs with
  | _, [] => []
  | O, _ :: rest => rest
  | S j, x :: rest => x :: dropNth j rest
  end.

Definition settle (i : nat) (s : Coordinator) : Coordinator :=
  {| listening := listening s; polling := polling s; popupClosed := popupClosed s;
     hasProcessedCallback := hasProcessedCallback s; awaiting := dropNth i (awaiting s) |}.

Section RedirectCoordinator.

Variable P : Platform.
Variable c : Closure.

Definition redirectPayload (code state : JsVal) : Payload :=
  {| payloadFlowId := flowId (capturedFlow c);
     selectedAuthenticatorId := authenticatorId (responseAuthenticator c);
     payloadParams := [("code", code); ("state", state)] |}.

(** [afterSignInUrl ? new URL(afterSignInUrl).origin : window.location.origin];
    [None] when the [URL] constructor throws. *)
Definition expectedOrigin : option string :=
  match afterSignInUrl c with
  | Some u => if truthyStr (Some u) then urlOrigin P u else Some (locationOrigin P)
  | None => Some (locationOrigin P)
  end.

(** The synchronous part of [messageEventHandler], up to [await onSubmit]. *)
Definition messageEventHandler (s : Coordinator) (e : MessageEvent)
  : Coordinator * list Action :=
  if negb (isPopup (source e)) then (s, [])
  else
    match expectedOrigin with
    | None => (s, [])                                    (* TypeError: the promise rejects *)
    | Some eo =>
        if negb (origin e =? eo) && negb (origin e =? locationOrigin P) then (s, [])
        else
          match getProp (data e) "code", getProp (data e) "state" with
          | Some code, Some state =>
              if truthy code && truthy state then
                match requestConfig (capturedFlow c) with
                | None => (s, [])                        (* TypeError before the call *)
                | Some cfg =>
                    (withAwait MessageChannel s, [OnSubmit (redirectPayload code state) cfg])
                end
              else (s, [])
          | _, _ => (s, [])                              (* TypeError on destructuring *)
          end
    end.

(** [messageEventHandler] after [await onSubmit]: the response is dropped. *)
Definition messageResume (s : Coordinator) (o : Outcome FlowResponse)
  : Coordinator * list Action :=
  match o with
  | Reject _ => (s, [])
  | Resolve _ =>
      let (s', released) := cleanup (closePopup s) in
      (s', PopupClose :: released)
  end.

(** The synchronous part of one firing of [popupMonitor]. *)
Definition popupMonitor (s : Coordinator) (href : option string)
  : Coordinator * list Action :=
  if popupClosed s then cleanup s
  else if hasProcessedCallback s then (s, [])
  else
    match href with
    | None => (s, [])                                    (* cross-origin read, swallowed *)
    | Some popupUrl =>
        if truthyStr (Some popupUrl)
           && (includes "code=" popupUrl || includes "error=" popupUrl)
        then
          let s1 := withLatch s in
          let code := searchParam P popupUrl "code" in
          let state := searchParam P popupUrl "state" in
          let error := searchParam P popupUrl "error" in
          if truthyStr error then
            let (s2, released) := cleanup (closePopup s1) in
            (s2, ConsoleError "OAuth error:" :: PopupClose :: released)
          else
            match code, state with
            | Some cd, Some st =>
                if truthyStr code && truthyStr state then
                  match requestConfig (capturedFlow c) with
                  | None => (s1, [])                     (* TypeError, swallowed *)
                  | Some cfg =>
                      (withAwait PollChannel s1,
                       [OnSubmit (redirectPayload (JStr cd) (JStr st)) cfg])
                  end
                else (s1, [])
            | _, _ => (s1, [])
            end
        else (s, [])
    end.

(** [popupMonitor] after [await onSubmit]. *)
Definition pollResume (s : Coordinator) (o : Outcome FlowResponse)
  : Coordinator * list Action :=
  match o with
  | Reject _ => (s, [])                                  (* swallowed by the inner catch *)
  | Resolve response =>
      (closePopup s,
       PopupClose :: OnFlowChange response ::
       match flowStatus response with
       | SuccessCompleted => [OnSuccess (authData response)]
       | _ => []
       end)
  end.

Definition step (s : Coordinator) (ev : Event) : Coordinator * list Action :=
  match ev with
  | Message e => if listening s then messageEventHandler s e else (s, [])
  | Tick href => if polling s then popupMonitor s href else (s, [])
  | UserClosesPopup => (closePopup s, [])
  | Settled i o =>
      match nth_error (awaiting s) i with
      | Some MessageChannel => messageResume (settle i s) o
      | Some PollChannel => pollResume (settle i s) o
      | None => (s, [])
      end
  end.

(** A run: the events in the order the event loop delivers them. *)
Fixpoint run (s : Coordinator) (evs : list Event) : Coordinator * list Action :=
  match evs with
  | [] => (s, [])
  | ev :: rest =>
      let (s1, tr1) := step s ev in
      let (s2, tr2) := run s1 rest in
      (s2, tr1 ++ tr2)
  end.

End RedirectCoordinator.

(** ** The component state and its handlers *)

Record UiState : Type := {
  isSignInInitializationRequestLoading : bool;
  isInitialized : bool;
  currentFlow : option FlowResponse;
  currentAuthenticator : option Authenticator;
  error : option string;
  messages : list UiMessage;
  formValues : list (string * string)      (* [values] of the useForm hook *)
}.

(** The state of the first render. *)
Definition mounted : UiState :=
  {| isSignInInitializationRequestLoading := false; isInitialized := false;
     currentFlow := None; currentAuthenticator := None; error := None;
     messages := []; formValues := [] |}.

Fixpoint setValue (k v : string) (vs : list (string * string)) : list (string * string) :=
  match vs with
  | [] => [(k, v)]
  | (k', v') :: rest => if k' =? k then (k, v) :: rest else (k', v') :: setValue k v rest
  end.

(** The effect of one action on the React state.  Modelled from the spec: the
    useForm hook is not part of the sources at hand; its [reset] empties the
    entered values (the hook is created with [initialValues: {}]) and its
    [setValue] stores one value. *)
Definition applyAction (st : UiState) (a : Action) : UiState :=
  match a with
  | SetIsSignInInitializationRequestLoading b =>
      {| isSignInInitializationRequestLoading := b; isInitialized := isInitialized st;
         currentFlow := currentFlow st; currentAuthenticator := currentAuthenticator st;
         error := error st; messages := messages st; formValues := formValues st |}
  | SetIsInitialized b =>
      {| isSignInInitializationRequestLoading := isSignInInitializationRequestLoading st;
         isInitialized := b;
         currentFlow := currentFlow st; currentAuthenticator := currentAuthenticator st;
         error := error st; messages := messages st; formValues := formValues st |}
  | SetCurrentFlow r =>
      {| isSignInInitializationRequestLoading := isSignInInitializationRequestLoading st;
         isInitialized := isInitialized st;
         currentFlow := Some r; currentAuthenticator := currentAuthenticator st;
         error := error st; messages := messages st; formValues := formValues st |}
  | SetCurrentAuthenticator o =>
      {| isSignInInitializationRequestLoading := isSignInInitializationRequestLoading st;
         isInitialized := isInitialized st;
         currentFlow := currentFlow st; currentAuthenticator := o;
         error := error st; messages := messages st; formValues := formValues st |}
  | SetError e =>
      {| isSignInInitializationRequestLoading := isSignInInitializationRequestLoading st;
         isInitialized := isInitialized st;
         currentFlow := currentFlow st; currentAuthenticator := currentAuthenticator st;
         error := e; messages := messages st; formValues := formValues st |}
  | SetMessages ms =>
      {| isSignInInitializationRequestLoading := isSignInInitializationRequestLoading st;
         isInitialized := isInitialized st;
         currentFlow := currentFlow st; currentAuthenticator := currentAuthenticator st;
         error := error st; messages := ms; formValues := formValues st |}
  | ResetForm =>
      {| isSignInInitializationRequestLoading := isSignInInitializationRequestLoading st;
         isInitialized := isInitialized st;
         currentFlow := currentFlow st; currentAuthenticator := currentAuthenticator st;
         error := error st; messages := messages st; formValues := [] |}
  | SetFormValue k v =>
      {| isSignInInitializationRequestLoading := isSignInInitializationRequestLoading st;
         isInitialized := isInitialized st;
         currentFlow := currentFlow st; currentAuthenticator := currentAuthenticator st;
         error := error st; messages := messages st; formValues := setValue k v (formValues st) |}
  | _ => st
  end.

Definition applyActions (st : UiState) (tr : list Action) : UiState :=
  fold_left applyAction tr st.

(** How far an asynchronous handler got: [Suspended] is a handler still
    waiting at an [await] whose promise has not settled. *)
Inductive Completion : Type :=
| Returned
| Suspended.

Definition Run : Type := (list Action * Completion)%type.

Definition emit (tr : list Action) (k : Run) : Run := (tr ++ fst k, snd k).

Definition done (tr : list Action) : Run := (tr, Returned).

(** What the promises awaited by one handler invocation settle to, in the
    order they are awaited; an exhausted list is a promise still pending. *)
Record Env : Type := {
  formIsValid : bool;                       (* [validateForm().isValid] *)
  popupOpens : bool;                        (* [window.open] returned a window *)
  ceremonies : list (Outcome string);       (* [handleWebAuthnAuthentication] *)
  submits : list (Outcome FlowResponse)     (* [onSubmit] *)
}.

(** Property keys that are array indices: decimal numerals in canonical form
    (no sign, no leading zero) below [2^32 - 1].  An object lists them before
    its other keys, in ascending numeric order. *)
Definition isDigit (c : ascii) : bool :=
  Nat.leb 48 (nat_of_ascii c) && Nat.leb (nat_of_ascii c) 57.

Fixpoint digitsValue (acc : N) (s : string) : option N :=
  match s with
  | EmptyString => Some acc
  | String c rest =>
      if isDigit c then digitsValue (acc * 10 + (N_of_ascii c - 48))%N rest else None
  end.

Definition arrayIndex (k : string) : option N :=
  match k with
  | EmptyString => None
  | String c rest =>
      if Ascii.eqb c "0"%char && negb (rest =? "") then None
      else match digitsValue 0 k with
           | Some n => if N.ltb n 4294967295 then Some n else None
           | None => None
           end
  end.

Definition isArrayIndex (k : string) : bool :=
  match arrayIndex k with
  | Some _ => true
  | None => false
  end.

Definition indexBefore (k k' : string) : bool :=
  match arrayIndex k, arrayIndex k' with
  | Some n, Some m => N.leb n m
  | _, _ => true
  end.

Fixpoint insertKey (k : string) (sorted : list string) : list string :=
  match sorted with
  | [] => [k]
  | k' :: rest => if indexBefore k k' then k :: sorted else k' :: insertKey k rest
  end.

(** Array-index keys in ascending numeric order. *)
Definition sortKeys (ks : list string) : list string := fold_right insertKey [] ks.

(** The first occurrence of each key, in order. *)
Fixpoint firstOccurrences (ks : list string) : list string :=
  match ks with
  | [] => []
  | k :: rest => k :: filter (fun k' => negb (k' =? k)) (firstOccurrences rest)
  end.

(** The keys that an assignment [o[k] = ''] to an object literal [o] makes
    own properties of it: all but [__proto__], whose inherited setter ignores
    a string. *)
Definition ownKeys (ks : list string) : list string :=
  filter (fun k => negb (k =? "__proto__")) (firstOccurrences ks).

(** [Object.keys] of an object literal filled by assignments of strings to
    the keys [ks], in that order: the keys that are array indices, in
    ascending numeric order, then the other keys in the order in which they
    were first assigned. *)
Definition objectKeys (ks : list string) : list string :=
  sortKeys (filter isArrayIndex (ownKeys ks))
  ++ filter (fun k => negb (isArrayIndex k)) (ownKeys ks).

Definition paramNames (a : Authenticator) : list string :=
  match metadata a with
  | Some m => params m
  | None => []
  end.

(** [setupFormFields]. *)
Definition setupFormFields (a : Authenticator) : list Action :=
  ResetForm :: map (fun k => SetFormValue k "") (objectKeys (paramNames a)).

(** [x || d] on an optional string. *)
Definition orElse (o : option string) (d : string) : string :=
  match o with
  | Some s => if s =? "" then d else s
  | None => d
  end.

Definition toUiMessage (m : StepMessage) : UiMessage :=
  {| uiType := orElse (msgType m) "INFO"; uiMessage := orElse (msgText m) "" |}.

Definition isMultiChoice (st : Step) : bool :=
  StepType_eqb (stepType st) MultiOptionsPrompt && Nat.ltb 1 (List.length (authenticators st)).

(** The block [if (nextStep?.authenticators?.length > 0) {..}] of
    [handleSubmit] and of the initialisation effect. *)
Definition selectAuthenticator (st : Step) : list Action :=
  match authenticators st with
  | [] => []
  | a :: _ =>
      if isMultiChoice st then [SetCurrentAuthenticator None]
      else SetCurrentAuthenticator (Some a) :: setupFormFields a
  end.

(** The block [if (nextStep?.messages) {..}]. *)
Definition showMessages (st : Step) : list Action :=
  match stepMessages st with
  | Some ms => [SetMessages (map toUiMessage ms)]
  | None => []
  end.

Definition loadingOff : list Action :=
  [SetIsSignInInitializationRequestLoading false].

Definition entered : list Action :=
  [SetIsSignInInitializationRequestLoading true; SetError None; SetMessages []].

Definition isRedirectionPrompt (a : Authenticator) : bool :=
  match metadata a with
  | Some m => PromptType_eqb (promptType m) RedirectionPrompt
  | None => false
  end.

(** The authenticator and address [handleRedirectionIfNeeded] opens a popup
    for, if any. *)
Definition redirectTarget (response : FlowResponse) : option (Authenticator * string) :=
  match nextStep response with
  | Some st =>
      if StepType_eqb (stepType st) AuthenticatorPrompt then
        match authenticators st with
        | [a] =>
            match metadata a with
            | Some m =>
                if PromptType_eqb (promptType m) RedirectionPrompt && truthyStr (redirectUrl m)
                then match redirectUrl m with
                     | Some u => Some (a, u)
                     | None => None
                     end
                else None
            | None => None
            end
        | _ => None
        end
      else None
  | None => None
  end.

(** [handleRedirectionIfNeeded]: its result and what it does before it
    returns; the registered callbacks then run as [step] above. *)
Definition handleRedirectionIfNeeded (opens : bool) (response : FlowResponse)
  : bool * list Action :=
  match redirectTarget response with
  | Some (_, u) =>
      if opens then (true, [WindowOpen u; AddMessageListener; SetInterval])
      else (false, [WindowOpen u; ConsoleError "Failed to open popup window"])
  | None => (false, [])
  end.

Section Controller.

Variable P : Platform.

Definition payloadOf (flow : FlowResponse) (a : Authenticator)
           (ps : list (string * JsVal)) : Payload :=
  {| payloadFlowId := flowId flow;
     selectedAuthenticatorId := authenticatorId a;
     payloadParams := ps |}.

Definition formParams (vs : list (string * string)) : list (string * JsVal) :=
  map (fun kv => (fst kv, JStr (snd kv))) vs.

(** The [catch] of [handleSubmit]. *)
Definition submitCatch (e : Thrown) : list Action :=
  [SetError (Some match e with
                  | ApiError m => m
                  | _ => translate P "errors.sign.in.flow.failure"
                  end);
   OnError e].

(** The outer [catch] of [handleAuthenticatorSelection]. *)
Definition selectionCatch (e : Thrown) : list Action :=
  [SetError (Some match e with
                  | ApiError m => m
                  | _ => "Authenticator selection failed"
                  end);
   OnError e].

(** The [catch (passkeyError)] of the passkey branch. *)
Definition passkeyCatch (e : Thrown) : list Action :=
  let hint := " This may be due to browser security settings, an insecure connection, or device restrictions." in
  [ConsoleError "Passkey authentication error:";
   SetError (Some match e with
                  | ApiError m | PlainError m =>
                      if includes "security" m then String.append m hint else m
                  | NonError => translate P "errors.sign.in.flow.passkeys.failure"
                  end)].

(** The block [if (response && 'flowId' in response && 'nextStep' in response)]
    that ends a handler, with the [finally] of the handler.  [chain next]
    is what the handler does instead of showing [next] when it calls itself
    on it; that call is not awaited, so the rest of the calling handler
    ([return], [finally]) runs as soon as the callee suspends. *)
Definition continueFlow (chain : Authenticator -> option Run) (response : FlowResponse) : Run :=
  match flowId response, nextStep response with
  | Some _, Some st =>
      match authenticators st with
      | [] => done (SetCurrentFlow response :: showMessages st ++ loadingOff)
      | next :: _ =>
          if isMultiChoice st
          then done (SetCurrentFlow response :: SetCurrentAuthenticator None
                     :: showMessages st ++ loadingOff)
          else
            match chain next with
            | Some r => emit [SetCurrentFlow response] r
            | None =>
                done (SetCurrentFlow response :: SetCurrentAuthenticator (Some next)
                      :: setupFormFields next ++ showMessages st ++ loadingOff)
            end
      end
  | _, _ => done loadingOff
  end.

(** The call [handleAuthenticatorSelection(next)] made by a handler on a
    passkey authenticator, followed by the caller's [return] and [finally]:
    the callee runs up to its first [await], then the caller finishes, then
    the callee resumes with [rest].  The handlers close over one render, so
    the callee sees the caller's [currentFlow]; its own dispatch evaluates
    [isPasskeyAuthenticator(next)] again, to the same value. *)
Definition chainInto (rest : Run) (next : Authenticator) : Run :=
  match requireChallengeData next with
  | inl e => done (entered ++ passkeyCatch e ++ loadingOff ++ loadingOff)
  | inr challenge =>
      emit (entered ++ [HandleWebAuthnAuthentication challenge] ++ loadingOff) rest
  end.

(** The passkey branch of [handleAuthenticatorSelection] from its
    [await handleWebAuthnAuthentication(challengeData)] on, to the end of
    the invocation. *)
Fixpoint passkeyRest (flow : FlowResponse) (a : Authenticator)
         (cers : list (Outcome string)) (subs : list (Outcome FlowResponse))
         {struct subs} : Run :=
  match cers with
  | [] => ([], Suspended)
  | Reject e :: _ => done (passkeyCatch e ++ loadingOff)
  | Resolve tokenResponse :: cers' =>
      match requestConfig flow with
      | None => done (passkeyCatch (PlainError (typeErrorMessage P)) ++ loadingOff)
      | Some cfg =>
          emit [OnSubmit (payloadOf flow a [("tokenResponse", JStr tokenResponse)]) cfg]
            match subs with
            | [] => ([], Suspended)
            | Reject e :: _ => done (passkeyCatch e ++ loadingOff)
            | Resolve response :: subs' =>
                emit [OnFlowChange response]
                  match flowStatus response with
                  | SuccessCompleted => done (OnSuccess (authData response) :: loadingOff)
                  | FailCompleted | FailIncomplete =>
                      done (SetError (Some (translate P "errors.sign.in.flow.passkeys.completion.failure"))
                            :: loadingOff)
                  | InProgress =>
                      continueFlow
                        (fun next =>
                           if isPasskeyAuthenticator P next
                           then Some (chainInto (passkeyRest flow next cers' subs') next)
                           else None)
                        response
                  end
            end
      end
  end.

Definition chainPasskey (flow : FlowResponse) (cers : list (Outcome string))
           (subs : list (Outcome FlowResponse)) (next : Authenticator) : option Run :=
  if isPasskeyAuthenticator P next
  then Some (chainInto (passkeyRest flow next cers subs) next)
  else None.

(** One submission and the handling of its response, as written out in
    [handleSubmit] and in the form-data and no-parameter branches of
    [handleAuthenticatorSelection]; the copies differ in the [catch] that
    encloses them, in the text shown on failure and in whether a passkey
    next step is chained. *)
Definition submitAndContinue (onThrow : Thrown -> list Action) (failure : string)
           (chain : list (Outcome FlowResponse) -> Authenticator -> option Run)
           (flow : FlowResponse) (a : Authenticator) (ps : list (string * JsVal))
           (env : Env) : Run :=
  match requestConfig flow with
  | None => done (onThrow (PlainError (typeErrorMessage P)) ++ loadingOff)
  | Some cfg =>
      emit [OnSubmit (payloadOf flow a ps) cfg]
        match submits env with
        | [] => ([], Suspended)
        | Reject e :: _ => done (onThrow e ++ loadingOff)
        | Resolve response :: subs' =>
            emit [OnFlowChange response]
              match flowStatus response with
              | SuccessCompleted => done (OnSuccess (authData response) :: loadingOff)
              | FailCompleted | FailIncomplete => done (SetError (Some failure) :: loadingOff)
              | InProgress =>
                  let (opened, acts) := handleRedirectionIfNeeded (popupOpens env) response in
                  if opened then done (acts ++ loadingOff)
                  else emit acts (continueFlow (chain subs') response)
              end
        end
  end.

(** [handleSubmit], closed over the render whose state is [st]. *)
Definition handleSubmit (st : UiState) (env : Env)
           (submittedValues : list (string * string)) : Run :=
  match currentFlow st, currentAuthenticator st with
  | Some flow, Some a =>
      emit [TouchAllFields; ValidateForm]
        (if negb (formIsValid env) then done []
         else
           emit entered
             (submitAndContinue submitCatch
                (translate P "errors.sign.in.flow.completion.failure")
                (fun _ _ => None)
                flow a (formParams submittedValues) env))
  | _, _ => done []
  end.

(** The [RedirectionPrompt] branch of [handleAuthenticatorSelection]. *)
Definition redirectionBranch (flow : FlowResponse) (a : Authenticator) (env : Env) : Run :=
  match requestConfig flow with
  | None => done (selectionCatch (PlainError (typeErrorMessage P)) ++ loadingOff)
  | Some cfg =>
      emit [OnSubmit (payloadOf flow a []) cfg]
        match submits env with
        | [] => ([], Suspended)
        | Reject e :: _ => done (selectionCatch e ++ loadingOff)
        | Resolve response :: _ =>
            emit [OnFlowChange response]
              match flowStatus response with
              | SuccessCompleted => done (OnSuccess (authData response) :: loadingOff)
              | _ => done (snd (handleRedirectionIfNeeded (popupOpens env) response) ++ loadingOff)
              end
        end
  end.

(** [handleAuthenticatorSelection], closed over the render whose state is
    [st]. *)
Definition handleAuthenticatorSelection (st : UiState) (env : Env)
           (a : Authenticator) (formData : option (list (string * string))) : Run :=
  match currentFlow st with
  | None => done []
  | Some flow =>
      emit (match formData with Some _ => [TouchAllFields] | None => [] end ++ entered)
        (if isPasskeyAuthenticator P a then
           match requireChallengeData a with
           | inl e => done (passkeyCatch e ++ loadingOff)
           | inr challenge =>
               emit [HandleWebAuthnAuthentication challenge]
                 (passkeyRest flow a (ceremonies env) (submits env))
           end
         else if isRedirectionPrompt a then redirectionBranch flow a env
         else
           match formData with
           | Some fd =>
               emit [ValidateForm]
                 (if negb (formIsValid env) then done loadingOff
                  else
                    submitAndContinue selectionCatch
                      "Authentication failed. Please check your credentials and try again."
                      (chainPasskey flow (ceremonies env))
                      flow a (formParams fd) env)
           | None =>
               match paramNames a with
               | [] =>
                   submitAndContinue selectionCatch
                     "Authentication failed. Please try again."
                     (chainPasskey flow (ceremonies env))
                     flow a [] env
               | _ :: _ =>
                   done (SetCurrentAuthenticator (Some a) :: setupFormFields a ++ loadingOff)
               end
           end)
  end.

(** The asynchronous body of the initialisation effect; [o] is what
    [onInitialize()] settles to, [None] while it is pending. *)
Definition initialize (o : option (Outcome FlowResponse)) : Run :=
  emit [SetIsSignInInitializationRequestLoading true; SetError None; OnInitialize]
    match o with
    | None => ([], Suspended)
    | Some (Reject e) =>
        done (SetError (Some match e with
                             | ApiError m => m
                             | _ => translate P "errors.sign.in.initialization"
                             end)
              :: OnError e :: loadingOff)
    | Some (Resolve response) =>
        done ([SetCurrentFlow response; SetIsInitialized true; OnFlowChange response]
              ++ match flowStatus response with
                 | SuccessCompleted =>
                     [OnSuccess (Some match authData response with
                                      | Some d => d
                                      | None => []
                                      end)]
                 | _ =>
                     match nextStep response with
                     | Some st => selectAuthenticator st ++ showMessages st
                     | None => []
                     end
                 end
              ++ loadingOff)
    end.

(** ** The render body: which branch is returned *)

Definition hasMultipleOptions (st : UiState) : bool :=
  match currentFlow st with
  | Some flow =>
      match nextStep flow with
      | Some s => isMultiChoice s
      | None => false
      end
  | None => false
  end.

Definition getAvailableAuthenticators (st : UiState) : list Authenticator :=
  match currentFlow st with
  | Some flow =>
      match nextStep flow with
      | Some s => authenticators s
      | None => []
      end
  | None => []
  end.

(** The filter of [userPromptAuthenticators]. *)
Definition isUserPrompt (a : Authenticator) : bool :=
  match metadata a with
  | Some m =>
      PromptType_eqb (promptType m) UserPrompt
      || ((idp a =? "LOCAL") && Nat.ltb 0 (List.length (params m)))
  | None => false
  end.

Definition userPromptAuthenticators (st : UiState) : list Authenticator :=
  filter isUserPrompt (getAvailableAuthenticators st).

Definition optionAuthenticators (st : UiState) : list Authenticator :=
  filter (fun a => negb (includesStr HIDDEN_AUTHENTICATORS (authenticatorId a)))
    (filter (fun a => negb (isUserPrompt a)) (getAvailableAuthenticators st)).

Record FormField : Type := {
  name : string;
  required : bool;
  initialValue : string
}.

(** [formFields]; the [validator] closure of each field is run by the
    useForm hook, whose verdict is [formIsValid]. *)
Definition formFields (st : UiState) : list FormField :=
  match currentAuthenticator st with
  | Some a =>
      map (fun p => {| name := p; required := includesStr (requiredParams a) p;
                       initialValue := "" |})
        (paramNames a)
  | None => []
  end.

Inductive View : Type :=
| LoadingCard
| ChooseOne (forms options : list Authenticator)
| NoAuthenticatorCard
| PasskeyCard (a : Authenticator)
| FormCard (a : Authenticator).

Definition render (externalIsLoading : bool) (st : UiState) : View :=
  let isLoading := externalIsLoading || isSignInInitializationRequestLoading st in
  if negb (isInitialized st) && isLoading then LoadingCard
  else
    match currentAuthenticator st with
    | None =>
        if hasMultipleOptions st
        then ChooseOne (userPromptAuthenticators st) (optionAuthenticators st)
        else NoAuthenticatorCard
    | Some a =>
        if isPasskeyAuthenticator P a && negb isLoading then PasskeyCard a
        else FormCard a
    end.


End Controller.

(** ** A reference platform and sample data

    A small instance of [Platform] on which the handlers can be run: ASCII
    addresses of the form [https://host/path?k=v&k=v], no percent-decoding. *)

Fixpoint before (sep : Ascii.ascii) (s : string) : string :=
  match s with
  | EmptyString => EmptyString
  | String x rest => if Ascii.eqb x sep then EmptyString else String x (before sep rest)
  end.

Fixpoint after (sep : Ascii.ascii) (s : string) : option string :=
  match s with
  | EmptyString => None
  | String x rest => if Ascii.eqb x sep then Some rest else after sep rest
  end.

Fixpoint splitOn (sep : Ascii.ascii) (s : string) : list string :=
  match s with
  | EmptyString => [EmptyString]
  | String x rest =>
      if Ascii.eqb x sep then EmptyString :: splitOn sep rest
      else match splitOn sep rest with
           | h :: tl => String x h :: tl
           | [] => [String x EmptyString]
           end
  end.

Fixpoint findParam (k : string) (pairs : list string) : option string :=
  match pairs with
  | [] => None
  | p :: rest =>
      if before "="%char p =? k
      then Some match after "="%char p with Some v => v | None => "" end
      else findParam k rest
  end.

Definition sampleSearchParam (href k : string) : option string :=
  match after "?"%char href with
  | Some q => findParam k (splitOn "&"%char (before "#"%char q))
  | None => None
  end.

Definition sampleOrigin (u : string) : option string :=
  if String.prefix "https://" u
  then Some (String.append "https://" (before "/"%char (before "?"%char (substring 8 (String.length u) u))))
  else None.

Definition samplePlatform : Platform :=
  {| passkeyId := "RklET0F1dGhlbnRpY2F0b3I6TE9DQUw";
     translate := fun key => key;
     urlOrigin := sampleOrigin;
     searchParam := sampleSearchParam;
     locationOrigin := "https://app";
     typeErrorMessage := "Cannot read properties of undefined (reading 'method')";
     actionIdTypeErrorMessage := "Cannot read properties of undefined (reading 'actionId')" |}.

Definition basic : Authenticator :=
  {| authenticatorId := "basic"; idp := "LOCAL";
     metadata := Some {| promptType := UserPrompt; params := ["username"; "password"];
                         challengeData := None; redirectUrl := None |};
     requiredParams := ["username"; "password"] |}.

Definition google : Authenticator :=
  {| authenticatorId := "google"; idp := "Google";
     metadata := Some {| promptType := RedirectionPrompt; params := [];
                         challengeData := None; redirectUrl := Some "https://idp/auth" |};
     requiredParams := [] |}.

Definition organizationSSO : Authenticator :=
  {| authenticatorId := "T3JnYW5pemF0aW9uQXV0aGVudGljYXRvcjpTU08"; idp := "SSO";
     metadata := Some {| promptType := RedirectionPrompt; params := [];
                         challengeData := None; redirectUrl := None |};
     requiredParams := [] |}.

Definition passkey (challenge : string) : Authenticator :=
  {| authenticatorId := "RklET0F1dGhlbnRpY2F0b3I6TE9DQUw"; idp := "LOCAL";
     metadata := Some {| promptType := InternalPrompt; params := ["tokenResponse"];
                         challengeData := Some challenge; redirectUrl := None |};
     requiredParams := ["tokenResponse"] |}.

Definition stepOf (ty : StepType) (auths : list Authenticator) : Step :=
  {| stepType := ty; authenticators := auths; stepMessages := None |}.

Definition responseOf (status : FlowStatus) (st : option Step) : FlowResponse :=
  {| flowId := Some "flow-1"; flowStatus := status;
     links := [{| linkMethod := "POST"; linkHref := "https://idp/authn" |}];
     nextStep := st; authData := None |}.

Definition sampleClosure : Closure :=
  {| afterSignInUrl := None;
     capturedFlow := responseOf InProgress (Some (stepOf AuthenticatorPrompt [google]));
     responseAuthenticator := google |}.

Definition callbackUrl : string := "https://app/cb?code=abc&state=xyz".

Definition callbackMessage : MessageEvent :=
  {| source := PopupWindow; origin := "https://app";
     data := JObj [("code", JStr "abc"); ("state", JStr "xyz")] |}.

Definition sampleEnv (valid opens : bool) (cers : list (Outcome string))
           (subs : list (Outcome FlowResponse)) : Env :=
  {| formIsValid := valid; popupOpens := opens; ceremonies := cers; submits := subs |}.

(** A render showing the form of [a] for the flow [flow]. *)
Definition showing (flow : FlowResponse) (a : option Authenticator) : UiState :=
  {| isSignInInitializationRequestLoading := false; isInitialized := true;
     currentFlow := Some flow; currentAuthenticator := a; error := None;
     messages := []; formValues := [] |}.


(** ** Notions used in the statements *)

(** The exits of the handshake that run [cleanup] themselves. *)
Inductive ReleasingExit (P : Platform) (s : Coordinator) : Event -> Prop :=
| exit_message (i : nat) (response : FlowResponse) :
    nth_error (awaiting s) i = Some MessageChannel ->
    ReleasingExit P s (Settled i (Resolve response))
| exit_poll_error (href : string) :
    polling s = true ->
    popupClosed s = false ->
    hasProcessedCallback s = false ->
    href <> "" ->
    includes "code=" href || includes "error=" href = true ->
    truthyStr (searchParam P href "error") = true ->
    ReleasingExit P s (Tick (Some href))
| exit_closed (href : option string) :
    polling s = true ->
    popupClosed s = true ->
    ReleasingExit P s (Tick href).

(** How a flow response reaches the component: as the result of
    [onInitialize], or as the result of the [onSubmit] that [handleSubmit]
    calls for a valid form while an authenticator is shown. *)
Inductive Delivered (P : Platform) (response : FlowResponse) : UiState -> Run -> Prop :=
| by_initialize (st : UiState) :
    flowStatus response <> SuccessCompleted ->
    Delivered P response st (initialize P (Some (Resolve response)))
| by_submit (st : UiState) (env : Env) (values : list (string * string))
            (flow : FlowResponse) (a : Authenticator)
            (later : list (Outcome FlowResponse)) :
    currentFlow st = Some flow ->
    currentAuthenticator st = Some a ->
    links flow <> [] ->
    formIsValid env = true ->
    submits env = Resolve response :: later ->
    flowStatus response = InProgress ->
    flowId response <> None ->
    Delivered P response st (handleSubmit P st env values).

(** The field set [formFields] computes for an authenticator. *)
Definition fieldsOf (a : Authenticator) : list FormField :=
  map (fun p => {| name := p; required := includesStr (requiredParams a) p;
                   initialValue := "" |})
    (paramNames a).

(** One call of a handler by the rendered component. *)
Inductive Call : Type :=
| CallSubmit (env : Env) (values : list (string * string))
| CallSelection (env : Env) (a : Authenticator) (formData : option (list (string * string))).

Definition answers (call : Call) : list (Outcome FlowResponse) :=
  match call with
  | CallSubmit env _ | CallSelection env _ _ => submits env
  end.

Definition handle (P : Platform) (st : UiState) (call : Call) : Run :=
  match call with
  | CallSubmit env values => handleSubmit P st env values
  | CallSelection env a formData => handleAuthenticatorSelection P st env a formData
  end.

(** The effects of a series of handler calls, each closed over the state
    the previous ones left. *)
Fixpoint session (P : Platform) (st : UiState) (calls : list Call) : list Action :=
  match calls with
  | [] => []
  | call :: rest =>
      fst (handle P st call) ++ session P (applyActions st (fst (handle P st call))) rest
  end.

(** How a response comes to be the flow on screen.  The initialisation
    effect takes up the result of [onInitialize], unless it completes the
    flow; [handleSubmit] and [handleAuthenticatorSelection] take up the answer
    to a submission where they call [setCurrentFlow] with it. *)
Inductive TakenUp (P : Platform) (response : FlowResponse) : UiState -> Run -> Prop :=
| taken_by_initialize (st : UiState) :
    flowStatus response <> SuccessCompleted ->
    TakenUp P response st (initialize P (Some (Resolve response)))
| taken_by_handler (st : UiState) (call : Call) :
    In (SetCurrentFlow response) (fst (handle P st call)) ->
    TakenUp P response st (handle P st call).

(** A response whose step, if it has one, offers exactly one authenticator. *)
Definition offersOne (response : FlowResponse) : Prop :=
  forall step, nextStep response = Some step -> List.length (authenticators step) = 1.




(** ** Auxiliary notions for the proofs *)

Definition challengeOf (a : Authenticator) : option string :=
  match metadata a with
  | Some m => challengeData m
  | None => None
  end.

(** What a list of actions leaves untouched when none of them is a setter of
    the flow or of the authenticator. *)
Definition keepsSelection (a : Action) : Prop :=
  match a with
  | SetCurrentFlow _ | SetCurrentAuthenticator _ => False
  | _ => True
  end.

(** Entered values. *)
Definition keepsValues (a : Action) : Prop :=
  match a with
  | ResetForm | SetFormValue _ _ => False
  | _ => True
  end.

(** Flows that a trace makes current. *)
Definition flowsFrom (rs : list (Outcome FlowResponse)) (a : Action) : Prop :=
  match a with
  | SetCurrentFlow r => In (Resolve r) rs
  | _ => True
  end.

(** Flows whose step leaves no choice. *)
Definition forcedFlow (a : Action) : Prop :=
  match a with
  | SetCurrentFlow r => offersOne r
  | _ => True
  end.

(** Actions that are neither a ceremony nor a submission. *)
Definition quiet (a : Action) : Prop :=
  isWebAuthn a = false /\ isOnSubmit a = false.

(** Actions that leave the current flow as it is. *)
Definition keepsFlow (a : Action) : Prop :=
  match a with
  | SetCurrentFlow _ => False
  | _ => True
  end.

(** After the effects [tr] the choice offered by [response] is on screen,
    whatever the state before them. *)
Definition settlesOn (response : FlowResponse) (tr : list Action) : Prop :=
  forall st,
    currentFlow (applyActions st tr) = Some response
    /\ currentAuthenticator (applyActions st tr) = None
    /\ isSignInInitializationRequestLoading (applyActions st tr) = false.

(** Effects that settle on the choice of [response] if they make it the
    current flow at all. *)
Definition takes (response : FlowResponse) (tr : list Action) : Prop :=
  In (SetCurrentFlow response) tr -> settlesOn response tr.

(** ** Further parts of the sources *)

Definition isOnError (a : Action) : bool :=
  match a with OnError _ => true | _ => false end.

Definition isWindowOpen (a : Action) : bool :=
  match a with WindowOpen _ => true | _ => false end.

Fixpoint lookupValue (k : string) (vs : list (string * string)) : option string :=
  match vs with
  | [] => None
  | (k', v) :: rest => if k' =? k then Some v else lookupValue k rest
  end.

(** The names of the properties that every object inherits from
    [Object.prototype]: a read [o[k]] of such a name on an object without an
    own property [k] does not give [undefined]. *)
Definition inheritedNames : list string :=
  ["constructor"; "hasOwnProperty"; "isPrototypeOf"; "propertyIsEnumerable";
   "toLocaleString"; "toString"; "valueOf"; "__proto__";
   "__defineGetter__"; "__defineSetter__"; "__lookupGetter__"; "__lookupSetter__"].

(** The object built by the [onSubmit] of the rendered forms (lines 1051-1057
    and 1200-1206): [formData[param.param] = formValues[param.param] || '']
    for each declared parameter.  The read [formValues[param.param]] is that
    of an own property, as it is for every name outside [inheritedNames]. *)
Definition formDataOf (a : Authenticator) (values : list (string * string))
  : list (string * string) :=
  map (fun k => (k, orElse (lookupValue k values) "")) (objectKeys (paramNames a)).

(** The [onSubmit] of the form of the current authenticator. *)
Definition onFormSubmit (P : Platform) (st : UiState) (env : Env) : Run :=
  match currentAuthenticator st with
  | Some a => handleSubmit P st env (formDataOf a (formValues st))
  | None => done []
  end.

(** The [onSubmit] of the form that the choice between authenticators shows
    for the user-prompt authenticator [a] (lines 1049-1058). *)
Definition onChoiceFormSubmit (P : Platform) (st : UiState) (env : Env)
           (a : Authenticator) : Run :=
  handleAuthenticatorSelection P st env a (Some (formDataOf a (formValues st))).

(** The white space that [trim] removes, among the ASCII characters: TAB, LF,
    VT, FF, CR and the space.  Strings are sequences of bytes here; the white
    space beyond ASCII is not recognised. *)
Definition isWhiteSpace (c : ascii) : bool :=
  existsb (Nat.eqb (nat_of_ascii c)) [9; 10; 11; 12; 13; 32].

Fixpoint isBlankString (s : string) : bool :=
  match s with
  | EmptyString => true
  | String c rest => isWhiteSpace c && isBlankString rest
  end.

(** [!value || value.trim() === ''], for the value entered under a name, if
    any. *)
Definition isBlank (value : option string) : bool :=
  match value with
  | Some s => isBlankString s
  | None => true
  end.

(** The [validator] of a field of [formFields] (lines 232-237): the message
    it returns, [None] for [null]. *)
Definition validator (P : Platform) (f : FormField) (value : option string)
  : option string :=
  if required f && isBlank value then Some (translate P "field.required") else None.

(** Modelled from the spec: [validateForm().isValid] of the useForm hook
    ([hooks/useForm]), which is not part of the sources at hand.  A missing
    required field is a validation error: the form is valid when no field of
    the hook reports an error for the value entered under its name.  The
    fields of the hook are those of the render, [formFields] (line 242). *)
Definition validateForm (P : Platform) (st : UiState) : bool :=
  forallb (fun f => match validator P f (lookupValue (name f) (formValues st)) with
                    | Some _ => false
                    | None => true
                    end)
    (formFields st).

(** What a handler called in the render of [st] meets: the verdict of the
    hook of that render, and the outcomes of what it awaits. *)
Definition renderEnv (P : Platform) (st : UiState) (opens : bool)
           (cers : list (Outcome string)) (subs : list (Outcome FlowResponse)) : Env :=
  {| formIsValid := validateForm P st; popupOpens := opens;
     ceremonies := cers; submits := subs |}.

(** What the callbacks of the popup handshake may do. *)
Definition handshakeAction (c : Closure) (a : Action) : Prop :=
  match a with
  | OnSubmit p cfg =>
      payloadFlowId p = flowId (capturedFlow c)
      /\ selectedAuthenticatorId p = authenticatorId (responseAuthenticator c)
      /\ requestConfig (capturedFlow c) = Some cfg
      /\ exists code state,
           payloadParams p = [("code", code); ("state", state)]
           /\ truthy code = true /\ truthy state = true
  | PopupClose | OnFlowChange _ | OnSuccess _
  | RemoveMessageListener | ClearInterval | ConsoleError _ => True
  | _ => False
  end.

Definition noMessage (ev : Event) : Prop :=
  match ev with
  | Message _ => False
  | _ => True
  end.

(** An interval firing that finds nothing to look at: the address cannot be
    read, is empty, or contains neither marker. *)
Definition idleTick (ev : Event) : Prop :=
  match ev with
  | Tick None => True
  | Tick (Some href) =>
      truthyStr (Some href) && (includes "code=" href || includes "error=" href) = false
  | _ => False
  end.

(** What one call of [handleSubmit] or [handleAuthenticatorSelection] closed
    over the flow [flow] may do with [onSubmit]. *)
Definition submitsFor (flow : FlowResponse) (a : Action) : Prop :=
  match a with
  | OnSubmit p cfg => payloadFlowId p = flowId flow /\ requestConfig flow = Some cfg
  | _ => True
  end.

(** What the passkey branch may do. *)
Definition passkeyEffect (flow : FlowResponse) (a : Action) : Prop :=
  match a with
  | OnSubmit p cfg =>
      payloadFlowId p = flowId flow /\ requestConfig flow = Some cfg
      /\ exists token, payloadParams p = [("tokenResponse", JStr token)]
  | OnError _ | OnInitialize | WindowOpen _ | AddMessageListener | SetInterval
  | RemoveMessageListener | ClearInterval | PopupClose | ValidateForm => False
  | _ => True
  end.

(** What one handler call may pass to [onFlowChange] and [onSuccess], given
    the answers [rs] of its submissions. *)
Definition fromAnswers (rs : list (Outcome FlowResponse)) (a : Action) : Prop :=
  match a with
  | OnFlowChange r => In (Resolve r) rs
  | OnSuccess d =>
      exists r, In (Resolve r) rs /\ flowStatus r = SuccessCompleted /\ d = authData r
  | _ => True
  end.

(** A handler that returned has run its [finally]: whatever the state it
    started from, its effects leave the loading flag off. *)
Definition endsLoadingOff (r : Run) : Prop :=
  snd r = Returned ->
  forall st, isSignInInitializationRequestLoading (applyActions st (fst r)) = false.

(** The setters of the React state and of the form. *)
Definition isSetter (a : Action) : bool :=
  match a with
  | SetIsSignInInitializationRequestLoading _ | SetIsInitialized _ | SetCurrentFlow _
  | SetCurrentAuthenticator _ | SetError _ | SetMessages _
  | ResetForm | SetFormValue _ _ => true
  | _ => false
  end.

(** *** The component-driven variant of the sign-in (second file of
    [src/unnamed/part_000]) *)

Module SignInV2.

(** [EmbeddedFlowComponent]: [config] and [components] may be absent. *)
#[warnings="-register-all"]
Inductive EmbeddedFlowComponent : Type :=
| Component (id : string) (type : string)
            (config : option (list (string * JsVal)))
            (components : option (list EmbeddedFlowComponent)).

Definition componentId (c : EmbeddedFlowComponent) : string :=
  match c with Component id _ _ _ => id end.

Definition componentType (c : EmbeddedFlowComponent) : string :=
  match c with Component _ ty _ _ => ty end.

Definition componentConfig (c : EmbeddedFlowComponent) : option (list (string * JsVal)) :=
  match c with Component _ _ cfg _ => cfg end.

Definition componentChildren (c : EmbeddedFlowComponent) : option (list EmbeddedFlowComponent) :=
  match c with Component _ _ _ cs => cs end.

(** [a || b] on values. *)
Definition orValue (a b : JsVal) : JsVal := if truthy a then a else b.

Record FormField : Type := {
  name : JsVal;
  required : JsVal;
  initialValue : string
}.

(** The field pushed for an [INPUT] component whose config is [cfg]; the
    [validator] closure is run by the useForm hook. *)
Definition fieldOf (id : string) (cfg : list (string * JsVal)) : FormField :=
  {| name := orValue (lookupField "identifier" cfg) (JStr id);
     required := orValue (lookupField "required" cfg) (JBool false);
     initialValue := "" |}.

(** The fields one component contributes: its own, then those of its
    [components], in order ([processComponents]). *)
Fixpoint processComponent (c : EmbeddedFlowComponent) : list FormField :=
  match c with
  | Component id ty cfg children =>
      (if ty =? "INPUT"
       then match cfg with
            | Some cf => [fieldOf id cf]
            | None => []
            end
       else [])
      ++ match children with
         | Some cs =>
             (fix processComponents (comps : list EmbeddedFlowComponent) : list FormField :=
                match comps with
                | [] => []
                | x :: rest => processComponent x ++ processComponents rest
                end) cs
         | None => []
         end
  end.

Fixpoint extractFormFields (comps : list EmbeddedFlowComponent) : list FormField :=
  match comps with
  | [] => []
  | x :: rest => processComponent x ++ extractFormFields rest
  end.

(** [formFields = components ? extractFormFields(components) : []]. *)
Definition formFields (components : option (list EmbeddedFlowComponent)) : list FormField :=
  match components with
  | Some cs => extractFormFields cs
  | None => []
  end.

(** [EmbeddedSignInFlowRequestV2] as built by [handleSubmit]. *)
Inductive Request : Type :=
| WithActionId (actionId : JsVal)
| WithInputs (inputs : list (string * JsVal)).

Inductive Effect : Type :=
| TouchAllFields
| ValidateForm
| SetIsSubmitting (b : bool)
| SetError (e : option string)
| SetMessages (ms : list UiMessage)
| OnSubmit (payload : Request) (component : EmbeddedFlowComponent)
| OnError (e : Thrown).

(** [data[key] !== undefined && data[key] !== null && data[key] !== '']. *)
Definition isFilled (v : JsVal) : bool :=
  match v with
  | JUndefined | JNull => false
  | JStr s => negb (s =? "")
  | _ => true
  end.

(** [filteredInputs]: the entries of [data] that are filled, in the order of
    [Object.keys(data)]; [data] lists the properties of the object, each key
    once. *)
Definition filteredInputs (data : option (list (string * JsVal))) : list (string * JsVal) :=
  match data with
  | Some kvs => filter (fun kv => isFilled (snd kv)) kvs
  | None => []
  end.

(** [handleSubmit] of the component-driven sign-in; [valid] is
    [validateForm().isValid] and [outcome] what [onSubmit] settles to, [None]
    while it is pending.  On a component without [config] the test
    [component.config['actionId']] raises a [TypeError] before [onSubmit] is
    called; its message and the translation function come from [P]. *)
Definition handleSubmit (P : Platform) (valid : bool)
           (outcome : option (Outcome unit))
           (component : EmbeddedFlowComponent)
           (data : option (list (string * JsVal))) : list Effect * Completion :=
  let catch (e : Thrown) : list Effect :=
    [SetError (Some match e with
                    | ApiError m | PlainError m => m
                    | NonError => translate P "errors.sign.in.flow.failure"
                    end);
     OnError e] in
  if negb valid then ([TouchAllFields; ValidateForm], Returned)
  else
    let entered := [TouchAllFields; ValidateForm; SetIsSubmitting true;
                    SetError None; SetMessages []] in
    match componentConfig component with
    | None =>
        (entered ++ catch (PlainError (actionIdTypeErrorMessage P)) ++ [SetIsSubmitting false],
         Returned)
    | Some cfg =>
        let payload :=
          if truthy (lookupField "actionId" cfg)
          then WithActionId (lookupField "actionId" cfg)
          else WithInputs (filteredInputs data) in
        match outcome with
        | None => (entered ++ [OnSubmit payload component], Suspended)
        | Some (Resolve _) =>
            (entered ++ [OnSubmit payload component; SetIsSubmitting false], Returned)
        | Some (Reject e) =>
            (entered ++ OnSubmit payload component :: catch e ++ [SetIsSubmitting false],
             Returned)
        end
    end.

(** The calls of [onSubmit] among the effects, in order. *)
Definition submissions (tr : list Effect) : list (Request * EmbeddedFlowComponent) :=
  flat_map (fun x => match x with
                     | OnSubmit payload component => [(payload, component)]
                     | _ => []
                     end) tr.

(** The calls of [onError] among the effects, in order. *)
Definition reported (tr : list Effect) : list Thrown :=
  flat_map (fun x => match x with
                     | OnError e => [e]
                     | _ => []
                     end) tr.

(** All components of a tree, parents before children, in order. *)
Fixpoint nodes (c : EmbeddedFlowComponent) : list EmbeddedFlowComponent :=
  match c with
  | Component id ty cfg children =>
      c :: match children with
           | Some cs =>
               (fix nodesOf (comps : list EmbeddedFlowComponent) : list EmbeddedFlowComponent :=
                  match comps with
                  | [] => []
                  | x :: rest => nodes x ++ nodesOf rest
                  end) cs
           | None => []
           end
  end.

Fixpoint allNodes (comps : list EmbeddedFlowComponent) : list EmbeddedFlowComponent :=
  match comps with
  | [] => []
  | x :: rest => nodes x ++ allNodes rest
  end.

(** The field of a node, if it is an [INPUT] with a config. *)
Definition ownField (c : EmbeddedFlowComponent) : list FormField :=
  match c with
  | Component id ty cfg _ =>
      if ty =? "INPUT"
      then match cfg with
           | Some cf => [fieldOf id cf]
           | None => []
           end
      else []
  end.

End SignInV2.

(** * Properties *)

Unset Implicit Arguments.

(** ** The popup handshake *)

Lemma count_app (p : Action -> bool) (xs ys : list Action) :
  count p (xs ++ ys) = count p xs + count p ys.
Proof.
  unfold count. rewrite filter_app, length_app. reflexivity.
Qed.

(** The interval callback tests [hasProcessedCallback]; the listener does
    not: what it does is the same whether the latch is set or not. *)
Lemma messageEventHandler_ignores_latch (P : Platform) (c : Closure)
      (s : Coordinator) (e : MessageEvent) :
  snd (messageEventHandler P c (withLatch s) e) = snd (messageEventHandler P c s e).
Proof.
  unfold messageEventHandler.
  destruct (negb (isPopup (source e))); [reflexivity|].
  destruct (expectedOrigin P c); [|reflexivity].
  destruct (negb (origin e =? s0) && negb (origin e =? locationOrigin P)); [reflexivity|].
  destruct (getProp (data e) "code"), (getProp (data e) "state"); try reflexivity.
  destruct (truthy j && truthy j0); [|reflexivity].
  destruct (requestConfig (capturedFlow c)); reflexivity.
Qed.

(** C1 (the code departs from the claim).  The popup reaches
    [https://app/cb?code=abc&state=xyz] and also posts [{code, state}] to the
    host.  Whether the interval reads the address first and the message is
    delivered after the submission resolved, or the message is delivered first
    and the interval fires while its submission is in flight, [onSubmit] is
    called twice with the same payload: only the interval callback sets and
    tests [hasProcessedCallback]. *)
Theorem both_channels_submit_twice :
  let answer := responseOf SuccessCompleted None in
  let payload := redirectPayload sampleClosure (JStr "abc") (JStr "xyz") in
  let cfg := {| method := "POST"; url := "https://idp/authn" |} in
  snd (run samplePlatform sampleClosure begin
         [Tick (Some callbackUrl); Settled 0 (Resolve answer); Message callbackMessage])
  = [OnSubmit payload cfg; PopupClose; OnFlowChange answer; OnSuccess None;
     OnSubmit payload cfg]
  /\ snd (run samplePlatform sampleClosure begin
            [Message callbackMessage; Tick (Some callbackUrl)])
     = [OnSubmit payload cfg; OnSubmit payload cfg]
  /\ count isOnSubmit
       (snd (run samplePlatform sampleClosure begin
               [Tick (Some callbackUrl); Settled 0 (Resolve answer); Message callbackMessage]))
     = 2.
Proof.
  repeat split; vm_compute; reflexivity.
Qed.

Lemma eqb_false_of_neq (a b : string) : a <> b -> (a =? b) = false.
Proof. intro H. apply String.eqb_neq. exact H. Qed.

(** C2 (amended).  On completion through the message channel, on an [error]
    parameter read by the interval, and on an interval firing that finds the
    popup closed, the callback runs the release step once: the listener is
    removed, then the interval is cleared, and on the first two exits the
    popup has been closed just before.  Once released, neither a message nor
    an interval firing is handled any more. *)
Theorem release_on_exit (P : Platform) (c : Closure) (s : Coordinator) (ev : Event) :
  ReleasingExit P s ev ->
  let s' := fst (step P c s ev) in
  let tr := snd (step P c s ev) in
  count isRelease tr = 2
  /\ (exists before_release, tr = before_release ++ [RemoveMessageListener; ClearInterval])
  /\ listening s' = false /\ polling s' = false
  /\ popupClosed s' = true
  /\ (popupClosed s = false -> In PopupClose tr)
  /\ (forall e, step P c s' (Message e) = (s', []))
  /\ (forall href, step P c s' (Tick href) = (s', [])).
Proof.
  intros Hexit. destruct Hexit as [i response Hi | href Hp Hc Hl Hne Hinc Herr | href Hp Hc].
  - cbn [step]. rewrite Hi. cbn.
    repeat split; try reflexivity.
    + exists [PopupClose]. reflexivity.
    + intros _. left. reflexivity.
  - cbn [step]. rewrite Hp. unfold popupMonitor. rewrite Hc, Hl.
    cbn [truthyStr]. rewrite (eqb_false_of_neq _ _ Hne). cbn [negb andb]. rewrite Hinc.
    rewrite Herr. cbn.
    repeat split; try reflexivity.
    + exists [ConsoleError "OAuth error:"; PopupClose]. reflexivity.
    + intros _. right. left. reflexivity.
  - cbn [step]. rewrite Hp. unfold popupMonitor. rewrite Hc. cbn.
    repeat split; try reflexivity.
    + exists []. reflexivity.
    + exact Hc.
    + intros H. congruence.
Qed.

Lemma release_on_exit_witness :
  ReleasingExit samplePlatform begin (Tick (Some "https://app/cb?error=access_denied"))
  /\ snd (step samplePlatform sampleClosure begin (Tick (Some "https://app/cb?error=access_denied")))
     = [ConsoleError "OAuth error:"; PopupClose; RemoveMessageListener; ClearInterval].
Proof.
  assert (H : ReleasingExit samplePlatform begin (Tick (Some "https://app/cb?error=access_denied"))).
  { apply exit_poll_error; try reflexivity. discriminate. }
  split; [exact H|].
  destruct (release_on_exit _ sampleClosure _ _ H) as [_ [[pre Hpre] _]].
  reflexivity.
Defined.

(** C2 (as stated, refuted).  When the interval extracts [{code, state}] and
    the submission resolves, the popup is closed but neither the listener is
    removed nor the interval cleared by that callback; and when the popup is
    closed while a message-channel submission is in flight, the release step
    runs twice, once from the interval and once from the listener. *)
Lemma release_not_exactly_once :
  let answer := responseOf SuccessCompleted None in
  let after_poll :=
    run samplePlatform sampleClosure begin
      [Tick (Some callbackUrl); Settled 0 (Resolve answer)] in
  let overlapped :=
    run samplePlatform sampleClosure begin
      [Message callbackMessage; UserClosesPopup; Tick None; Settled 0 (Resolve answer)] in
  (In PopupClose (snd after_poll)
   /\ count isRelease (snd after_poll) = 0
   /\ listening (fst after_poll) = true
   /\ polling (fst after_poll) = true)
  /\ snd overlapped
     = [OnSubmit (redirectPayload sampleClosure (JStr "abc") (JStr "xyz"))
          {| method := "POST"; url := "https://idp/authn" |};
        RemoveMessageListener; ClearInterval;
        PopupClose; RemoveMessageListener; ClearInterval].
Proof.
  cbv zeta. split; [split; [|split; [|split]]|].
  - vm_compute. right. left. reflexivity.
  - vm_compute. reflexivity.
  - vm_compute. reflexivity.
  - vm_compute. reflexivity.
  - vm_compute. reflexivity.
Qed.

(** C3.  A message whose source is not the popup, or whose origin is neither
    the expected origin nor the origin of the host page, leaves the handshake
    as it was and causes no effect: nothing is read from [event.data] and
    [onSubmit] is not called. *)
Theorem untrusted_message_is_ignored (P : Platform) (c : Closure)
        (s : Coordinator) (e : MessageEvent) :
  source e <> PopupWindow
  \/ (expectedOrigin P c <> Some (origin e) /\ origin e <> locationOrigin P) ->
  step P c s (Message e) = (s, []).
Proof.
  intros H. cbn [step]. destruct (listening s); [|reflexivity].
  unfold messageEventHandler.
  destruct (source e) eqn:Hsrc; cbn [isPopup negb]; try reflexivity.
  destruct H as [H | [Hexp Hhost]]; [congruence|].
  destruct (expectedOrigin P c) as [eo|]; [|reflexivity].
  assert (Hne : origin e <> eo) by (intros Heq; apply Hexp; rewrite Heq; reflexivity).
  rewrite (eqb_false_of_neq _ _ Hne), (eqb_false_of_neq _ _ Hhost). reflexivity.
Qed.

Lemma untrusted_message_is_ignored_witness :
  step samplePlatform sampleClosure begin
    (Message {| source := ForeignWindow 7; origin := "https://app";
                data := JObj [("code", JStr "abc"); ("state", JStr "xyz")] |})
  = (begin, [])
  /\ step samplePlatform sampleClosure begin
       (Message {| source := PopupWindow; origin := "https://evil.example";
                   data := JObj [("code", JStr "abc"); ("state", JStr "xyz")] |})
     = (begin, []).
Proof.
  split.
  - apply untrusted_message_is_ignored. left. cbn. discriminate.
  - apply untrusted_message_is_ignored. right. split; vm_compute; discriminate.
Defined.

(** C10.  When a trusted message carrying [{code, state}] completes the
    handshake, the response of its submission is dropped: after the call of
    [onSubmit] the listener only closes the popup and releases, and neither
    [onFlowChange] nor [onSuccess] is called, whatever the status of the
    response.  The interval callback, on the same data, passes the response
    to [onFlowChange] and, when its status is [SuccessCompleted], its
    [authData] to [onSuccess]. *)
Theorem message_completion_drops_response (P : Platform) (c : Closure)
        (e : MessageEvent) (eo : string) (code state : JsVal) (cfg : RequestConfig)
        (response : FlowResponse) :
  source e = PopupWindow ->
  expectedOrigin P c = Some eo ->
  origin e = eo \/ origin e = locationOrigin P ->
  getProp (data e) "code" = Some code ->
  getProp (data e) "state" = Some state ->
  truthy code = true ->
  truthy state = true ->
  requestConfig (capturedFlow c) = Some cfg ->
  let viaMessage := snd (run P c begin [Message e; Settled 0 (Resolve response)]) in
  viaMessage = [OnSubmit (redirectPayload c code state) cfg;
                PopupClose; RemoveMessageListener; ClearInterval]
  /\ count isCallback viaMessage = 0
  /\ forall href cd st,
       href <> "" ->
       includes "code=" href || includes "error=" href = true ->
       searchParam P href "error" = None ->
       searchParam P href "code" = Some cd -> cd <> "" ->
       searchParam P href "state" = Some st -> st <> "" ->
       snd (run P c begin [Tick (Some href); Settled 0 (Resolve response)])
       = [OnSubmit (redirectPayload c (JStr cd) (JStr st)) cfg;
          PopupClose; OnFlowChange response]
         ++ match flowStatus response with
            | SuccessCompleted => [OnSuccess (authData response)]
            | _ => []
            end.
Proof.
  intros Hsrc Hexp Horigin Hcode Hstate Htc Hts Hcfg.
  assert (Hmsg : snd (run P c begin [Message e; Settled 0 (Resolve response)])
                 = [OnSubmit (redirectPayload c code state) cfg;
                    PopupClose; RemoveMessageListener; ClearInterval]).
  { cbn [run step begin listening]. unfold messageEventHandler.
    rewrite Hsrc, Hexp. cbn [isPopup negb].
    assert (Hor : negb (origin e =? eo) && negb (origin e =? locationOrigin P) = false).
    { destruct Horigin as [-> | ->]; rewrite String.eqb_refl; cbn;
        [reflexivity | apply andb_false_r]. }
    rewrite Hor, Hcode, Hstate, Htc, Hts, Hcfg. cbn. reflexivity. }
  cbv zeta. split; [exact Hmsg|]. split; [rewrite Hmsg; reflexivity|].
  intros href cd st Hne Hinc Herr Hcd Hcdne Hst Hstne.
  cbn [run step begin polling]. unfold popupMonitor.
  cbn [popupClosed hasProcessedCallback truthyStr].
  rewrite (eqb_false_of_neq _ _ Hne). cbn [negb andb]. rewrite Hinc, Herr, Hcd, Hst.
  cbn [truthyStr]. rewrite (eqb_false_of_neq _ _ Hcdne), (eqb_false_of_neq _ _ Hstne).
  cbn [negb andb]. rewrite Hcfg. cbn.
  destruct (flowStatus response); reflexivity.
Qed.

Lemma message_completion_drops_response_witness :
  snd (run samplePlatform sampleClosure begin
         [Message callbackMessage; Settled 0 (Resolve (responseOf SuccessCompleted None))])
  = [OnSubmit (redirectPayload sampleClosure (JStr "abc") (JStr "xyz"))
       {| method := "POST"; url := "https://idp/authn" |};
     PopupClose; RemoveMessageListener; ClearInterval].
Proof.
  refine (proj1 (@message_completion_drops_response samplePlatform sampleClosure
                   callbackMessage "https://app" (JStr "abc") (JStr "xyz")
                   {| method := "POST"; url := "https://idp/authn" |}
                   (responseOf SuccessCompleted None) _ _ _ _ _ _ _ _));
    try reflexivity.
  left. reflexivity.
Defined.

(** ** Passkey classification *)

(** The guard of lines 570-572 fails exactly when the challenge data is
    absent or empty. *)
Lemma requireChallengeData_fails_iff (a : Authenticator) :
  (exists e, requireChallengeData a = inl e) <-> truthyStr (challengeOf a) = false.
Proof.
  unfold requireChallengeData, challengeOf.
  destruct (metadata a) as [m|]; cbn.
  - destruct (challengeData m) as [cd|]; cbn.
    + destruct (cd =? ""); cbn; split; intros H.
      * reflexivity.
      * eexists. reflexivity.
      * destruct H as [e H]. discriminate.
      * discriminate.
    + split; intros _; [reflexivity | eexists; reflexivity].
  - split; intros _; [reflexivity | eexists; reflexivity].
Qed.

Lemma isPasskeyAuthenticator_challenge (P : Platform) (a : Authenticator) :
  isPasskeyAuthenticator P a = true -> truthyStr (challengeOf a) = true.
Proof.
  unfold isPasskeyAuthenticator, challengeOf. intros H.
  apply andb_prop in H. destruct H as [_ H].
  destruct (metadata a) as [m|]; [|discriminate].
  apply andb_prop in H. destruct H as [_ H]. exact H.
Qed.

(** C8.  For an authenticator that [isPasskeyAuthenticator] accepts, the
    guard at the head of the passkey branch never throws the
    missing-challenge-data error: the challenge data it reads is the one the
    classifier saw, and [handleAuthenticatorSelection] goes on to call
    [handleWebAuthnAuthentication] with it. *)
Theorem classified_passkey_has_challenge (P : Platform) (a : Authenticator) :
  isPasskeyAuthenticator P a = true ->
  (forall e, requireChallengeData a <> inl e)
  /\ exists challenge,
       challengeOf a = Some challenge
       /\ requireChallengeData a = inr challenge
       /\ forall st env formData flow,
            currentFlow st = Some flow ->
            handleAuthenticatorSelection P st env a formData
            = emit (match formData with Some _ => [TouchAllFields] | None => [] end
                    ++ entered ++ [HandleWebAuthnAuthentication challenge])
                (passkeyRest P flow a (ceremonies env) (submits env)).
Proof.
  intros Hpk. pose proof (isPasskeyAuthenticator_challenge P a Hpk) as Hch.
  split.
  - intros e He.
    assert (Hf : truthyStr (challengeOf a) = false)
      by (apply requireChallengeData_fails_iff; exists e; exact He).
    congruence.
  - unfold challengeOf in Hch.
    destruct (metadata a) as [m|] eqn:Hm; [|discriminate].
    destruct (challengeData m) as [cd|] eqn:Hcd; [|discriminate].
    assert (Hreq : requireChallengeData a = inr cd).
    { unfold requireChallengeData. rewrite Hm, Hcd, Hch. reflexivity. }
    exists cd. split; [unfold challengeOf; rewrite Hm; exact Hcd|].
    split; [exact Hreq|].
    intros st env formData flow Hflow.
    unfold handleAuthenticatorSelection. rewrite Hflow, Hpk, Hreq.
    unfold emit. cbn [fst snd]. rewrite <- !app_assoc. reflexivity.
Qed.

Lemma classified_passkey_has_challenge_witness :
  requireChallengeData (passkey "challenge-1") = inr "challenge-1".
Proof.
  destruct (@classified_passkey_has_challenge samplePlatform (passkey "challenge-1") eq_refl)
    as [_ [challenge [Hc [Hreq _]]]].
  injection Hc as <-. exact Hreq.
Defined.

(** ** Validation and failure responses *)

Lemma requestConfig_some (flow : FlowResponse) :
  links flow <> [] -> exists cfg, requestConfig flow = Some cfg.
Proof.
  unfold requestConfig. destruct (links flow) as [|l rest]; [congruence|].
  intros _. eexists. reflexivity.
Qed.

(** C6 (amended).  When the response to the submission of [handleSubmit] has
    status [FailCompleted] or [FailIncomplete], the handler passes it to
    [onFlowChange], shows the one translated completion-failure text for
    either status and returns; the flow and the authenticator on screen stay
    as they were.  The component keeps no terminal state: a further
    [handleSubmit] with a valid form calls [onSubmit] again, for the same flow
    and authenticator. *)
Theorem failure_is_reported_once_and_retry_submits
        (P : Platform) (st : UiState) (env : Env) (values : list (string * string))
        (flow : FlowResponse) (a : Authenticator) (cfg : RequestConfig)
        (response : FlowResponse) (later : list (Outcome FlowResponse)) :
  currentFlow st = Some flow ->
  currentAuthenticator st = Some a ->
  requestConfig flow = Some cfg ->
  formIsValid env = true ->
  submits env = Resolve response :: later ->
  flowStatus response = FailCompleted \/ flowStatus response = FailIncomplete ->
  let st' := applyActions st (fst (handleSubmit P st env values)) in
  handleSubmit P st env values
  = ([TouchAllFields; ValidateForm;
      SetIsSignInInitializationRequestLoading true; SetError None; SetMessages [];
      OnSubmit (payloadOf flow a (formParams values)) cfg;
      OnFlowChange response;
      SetError (Some (translate P "errors.sign.in.flow.completion.failure"));
      SetIsSignInInitializationRequestLoading false], Returned)
  /\ error st' = Some (translate P "errors.sign.in.flow.completion.failure")
  /\ currentFlow st' = Some flow
  /\ currentAuthenticator st' = Some a
  /\ isSignInInitializationRequestLoading st' = false
  /\ forall env' values',
       formIsValid env' = true ->
       In (OnSubmit (payloadOf flow a (formParams values')) cfg)
          (fst (handleSubmit P st' env' values')).
Proof.
  intros Hflow Ha Hcfg Hvalid Hsub Hstatus.
  assert (Hrun : handleSubmit P st env values
                 = ([TouchAllFields; ValidateForm;
                     SetIsSignInInitializationRequestLoading true; SetError None; SetMessages [];
                     OnSubmit (payloadOf flow a (formParams values)) cfg;
                     OnFlowChange response;
                     SetError (Some (translate P "errors.sign.in.flow.completion.failure"));
                     SetIsSignInInitializationRequestLoading false], Returned)).
  { unfold handleSubmit, submitAndContinue. rewrite Hflow, Ha, Hvalid, Hcfg, Hsub.
    destruct Hstatus as [-> | ->]; reflexivity. }
  cbv zeta. rewrite Hrun. cbn [fst applyActions fold_left applyAction
    error currentFlow currentAuthenticator isSignInInitializationRequestLoading].
  repeat split; try assumption.
  intros env' values' Hvalid'.
  unfold handleSubmit, submitAndContinue.
  cbn [currentFlow currentAuthenticator]. rewrite Hflow, Ha, Hvalid', Hcfg.
  cbn. right. right. right. right. right. left. reflexivity.
Qed.

Lemma failure_is_reported_once_and_retry_submits_witness :
  error (applyActions
           (showing (responseOf InProgress (Some (stepOf AuthenticatorPrompt [basic]))) (Some basic))
           (fst (handleSubmit samplePlatform
                   (showing (responseOf InProgress (Some (stepOf AuthenticatorPrompt [basic])))
                            (Some basic))
                   (sampleEnv true true [] [Resolve (responseOf FailIncomplete None)])
                   [("username", "u"); ("password", "p")])))
  = Some "errors.sign.in.flow.completion.failure".
Proof.
  refine (proj1 (proj2
    (@failure_is_reported_once_and_retry_submits samplePlatform
       (showing (responseOf InProgress (Some (stepOf AuthenticatorPrompt [basic]))) (Some basic))
       (sampleEnv true true [] [Resolve (responseOf FailIncomplete None)])
       [("username", "u"); ("password", "p")]
       (responseOf InProgress (Some (stepOf AuthenticatorPrompt [basic]))) basic
       {| method := "POST"; url := "https://idp/authn" |}
       (responseOf FailIncomplete None) []
       eq_refl eq_refl eq_refl eq_refl eq_refl (or_intror eq_refl)))).
Defined.

(** C6 (as stated, refuted).  After a [FailIncomplete] response the next
    [handleSubmit] does not fail fast: it calls [onSubmit] once more. *)
Lemma submit_after_failure_reaches_the_network :
  let st := showing (responseOf InProgress (Some (stepOf AuthenticatorPrompt [basic])))
                    (Some basic) in
  let values := [("username", "u"); ("password", "p")] in
  let failed :=
    applyActions st
      (fst (handleSubmit samplePlatform st
              (sampleEnv true true [] [Resolve (responseOf FailIncomplete None)]) values)) in
  error failed = Some "errors.sign.in.flow.completion.failure"
  /\ count isOnSubmit
       (fst (handleSubmit samplePlatform failed
               (sampleEnv true true [] [Resolve (responseOf SuccessCompleted None)]) values))
     = 1.
Proof.
  split; vm_compute; reflexivity.
Qed.

(** Where the handlers consult [validateForm].  When it reports the form
    invalid, [handleSubmit] returns before any state is set and before
    [onSubmit] is called, and so does [handleAuthenticatorSelection] when it
    is given form data for an authenticator that is neither a passkey nor a
    redirection prompt; neither calls [onError]. *)
Theorem invalid_form_is_not_submitted (P : Platform) (st : UiState) (env : Env) :
  formIsValid env = false ->
  (forall values,
      let r := handleSubmit P st env values in
      snd r = Returned
      /\ count isOnSubmit (fst r) = 0
      /\ applyActions st (fst r) = st)
  /\ (forall a formData,
        isPasskeyAuthenticator P a = false ->
        isRedirectionPrompt a = false ->
        let r := handleAuthenticatorSelection P st env a (Some formData) in
        snd r = Returned
        /\ count isOnSubmit (fst r) = 0
        /\ (currentFlow st <> None ->
            fst r = TouchAllFields :: entered ++ ValidateForm :: loadingOff)).
Proof.
  intros Hinvalid. split.
  - intros values. unfold handleSubmit.
    destruct (currentFlow st), (currentAuthenticator st); rewrite ?Hinvalid;
      cbn; repeat split; reflexivity.
  - intros a formData Hpk Hrd. unfold handleAuthenticatorSelection.
    destruct (currentFlow st) as [flow|].
    + rewrite Hpk, Hrd, Hinvalid. cbn. repeat split; reflexivity.
    + cbn. repeat split; try reflexivity. intros H. congruence.
Qed.

Lemma invalid_form_is_not_submitted_witness :
  count isOnSubmit
    (fst (handleSubmit samplePlatform
            (showing (responseOf InProgress (Some (stepOf AuthenticatorPrompt [basic])))
                     (Some basic))
            (sampleEnv false true [] [Resolve (responseOf SuccessCompleted None)])
            [("username", ""); ("password", "")]))
  = 0.
Proof.
  refine (proj1 (proj2 (proj1
    (@invalid_form_is_not_submitted samplePlatform
       (showing (responseOf InProgress (Some (stepOf AuthenticatorPrompt [basic]))) (Some basic))
       (sampleEnv false true [] [Resolve (responseOf SuccessCompleted None)])
       eq_refl) [("username", ""); ("password", "")]))).
Defined.

(** Where they do not.  A multi-option step offers a passkey authenticator
    with the local identity provider and a [tokenResponse] parameter, which
    the render body shows as a form.  Submitting that form with the required
    field empty, while [validateForm] reports the form invalid, runs the
    ceremony and calls [onSubmit]: the passkey branch is taken before the
    validation of the form-data branch. *)
Lemma passkey_form_submission_skips_validation :
  let key := passkey "challenge-1" in
  let st := showing (responseOf InProgress (Some (stepOf MultiOptionsPrompt [key; google])))
                    None in
  let env := sampleEnv false true [Resolve "assertion"]
                       [Resolve (responseOf SuccessCompleted None)] in
  In key (userPromptAuthenticators st)
  /\ includesStr (requiredParams key) "tokenResponse" = true
  /\ count isOnSubmit
       (fst (handleAuthenticatorSelection samplePlatform st env key
               (Some [("tokenResponse", "")])))
     = 1.
Proof.
  cbv zeta. split; [|split].
  - left. reflexivity.
  - reflexivity.
  - vm_compute. reflexivity.
Qed.

Lemma choice_view_validates_nothing (P : Platform) (st : UiState) :
  currentAuthenticator st = None -> formFields st = [] /\ validateForm P st = true.
Proof.
  intros Hnone. unfold validateForm, formFields. rewrite Hnone. split; reflexivity.
Qed.

Lemma missing_required_field_is_invalid (P : Platform) (st : UiState)
      (a : Authenticator) (p : string) :
  currentAuthenticator st = Some a ->
  In p (paramNames a) ->
  In p (requiredParams a) ->
  isBlank (lookupValue p (formValues st)) = true ->
  validateForm P st = false.
Proof.
  intros Ha Hp Hreq Hblank. unfold validateForm, formFields. rewrite Ha.
  apply not_true_is_false. intros Hall. rewrite forallb_forall in Hall.
  assert (Hin : includesStr (requiredParams a) p = true).
  { unfold includesStr. apply existsb_exists. exists p. split; [exact Hreq | apply String.eqb_refl]. }
  assert (Hfield : In {| name := p; required := includesStr (requiredParams a) p;
                         initialValue := "" |}
                      (map (fun p => {| name := p; required := includesStr (requiredParams a) p;
                                        initialValue := "" |})
                         (paramNames a))).
  { apply in_map_iff. exists p. split; [reflexivity | exact Hp]. }
  specialize (Hall _ Hfield).
  unfold validator in Hall. cbn [name required] in Hall. rewrite Hin, Hblank in Hall.
  discriminate Hall.
Qed.

(** C9.  The claim fails in the choice between authenticators.  The step
    offers [basic], whose two parameters are required, and [google]; no
    authenticator is current, so the render shows the form of [basic] beside
    the option [google], and nothing has been typed.  Submitting that form
    calls [handleAuthenticatorSelection] with both required fields empty.
    The handler does consult [validateForm], but the fields the hook checks
    are those of the current authenticator, of which there is none: the
    verdict is valid and [onSubmit] is called with the empty values.  Once
    [basic] is the current authenticator the same empty form is found
    invalid and [handleSubmit] returns without calling [onSubmit]. *)
Theorem chooser_form_with_missing_fields_is_submitted :
  let P := samplePlatform in
  let flow := responseOf InProgress (Some (stepOf MultiOptionsPrompt [basic; google])) in
  let st := showing flow None in
  let env := renderEnv P st true [] [] in
  let alone := showing (responseOf InProgress (Some (stepOf AuthenticatorPrompt [basic])))
                       (Some basic) in
  render P false st = ChooseOne [basic] [google]
  /\ requiredParams basic = ["username"; "password"]
  /\ formDataOf basic (formValues st) = [("username", ""); ("password", "")]
  /\ formFields st = []
  /\ formIsValid env = true
  /\ fst (onChoiceFormSubmit P st env basic)
     = [TouchAllFields;
        SetIsSignInInitializationRequestLoading true; SetError None; SetMessages [];
        ValidateForm;
        OnSubmit {| payloadFlowId := Some "flow-1"; selectedAuthenticatorId := "basic";
                    payloadParams := [("username", JStr ""); ("password", JStr "")] |}
                 {| method := "POST"; url := "https://idp/authn" |}]
  /\ formDataOf basic (formValues alone) = [("username", ""); ("password", "")]
  /\ formIsValid (renderEnv P alone true [] []) = false
  /\ onFormSubmit P alone (renderEnv P alone true [] [])
     = ([TouchAllFields; ValidateForm], Returned).
Proof.
  cbv zeta. repeat split; vm_compute; reflexivity.
Qed.

(** ** The state after a handler *)

Lemma applyActions_app (st : UiState) (xs ys : list Action) :
  applyActions st (xs ++ ys) = applyActions (applyActions st xs) ys.
Proof. unfold applyActions. apply fold_left_app. Qed.

Lemma applyActions_cons (st : UiState) (x : Action) (xs : list Action) :
  applyActions st (x :: xs) = applyActions (applyAction st x) xs.
Proof. reflexivity. Qed.

Lemma keepsSelection_applyActions (tr : list Action) :
  Forall keepsSelection tr ->
  forall st,
    currentFlow (applyActions st tr) = currentFlow st
    /\ currentAuthenticator (applyActions st tr) = currentAuthenticator st.
Proof.
  induction 1 as [|x xs Hx _ IH]; intros st; [split; reflexivity|].
  rewrite applyActions_cons. destruct (IH (applyAction st x)) as [IHf IHa].
  rewrite IHf, IHa. destruct x; cbn in Hx |- *; try contradiction; split; reflexivity.
Qed.

Lemma keepsSelection_setupFormFields_tail (ks : list string) :
  Forall keepsSelection (map (fun k => SetFormValue k "") ks).
Proof. induction ks; constructor; cbn; auto. Qed.

Lemma keepsSelection_setupFormFields (a : Authenticator) :
  Forall keepsSelection (setupFormFields a).
Proof.
  unfold setupFormFields. constructor; [exact I|].
  apply keepsSelection_setupFormFields_tail.
Qed.

Lemma keepsSelection_showMessages (step : Step) :
  Forall keepsSelection (showMessages step).
Proof.
  unfold showMessages. destruct (stepMessages step); repeat constructor.
Qed.

Lemma keepsSelection_loadingOff : Forall keepsSelection loadingOff.
Proof. repeat constructor. Qed.

Lemma keepsSelection_entered : Forall keepsSelection entered.
Proof. repeat constructor. Qed.

Lemma keepsValues_applyActions (tr : list Action) :
  Forall keepsValues tr ->
  forall st, formValues (applyActions st tr) = formValues st.
Proof.
  induction 1 as [|x xs Hx _ IH]; intros st; [reflexivity|].
  rewrite applyActions_cons, IH. destruct x; cbn in Hx |- *; try contradiction; reflexivity.
Qed.

Lemma keepsValues_showMessages (step : Step) :
  Forall keepsValues (showMessages step).
Proof.
  unfold showMessages. destruct (stepMessages step); repeat constructor.
Qed.

Lemma setValue_fresh (k v : string) (vs : list (string * string)) :
  ~ In k (map fst vs) -> setValue k v vs = vs ++ [(k, v)].
Proof.
  induction vs as [|[k' v'] rest IH]; intros Hfresh; [reflexivity|].
  cbn in Hfresh |- *.
  destruct (String.eqb_spec k' k) as [-> | Hne].
  - exfalso. apply Hfresh. left. reflexivity.
  - rewrite IH; [reflexivity|]. intros Hin. apply Hfresh. right. exact Hin.
Qed.

Lemma formValues_set_all (ks : list string) :
  NoDup ks ->
  forall st,
    (forall k, In k ks -> ~ In k (map fst (formValues st))) ->
    formValues (applyActions st (map (fun k => SetFormValue k "") ks))
    = formValues st ++ map (fun k => (k, "")) ks.
Proof.
  induction 1 as [|k ks Hk Hnd IH]; intros st Hfresh.
  - cbn. rewrite app_nil_r. reflexivity.
  - cbn [map]. rewrite applyActions_cons. rewrite IH.
    + cbn [applyAction formValues]. rewrite setValue_fresh by (apply Hfresh; left; reflexivity).
      rewrite <- app_assoc. reflexivity.
    + intros k' Hk'. cbn [applyAction formValues].
      rewrite setValue_fresh by (apply Hfresh; left; reflexivity).
      rewrite map_app, in_app_iff. cbn. intros [Hin | [Heq | []]].
      * apply (Hfresh k'); [right; exact Hk' | exact Hin].
      * subst k'. contradiction.
Qed.

Lemma insertKey_perm (k : string) (l : list string) : Permutation (insertKey k l) (k :: l).
Proof.
  induction l as [|k' rest IH]; cbn; [reflexivity|].
  destruct (indexBefore k k'); [reflexivity|].
  rewrite IH. apply perm_swap.
Qed.

Lemma sortKeys_perm (l : list string) : Permutation (sortKeys l) l.
Proof.
  induction l as [|k rest IH]; cbn; [reflexivity|].
  rewrite insertKey_perm, IH. reflexivity.
Qed.

Lemma firstOccurrences_NoDup (ks : list string) : NoDup (firstOccurrences ks).
Proof.
  induction ks as [|k rest IH]; cbn; constructor.
  - rewrite filter_In. intros [_ H]. rewrite String.eqb_refl in H. discriminate.
  - apply NoDup_filter. exact IH.
Qed.

Lemma In_firstOccurrences (ks : list string) (k : string) :
  In k (firstOccurrences ks) <-> In k ks.
Proof.
  induction ks as [|k' rest IH]; [reflexivity|].
  cbn [firstOccurrences]. cbn [In]. rewrite filter_In, IH, negb_true_iff, String.eqb_neq.
  destruct (String.eqb_spec k' k) as [-> | Hne]; [tauto|].
  split; [tauto|]. intros [H | H]; [tauto|]. right. split; [exact H | congruence].
Qed.

Lemma ownKeys_NoDup (ks : list string) : NoDup (ownKeys ks).
Proof. unfold ownKeys. apply NoDup_filter. apply firstOccurrences_NoDup. Qed.

Lemma In_ownKeys (ks : list string) (k : string) :
  In k (ownKeys ks) <-> In k ks /\ k <> "__proto__".
Proof.
  unfold ownKeys. rewrite filter_In, In_firstOccurrences, negb_true_iff, String.eqb_neq.
  reflexivity.
Qed.

Lemma objectKeys_NoDup (ks : list string) : NoDup (objectKeys ks).
Proof.
  unfold objectKeys. apply NoDup_app.
  - apply (Permutation_NoDup (Permutation_sym (sortKeys_perm _))).
    apply NoDup_filter. apply ownKeys_NoDup.
  - apply NoDup_filter. apply ownKeys_NoDup.
  - intros k Hin Hout.
    apply (Permutation_in _ (sortKeys_perm _)) in Hin.
    apply filter_In in Hin. apply filter_In in Hout.
    destruct Hin as [_ Hi]. destruct Hout as [_ Ho]. rewrite Hi in Ho. discriminate.
Qed.

Lemma In_objectKeys (ks : list string) (k : string) :
  In k (objectKeys ks) <-> In k ks /\ k <> "__proto__".
Proof.
  rewrite <- (In_ownKeys ks k). unfold objectKeys. rewrite in_app_iff. split.
  - intros [Hin | Hin].
    + apply (Permutation_in _ (sortKeys_perm _)) in Hin. apply filter_In in Hin. tauto.
    + apply filter_In in Hin. tauto.
  - intros Hin. destruct (isArrayIndex k) eqn:Hk.
    + left. apply (Permutation_in _ (Permutation_sym (sortKeys_perm _))).
      apply filter_In. split; assumption.
    + right. apply filter_In. split; [assumption | rewrite Hk; reflexivity].
Qed.

(** The key order of an object: array indices first, whatever the order of
    assignment. *)
Example objectKeys_order :
  objectKeys ["b"; "2"; "a"; "10"; "1"; "b"; "01"; "__proto__"; "4294967295"; "0"]
  = ["0"; "1"; "2"; "10"; "b"; "a"; "01"; "4294967295"].
Proof. reflexivity. Qed.

Lemma formValues_setupFormFields (st : UiState) (a : Authenticator) :
  formValues (applyActions st (setupFormFields a))
  = map (fun k => (k, "")) (objectKeys (paramNames a)).
Proof.
  unfold setupFormFields. rewrite applyActions_cons.
  rewrite formValues_set_all.
  - reflexivity.
  - apply objectKeys_NoDup.
  - intros k _ [].
Qed.

Lemma loading_after_loadingOff (st : UiState) (tr : list Action) :
  isSignInInitializationRequestLoading (applyActions st (tr ++ loadingOff)) = false.
Proof. rewrite applyActions_app. reflexivity. Qed.

(** ** Selection of the next authenticator *)

Lemma redirectTarget_needs_one (response : FlowResponse) (step : Step) :
  nextStep response = Some step ->
  1 < List.length (authenticators step) ->
  redirectTarget response = None.
Proof.
  intros Hstep Hlen. unfold redirectTarget. rewrite Hstep.
  destruct (StepType_eqb (stepType step) AuthenticatorPrompt); [|reflexivity].
  destruct (authenticators step) as [|a [|b rest]]; cbn in Hlen; try reflexivity; lia.
Qed.

Lemma continueFlow_unchained (response : FlowResponse) (step : Step) :
  flowId response <> None ->
  nextStep response = Some step ->
  continueFlow (fun _ => None) response
  = done (SetCurrentFlow response :: selectAuthenticator step ++ showMessages step ++ loadingOff).
Proof.
  intros Hid Hstep. unfold continueFlow, selectAuthenticator. rewrite Hstep.
  destruct (flowId response); [|congruence].
  destruct (authenticators step) as [|a rest]; [reflexivity|].
  destruct (isMultiChoice step); reflexivity.
Qed.

(** The effects of a delivered response: either a popup is opened for it,
    or it becomes the current flow and its step is gone through. *)
Lemma Delivered_shape (P : Platform) (response : FlowResponse) (step : Step)
      (st : UiState) (r : Run) :
  nextStep response = Some step ->
  Delivered P response st r ->
  snd r = Returned
  /\ ((exists before_popup u,
          redirectTarget response <> None
          /\ fst r = before_popup ++ [WindowOpen u; AddMessageListener; SetInterval] ++ loadingOff
          /\ Forall keepsSelection before_popup
          /\ currentAuthenticator st <> None)
      \/ (exists before_select,
             fst r = before_select ++ selectAuthenticator step
                     ++ showMessages step ++ loadingOff
             /\ ~ In AddMessageListener before_select
             /\ currentFlow (applyActions st before_select) = Some response
             /\ currentAuthenticator (applyActions st before_select)
                = currentAuthenticator st)).
Proof.
  intros Hstep Hdel.
  destruct Hdel as [st Hstatus | st env values flow a later Hflow Ha Hlinks Hvalid Hsub Hstatus Hid].
  - split; [reflexivity|]. right.
    exists [SetIsSignInInitializationRequestLoading true; SetError None; OnInitialize;
            SetCurrentFlow response; SetIsInitialized true; OnFlowChange response].
    split; [|split; [|split]].
    + unfold initialize, emit, done. cbn [fst snd]. rewrite Hstep.
      destruct (flowStatus response); try congruence; cbn; rewrite <- ?app_assoc; reflexivity.
    + cbn. intuition discriminate.
    + reflexivity.
    + reflexivity.
  - destruct (requestConfig_some flow Hlinks) as [cfg Hcfg].
    unfold handleSubmit, submitAndContinue.
    rewrite Hflow, Ha, Hvalid, Hcfg, Hsub, Hstatus. cbn [negb].
    unfold handleRedirectionIfNeeded.
    destruct (redirectTarget response) as [[a' u]|] eqn:Htarget.
    + destruct (popupOpens env).
      * split; [reflexivity|]. left.
        exists ([TouchAllFields; ValidateForm] ++ entered
                ++ [OnSubmit (payloadOf flow a (formParams values)) cfg; OnFlowChange response]), u.
        split; [congruence|]. split; [reflexivity|].
        split; [repeat constructor | congruence].
      * rewrite (continueFlow_unchained response step Hid Hstep).
        split; [reflexivity|]. right.
        exists ([TouchAllFields; ValidateForm] ++ entered
                ++ [OnSubmit (payloadOf flow a (formParams values)) cfg; OnFlowChange response;
                    WindowOpen u; ConsoleError "Failed to open popup window";
                    SetCurrentFlow response]).
        split; [reflexivity|]. split; [cbn; intuition discriminate|].
        split; [reflexivity | cbn; congruence].
    + rewrite (continueFlow_unchained response step Hid Hstep).
      split; [reflexivity|]. right.
      exists ([TouchAllFields; ValidateForm] ++ entered
              ++ [OnSubmit (payloadOf flow a (formParams values)) cfg; OnFlowChange response;
                  SetCurrentFlow response]).
      split; [reflexivity|]. split; [cbn; intuition discriminate|].
      split; [reflexivity | cbn; congruence].
Qed.

Lemma includesStr_In (xs : list string) (x : string) :
  includesStr xs x = true <-> In x xs.
Proof.
  unfold includesStr. rewrite existsb_exists. split.
  - intros [y [Hin Heq]]. apply String.eqb_eq in Heq. subst. exact Hin.
  - intros Hin. exists x. split; [exact Hin | apply String.eqb_refl].
Qed.

Lemma options_all_hidden (auths : list Authenticator) :
  (forall a, In a auths -> isUserPrompt a = false ->
             In (authenticatorId a) HIDDEN_AUTHENTICATORS) ->
  filter (fun a => negb (includesStr HIDDEN_AUTHENTICATORS (authenticatorId a)))
    (filter (fun a => negb (isUserPrompt a)) auths) = [].
Proof.
  induction auths as [|a rest IH]; intros Hall; [reflexivity|].
  cbn [filter]. destruct (isUserPrompt a) eqn:Hup; cbn [negb].
  - apply IH. intros b Hb. apply Hall. right. exact Hb.
  - cbn [filter].
    assert (Hhid : includesStr HIDDEN_AUTHENTICATORS (authenticatorId a) = true).
    { apply includesStr_In. apply Hall; [left; reflexivity | exact Hup]. }
    rewrite Hhid. cbn [negb]. apply IH. intros b Hb. apply Hall. right. exact Hb.
Qed.

Lemma selection_then_messages (st : UiState) (before_select select : list Action) (step : Step) :
  let st' := applyActions st (before_select ++ select ++ showMessages step ++ loadingOff) in
  currentFlow st' = currentFlow (applyActions st (before_select ++ select))
  /\ currentAuthenticator st' = currentAuthenticator (applyActions st (before_select ++ select))
  /\ formValues st' = formValues (applyActions st (before_select ++ select))
  /\ isSignInInitializationRequestLoading st' = false.
Proof.
  cbv zeta.
  replace (before_select ++ select ++ showMessages step ++ loadingOff)
    with ((before_select ++ select) ++ showMessages step ++ loadingOff)
    by (rewrite <- app_assoc; reflexivity).
  rewrite (applyActions_app st (before_select ++ select)).
  set (mid := applyActions st (before_select ++ select)).
  assert (Hkeep : Forall keepsSelection (showMessages step ++ loadingOff)).
  { apply Forall_app. split; [apply keepsSelection_showMessages | apply keepsSelection_loadingOff]. }
  assert (Hvals : Forall keepsValues (showMessages step ++ loadingOff)).
  { apply Forall_app. split; [apply keepsValues_showMessages | repeat constructor]. }
  destruct (keepsSelection_applyActions _ Hkeep mid) as [Hf Ha].
  repeat split; try assumption.
  - apply keepsValues_applyActions. exact Hvals.
  - apply loading_after_loadingOff.
Qed.

Lemma In_setupFormFields (x : Action) (a : Authenticator) :
  In x (setupFormFields a) -> isFormSetup x = true.
Proof.
  unfold setupFormFields. intros [<- | Hin]; [reflexivity|].
  apply in_map_iff in Hin. destruct Hin as [k [<- _]]. reflexivity.
Qed.

Lemma In_showMessages (x : Action) (step : Step) :
  In x (showMessages step) -> exists ms, x = SetMessages ms.
Proof.
  unfold showMessages. destruct (stepMessages step) as [ms|]; [|intros []].
  intros [<- | []]. eexists. reflexivity.
Qed.

Lemma render_with_authenticator (P : Platform) (ext : bool) (st : UiState)
      (forms options : list Authenticator) :
  currentAuthenticator st <> None -> render P ext st <> ChooseOne forms options.
Proof.
  intros Ha. unfold render.
  destruct (negb (isInitialized st) && (ext || isSignInInitializationRequestLoading st));
    [discriminate|].
  destruct (currentAuthenticator st) as [a|]; [|congruence].
  destruct (isPasskeyAuthenticator P a && negb (ext || isSignInInitializationRequestLoading st));
    discriminate.
Qed.

Lemma render_without_options (P : Platform) (ext : bool) (st : UiState)
      (forms options : list Authenticator) :
  hasMultipleOptions st = false -> render P ext st <> ChooseOne forms options.
Proof.
  intros Hm. unfold render. rewrite Hm.
  destruct (negb (isInitialized st) && (ext || isSignInInitializationRequestLoading st));
    [discriminate|].
  destruct (currentAuthenticator st) as [a|]; [|discriminate].
  destruct (isPasskeyAuthenticator P a && negb (ext || isSignInInitializationRequestLoading st));
    discriminate.
Qed.

(** The response of a step with a sole authenticator, delivered. *)
Lemma sole_authenticator_is_selected
      (P : Platform) (response : FlowResponse) (step : Step) (a : Authenticator)
      (st : UiState) (r : Run) :
  nextStep response = Some step ->
  authenticators step = [a] ->
  stepType step <> MultiOptionsPrompt ->
  Delivered P response st r ->
  let st' := applyActions st (fst r) in
  snd r = Returned
  /\ (forall ext forms options, render P ext st' <> ChooseOne forms options)
  /\ ((redirectTarget response <> None
       /\ In AddMessageListener (fst r)
       /\ currentFlow st' = currentFlow st
       /\ currentAuthenticator st' = currentAuthenticator st)
      \/ (~ In AddMessageListener (fst r)
          /\ currentFlow st' = Some response
          /\ currentAuthenticator st' = Some a
          /\ formFields st' = fieldsOf a
          /\ formValues st' = map (fun k => (k, "")) (objectKeys (paramNames a)))).
Proof.
  intros Hstep Hauths _ Hdel. cbv zeta.
  destruct (Delivered_shape P response step st r Hstep Hdel) as [Hret Hshape].
  split; [exact Hret|].
  destruct Hshape as [[pre [u [Htarget [Hr [Hkeep Hsome]]]]] | [pre [Hr [Hnl [Hflow Hauth]]]]].
  - assert (Hall : Forall keepsSelection (fst r)).
    { rewrite Hr. apply Forall_app. split; [exact Hkeep | repeat constructor]. }
    destruct (keepsSelection_applyActions _ Hall st) as [Hf Ha].
    split.
    + intros ext forms options. apply render_with_authenticator. rewrite Ha. exact Hsome.
    + left. repeat split; try assumption.
      rewrite Hr. apply in_or_app. right. right. left. reflexivity.
  - assert (Hsel : selectAuthenticator step = SetCurrentAuthenticator (Some a) :: setupFormFields a).
    { unfold selectAuthenticator, isMultiChoice. rewrite Hauths. cbn.
      rewrite andb_false_r. reflexivity. }
    rewrite Hr, Hsel.
    destruct (selection_then_messages st pre (SetCurrentAuthenticator (Some a) :: setupFormFields a) step)
      as [Hf [Ha [Hv _]]].
    set (st' := applyActions st (pre ++ (SetCurrentAuthenticator (Some a) :: setupFormFields a)
                                 ++ showMessages step ++ loadingOff)) in *.
    rewrite applyActions_app, applyActions_cons in Hf, Ha, Hv.
    destruct (keepsSelection_applyActions _ (keepsSelection_setupFormFields a)
                (applyAction (applyActions st pre) (SetCurrentAuthenticator (Some a))))
      as [Hf2 Ha2].
    rewrite Hf2 in Hf. rewrite Ha2 in Ha. cbn in Hf, Ha. rewrite Hflow in Hf.
    rewrite formValues_setupFormFields in Hv.
    split.
    + intros ext forms options. apply render_with_authenticator. rewrite Ha. discriminate.
    + right. repeat split; try assumption.
      * intros Hin. apply in_app_or in Hin. destruct Hin as [Hin | Hin]; [exact (Hnl Hin)|].
        apply in_app_or in Hin. destruct Hin as [[Hin | Hin] | Hin].
        -- discriminate.
        -- apply In_setupFormFields in Hin. discriminate.
        -- apply in_app_or in Hin. destruct Hin as [Hin | Hin].
           ++ apply In_showMessages in Hin. destruct Hin as [ms Hms]. discriminate.
           ++ destruct Hin as [Hin | []]. discriminate.
      * unfold formFields, fieldsOf. rewrite Ha. reflexivity.
Qed.

Lemma flowsFrom_more (x : Outcome FlowResponse) (rs : list (Outcome FlowResponse))
      (tr : list Action) :
  Forall (flowsFrom rs) tr -> Forall (flowsFrom (x :: rs)) tr.
Proof.
  intros H. eapply Forall_impl; [|exact H].
  intros a. destruct a; cbn; auto.
Qed.

Lemma flowsFrom_plain (rs : list (Outcome FlowResponse)) (tr : list Action) :
  Forall (fun a => match a with SetCurrentFlow _ => False | _ => True end) tr ->
  Forall (flowsFrom rs) tr.
Proof.
  intros H. eapply Forall_impl; [|exact H].
  intros a. destruct a; cbn; auto. intros [].
Qed.

Lemma plain_setupFormFields (a : Authenticator) :
  Forall (fun a => match a with SetCurrentFlow _ => False | _ => True end) (setupFormFields a).
Proof.
  unfold setupFormFields. constructor; [exact I|].
  induction (objectKeys (paramNames a)); constructor; cbn; auto.
Qed.

Lemma plain_showMessages (step : Step) :
  Forall (fun a => match a with SetCurrentFlow _ => False | _ => True end) (showMessages step).
Proof. unfold showMessages. destruct (stepMessages step); repeat constructor. Qed.

Lemma plain_passkeyCatch (P : Platform) (e : Thrown) :
  Forall (fun a => match a with SetCurrentFlow _ => False | _ => True end) (passkeyCatch P e).
Proof. repeat constructor. Qed.

Ltac flows :=
  cbn [fst snd done emit app];
  repeat first
    [ apply Forall_nil
    | apply Forall_app; split
    | apply flowsFrom_plain; first [ apply plain_setupFormFields | apply plain_showMessages
                                   | apply plain_passkeyCatch | solve [repeat constructor] ]
    | apply Forall_cons; [solve [cbn; auto] |] ].

Lemma continueFlow_flows (rs : list (Outcome FlowResponse))
      (chain : Authenticator -> option Run) (response : FlowResponse) :
  In (Resolve response) rs ->
  (forall next r, chain next = Some r -> Forall (flowsFrom rs) (fst r)) ->
  Forall (flowsFrom rs) (fst (continueFlow chain response)).
Proof.
  intros Hin Hchain. unfold continueFlow.
  destruct (flowId response); [|flows].
  destruct (nextStep response) as [step|]; [|flows].
  destruct (authenticators step) as [|next rest]; [flows|].
  destruct (isMultiChoice step); [flows|].
  destruct (chain next) as [r|] eqn:Hc; [|flows].
  cbn. constructor; [exact Hin|]. apply (Hchain next r Hc).
Qed.

Lemma chainInto_flows (P : Platform) (rs : list (Outcome FlowResponse))
      (rest : Run) (next : Authenticator) :
  Forall (flowsFrom rs) (fst rest) ->
  Forall (flowsFrom rs) (fst (chainInto P rest next)).
Proof.
  intros H. unfold chainInto. destruct (requireChallengeData next); cbn.
  - flows.
  - repeat (constructor; [exact I|]). exact H.
Qed.

Lemma passkeyRest_flows (P : Platform) (flow : FlowResponse) :
  forall subs a cers, Forall (flowsFrom subs) (fst (passkeyRest P flow a cers subs)).
Proof.
  induction subs as [|sub subs IH]; intros a cers.
  - destruct cers as [|[token|e] cers']; cbn; [flows | | flows].
    destruct (requestConfig flow) as [cfg|]; flows.
  - destruct cers as [|[token|e] cers']; cbn [passkeyRest]; [flows | | flows].
    destruct (requestConfig flow) as [cfg|]; [|flows].
    destruct sub as [response|e]; [|flows].
    cbn [emit fst snd app]. constructor; [exact I|]. constructor; [exact I|].
    destruct (flowStatus response); try (flows).
    apply continueFlow_flows; [left; reflexivity|].
    intros next r Hr.
    destruct (isPasskeyAuthenticator P next); [|discriminate].
    injection Hr as <-. apply chainInto_flows. apply flowsFrom_more. apply IH.
Qed.

Lemma submitAndContinue_flows (P : Platform) (onThrow : Thrown -> list Action) (failure : string)
      (chain : list (Outcome FlowResponse) -> Authenticator -> option Run)
      (flow : FlowResponse) (a : Authenticator) (ps : list (string * JsVal)) (env : Env) :
  (forall e, Forall (flowsFrom (submits env)) (onThrow e)) ->
  (forall x subs next r, submits env = x :: subs -> chain subs next = Some r ->
                         Forall (flowsFrom subs) (fst r)) ->
  Forall (flowsFrom (submits env))
    (fst (submitAndContinue P onThrow failure chain flow a ps env)).
Proof.
  intros Hthrow Hchain. unfold submitAndContinue.
  destruct (requestConfig flow) as [cfg|]; [|flows; apply Hthrow].
  destruct (submits env) as [|[response|e] subs] eqn:Hsub; [flows | | flows; apply Hthrow].
  cbn [emit fst snd app]. constructor; [exact I|]. constructor; [exact I|].
  destruct (flowStatus response); try (flows).
  unfold handleRedirectionIfNeeded.
  destruct (redirectTarget response) as [[a' u]|].
  - destruct (popupOpens env); [flows|].
    cbn [emit fst snd app]. constructor; [exact I|]. constructor; [exact I|].
    apply continueFlow_flows; [left; reflexivity|].
    intros next r Hr. apply flowsFrom_more. apply (Hchain _ _ _ _ eq_refl Hr).
  - cbn [emit fst snd app].
    apply continueFlow_flows; [left; reflexivity|].
    intros next r Hr. apply flowsFrom_more. apply (Hchain _ _ _ _ eq_refl Hr).
Qed.

Lemma chainPasskey_flows (P : Platform) (flow : FlowResponse) (cers : list (Outcome string))
      (subs : list (Outcome FlowResponse)) (next : Authenticator) (r : Run) :
  chainPasskey P flow cers subs next = Some r -> Forall (flowsFrom subs) (fst r).
Proof.
  unfold chainPasskey. destruct (isPasskeyAuthenticator P next); [|discriminate].
  intros Hr. injection Hr as <-. apply chainInto_flows. apply passkeyRest_flows.
Qed.

Lemma handle_flows (P : Platform) (st : UiState) (call : Call) :
  Forall (flowsFrom (answers call)) (fst (handle P st call)).
Proof.
  destruct call as [env values | env a formData]; cbn [handle answers].
  - unfold handleSubmit.
    destruct (currentFlow st) as [flow|]; [|flows].
    destruct (currentAuthenticator st) as [a|]; [|flows].
    cbn [emit fst snd app]. constructor; [exact I|]. constructor; [exact I|].
    destruct (formIsValid env); cbn [negb]; [|flows].
    cbn [emit fst snd]. apply Forall_app. split; [flows|].
    apply submitAndContinue_flows.
    + intros e. flows.
    + intros x subs next r _ Hr. discriminate.
  - unfold handleAuthenticatorSelection.
    destruct (currentFlow st) as [flow|]; [|flows].
    cbn [emit fst snd]. apply Forall_app. split; [destruct formData; flows|].
    destruct (isPasskeyAuthenticator P a).
    + destruct (requireChallengeData a); [flows|].
      cbn [emit fst snd app]. constructor; [exact I|]. apply passkeyRest_flows.
    + destruct (isRedirectionPrompt a).
      * unfold redirectionBranch.
        destruct (requestConfig flow) as [cfg|]; [|flows].
        destruct (submits env) as [|[response|e] subs]; [flows | | flows].
        cbn [emit fst snd app]. constructor; [exact I|]. constructor; [exact I|].
        unfold handleRedirectionIfNeeded.
        destruct (flowStatus response); destruct (redirectTarget response) as [[a' u]|];
          try destruct (popupOpens env); flows.
      * destruct formData as [fd|].
        -- cbn [emit fst snd app]. constructor; [exact I|].
           destruct (formIsValid env); cbn [negb]; [|flows].
           apply submitAndContinue_flows.
           ++ intros e. flows.
           ++ intros x subs next r _ Hr. apply (chainPasskey_flows _ _ _ _ _ _ Hr).
        -- destruct (paramNames a); [|flows].
           apply submitAndContinue_flows.
           ++ intros e. flows.
           ++ intros x subs next r _ Hr. apply (chainPasskey_flows _ _ _ _ _ _ Hr).
Qed.

Lemma forcedFlow_keeps_no_options (tr : list Action) :
  Forall forcedFlow tr ->
  forall st, hasMultipleOptions st = false ->
             hasMultipleOptions (applyActions st tr) = false.
Proof.
  induction 1 as [|x xs Hx _ IH]; intros st Hst; [exact Hst|].
  rewrite applyActions_cons. apply IH.
  destruct x; try exact Hst.
  cbn in Hx |- *. unfold hasMultipleOptions. cbn.
  destruct (nextStep r) as [step|] eqn:Hstep; [|reflexivity].
  unfold isMultiChoice. rewrite (Hx step Hstep). cbn. apply andb_false_r.
Qed.

Lemma flowsFrom_forced (rs : list (Outcome FlowResponse)) (tr : list Action) :
  (forall r, In (Resolve r) rs -> offersOne r) ->
  Forall (flowsFrom rs) tr -> Forall forcedFlow tr.
Proof.
  intros Hrs H. eapply Forall_impl; [|exact H].
  intros a. destruct a; cbn; auto.
Qed.

Lemma session_forced (P : Platform) (calls : list Call) :
  (forall call r, In call calls -> In (Resolve r) (answers call) -> offersOne r) ->
  forall st, Forall forcedFlow (session P st calls).
Proof.
  induction calls as [|call rest IH]; intros Hcalls st; [constructor|].
  cbn [session]. apply Forall_app. split.
  - apply (flowsFrom_forced (answers call)).
    + intros r Hr. apply (Hcalls call r); [left; reflexivity | exact Hr].
    + apply handle_flows.
  - apply IH. intros call' r Hin Hr. apply (Hcalls call' r); [right; exact Hin | exact Hr].
Qed.

Lemma initialize_forced (P : Platform) (o : option (Outcome FlowResponse)) :
  (forall r, o = Some (Resolve r) -> offersOne r) ->
  Forall forcedFlow (fst (initialize P o)).
Proof.
  intros Ho. unfold initialize.
  destruct o as [[response|e]|]; cbn [emit fst snd done app].
  - repeat (constructor; [exact I|]). constructor; [apply Ho; reflexivity|].
    repeat (constructor; [exact I|]).
    apply Forall_app. split.
    + destruct (flowStatus response); try (repeat constructor);
        (destruct (nextStep response) as [step|]; [|constructor];
         apply Forall_app; split;
         [ unfold selectAuthenticator; destruct (authenticators step); [constructor|];
           destruct (isMultiChoice step); [repeat constructor|];
           constructor; [exact I|];
           eapply Forall_impl; [|apply plain_setupFormFields];
           intros x; destruct x; cbn; auto; intros []
         | eapply Forall_impl; [|apply plain_showMessages];
           intros x; destruct x; cbn; auto; intros [] ]).
    + repeat constructor.
  - repeat constructor.
  - repeat constructor.
Qed.

(** A series of steps each of which offers one authenticator. *)
Lemma session_never_pauses (P : Platform) (o : option (Outcome FlowResponse))
      (calls : list Call) :
  (forall r, o = Some (Resolve r) -> offersOne r) ->
  (forall call r, In call calls -> In (Resolve r) (answers call) -> offersOne r) ->
  forall shown later,
    fst (initialize P o) ++ session P (applyActions mounted (fst (initialize P o))) calls
    = shown ++ later ->
    forall ext forms options,
      render P ext (applyActions mounted shown) <> ChooseOne forms options.
Proof.
  intros Ho Hcalls shown later Hsplit ext forms options.
  apply render_without_options. apply forcedFlow_keeps_no_options; [|reflexivity].
  assert (Hall : Forall forcedFlow (shown ++ later)).
  { rewrite <- Hsplit. apply Forall_app. split.
    - apply initialize_forced. exact Ho.
    - apply session_forced. exact Hcalls. }
  apply Forall_app in Hall. exact (proj1 Hall).
Qed.

(** C4 (amended).  A response whose step offers exactly one authenticator and
    is not a multi-option step, delivered by [onInitialize] or by the
    submission of [handleSubmit], makes that authenticator the current one
    and sets up its fields with empty values, unless [handleSubmit] opens a
    popup for it: a sole redirection authenticator of an authenticator prompt
    is handed to the popup handshake and the flow and authenticator on
    screen stay as they were.  In both cases the choice between
    authenticators is not rendered; and it is rendered at no point of a
    series of handler calls all of whose responses offer one authenticator. *)
Theorem forced_choice_is_never_a_pause (P : Platform) :
  (forall response step a st r,
      nextStep response = Some step ->
      authenticators step = [a] ->
      stepType step <> MultiOptionsPrompt ->
      Delivered P response st r ->
      let st' := applyActions st (fst r) in
      snd r = Returned
      /\ (forall ext forms options, render P ext st' <> ChooseOne forms options)
      /\ ((redirectTarget response <> None
           /\ In AddMessageListener (fst r)
           /\ currentFlow st' = currentFlow st
           /\ currentAuthenticator st' = currentAuthenticator st)
          \/ (~ In AddMessageListener (fst r)
              /\ currentFlow st' = Some response
              /\ currentAuthenticator st' = Some a
              /\ formFields st' = fieldsOf a
              /\ formValues st' = map (fun k => (k, "")) (objectKeys (paramNames a)))))
  /\ (forall o calls,
        (forall r, o = Some (Resolve r) -> offersOne r) ->
        (forall call r, In call calls -> In (Resolve r) (answers call) -> offersOne r) ->
        forall shown later,
          fst (initialize P o) ++ session P (applyActions mounted (fst (initialize P o))) calls
          = shown ++ later ->
          forall ext forms options,
            render P ext (applyActions mounted shown) <> ChooseOne forms options).
Proof.
  split.
  - apply sole_authenticator_is_selected.
  - apply session_never_pauses.
Qed.

Lemma forced_choice_is_never_a_pause_witness :
  let response := responseOf InProgress (Some (stepOf AuthenticatorPrompt [basic])) in
  let st' := applyActions mounted (fst (initialize samplePlatform (Some (Resolve response)))) in
  currentAuthenticator st' = Some basic
  /\ formFields st' = fieldsOf basic
  /\ formValues st' = [("username", ""); ("password", "")].
Proof.
  cbv zeta.
  destruct (proj1 (forced_choice_is_never_a_pause samplePlatform)
              (responseOf InProgress (Some (stepOf AuthenticatorPrompt [basic])))
              (stepOf AuthenticatorPrompt [basic]) basic mounted
              (initialize samplePlatform
                 (Some (Resolve (responseOf InProgress (Some (stepOf AuthenticatorPrompt [basic]))))))
              eq_refl eq_refl)
    as [_ [_ [[_ [Hin _]] | [_ [_ [Ha [Hf Hv]]]]]]].
  - cbn. discriminate.
  - apply by_initialize. cbn. discriminate.
  - exfalso. vm_compute in Hin. intuition discriminate.
  - repeat split; assumption.
Defined.

(** C4 (as stated, refuted).  The form of [basic] is submitted and the
    response offers the redirection authenticator [google] as the sole
    authenticator of an authenticator prompt.  The popup opens, and the
    authenticator on screen is still [basic]: [google] is not made current
    and no field set is derived for it. *)
Lemma sole_redirect_authenticator_is_not_selected :
  let shown := responseOf InProgress (Some (stepOf AuthenticatorPrompt [basic])) in
  let response := responseOf InProgress (Some (stepOf AuthenticatorPrompt [google])) in
  let st := showing shown (Some basic) in
  let r := handleSubmit samplePlatform st (sampleEnv true true [] [Resolve response])
             [("username", "u"); ("password", "p")] in
  Delivered samplePlatform response st r
  /\ currentAuthenticator (applyActions st (fst r)) = Some basic
  /\ currentFlow (applyActions st (fst r)) = Some shown
  /\ In (WindowOpen "https://idp/auth") (fst r).
Proof.
  cbv zeta. split; [|split; [|split]].
  - eapply by_submit with (flow := responseOf InProgress (Some (stepOf AuthenticatorPrompt [basic])));
      try reflexivity; cbn; discriminate.
  - vm_compute. reflexivity.
  - vm_compute. reflexivity.
  - vm_compute. do 7 right. left. reflexivity.
Qed.

(** ** The choice between several authenticators *)

Lemma takes_plain (response : FlowResponse) (tr : list Action) :
  Forall keepsFlow tr -> takes response tr.
Proof.
  intros Hall Hin. exfalso. rewrite Forall_forall in Hall. exact (Hall _ Hin).
Qed.

Lemma takes_app (response : FlowResponse) (pre tr : list Action) :
  Forall keepsFlow pre -> takes response tr -> takes response (pre ++ tr).
Proof.
  intros Hpre Htr Hin. apply in_app_or in Hin. destruct Hin as [Hin | Hin].
  - exfalso. rewrite Forall_forall in Hpre. exact (Hpre _ Hin).
  - intros st. rewrite applyActions_app. apply (Htr Hin).
Qed.

Lemma takes_other (response other : FlowResponse) (tr : list Action) :
  other <> response -> takes response tr -> takes response (SetCurrentFlow other :: tr).
Proof.
  intros Hne Htr [Heq | Hin]; [congruence|].
  intros st. rewrite applyActions_cons. apply (Htr Hin).
Qed.

Ltac keeps_flow :=
  cbn [fst snd done emit app];
  repeat first
    [ apply Forall_nil
    | apply Forall_app; split
    | apply plain_setupFormFields
    | apply plain_showMessages
    | apply plain_passkeyCatch
    | apply Forall_cons; [exact I |] ].

Ltac no_flow := solve [apply takes_plain; keeps_flow].

Lemma settles_choice (response : FlowResponse) (step : Step) :
  settlesOn response
    (SetCurrentFlow response :: SetCurrentAuthenticator None :: showMessages step ++ loadingOff).
Proof.
  intros st. rewrite !applyActions_cons.
  set (mid := applyAction (applyAction st (SetCurrentFlow response)) (SetCurrentAuthenticator None)).
  assert (Hkeep : Forall keepsSelection (showMessages step ++ loadingOff)).
  { apply Forall_app. split; [apply keepsSelection_showMessages | apply keepsSelection_loadingOff]. }
  destruct (keepsSelection_applyActions _ Hkeep mid) as [Hf Ha].
  rewrite Hf, Ha. repeat split. apply loading_after_loadingOff.
Qed.

Section Choice.

Variable P : Platform.
Variable response : FlowResponse.
Variable step : Step.
Hypothesis Hstep : nextStep response = Some step.
Hypothesis Hmulti : isMultiChoice step = true.

Lemma continueFlow_takes (chain : Authenticator -> option Run) (answer : FlowResponse) :
  (forall next r, chain next = Some r -> takes response (fst r)) ->
  takes response (fst (continueFlow chain answer)).
Proof.
  intros Hchain. unfold continueFlow.
  destruct (flowId answer); [|no_flow].
  destruct (nextStep answer) as [st'|] eqn:Hst; [|no_flow].
  destruct (authenticators st') as [|next rest] eqn:Hauths.
  - cbn [fst done]. apply takes_other; [|no_flow].
    intros ->. rewrite Hstep in Hst. injection Hst as <-.
    unfold isMultiChoice in Hmulti. rewrite Hauths in Hmulti. cbn in Hmulti.
    rewrite andb_false_r in Hmulti. discriminate.
  - destruct (isMultiChoice st') eqn:Hm.
    + cbn [fst done]. intros [Heq | Hin].
      * injection Heq as ->. rewrite Hstep in Hst. injection Hst as <-.
        apply settles_choice.
      * exfalso.
        assert (Hplain : Forall keepsFlow
                           (SetCurrentAuthenticator None :: showMessages st' ++ loadingOff))
          by keeps_flow.
        rewrite Forall_forall in Hplain. exact (Hplain _ Hin).
    + assert (Hne : answer <> response).
      { intros ->. rewrite Hstep in Hst. injection Hst as <-. congruence. }
      destruct (chain next) as [r|] eqn:Hc.
      * cbn [fst emit app]. apply takes_other; [exact Hne | apply (Hchain next r Hc)].
      * cbn [fst done]. apply takes_other; [exact Hne | no_flow].
Qed.

Lemma chainInto_takes (rest : Run) (next : Authenticator) :
  takes response (fst rest) -> takes response (fst (chainInto P rest next)).
Proof.
  intros Hrest. unfold chainInto. destruct (requireChallengeData next) as [e|challenge].
  - no_flow.
  - cbn [fst emit]. apply takes_app; [keeps_flow | exact Hrest].
Qed.

Lemma passkeyRest_takes (flow : FlowResponse) :
  forall subs a cers, takes response (fst (passkeyRest P flow a cers subs)).
Proof.
  induction subs as [|sub subs IH]; intros a cers.
  - destruct cers as [|[token|e] cers']; cbn [passkeyRest]; [no_flow | | no_flow].
    destruct (requestConfig flow) as [cfg|]; no_flow.
  - destruct cers as [|[token|e] cers']; cbn [passkeyRest]; [no_flow | | no_flow].
    destruct (requestConfig flow) as [cfg|]; [|no_flow].
    destruct sub as [answer|e]; [|no_flow].
    cbn [emit fst snd app].
    apply (takes_app response [OnSubmit (payloadOf flow a [("tokenResponse", JStr token)]) cfg;
                               OnFlowChange answer]); [keeps_flow|].
    destruct (flowStatus answer); try no_flow.
    apply continueFlow_takes. intros next r Hr.
    destruct (isPasskeyAuthenticator P next); [|discriminate].
    injection Hr as <-. apply chainInto_takes. apply IH.
Qed.

Lemma chainPasskey_takes (flow : FlowResponse) (cers : list (Outcome string))
      (subs : list (Outcome FlowResponse)) (next : Authenticator) (r : Run) :
  chainPasskey P flow cers subs next = Some r -> takes response (fst r).
Proof.
  unfold chainPasskey. destruct (isPasskeyAuthenticator P next); [|discriminate].
  intros Hr. injection Hr as <-. apply chainInto_takes. apply passkeyRest_takes.
Qed.

Lemma submitAndContinue_takes (onThrow : Thrown -> list Action) (failure : string)
      (chain : list (Outcome FlowResponse) -> Authenticator -> option Run)
      (flow : FlowResponse) (a : Authenticator) (ps : list (string * JsVal)) (env : Env) :
  (forall e, Forall keepsFlow (onThrow e)) ->
  (forall subs next r, chain subs next = Some r -> takes response (fst r)) ->
  takes response (fst (submitAndContinue P onThrow failure chain flow a ps env)).
Proof.
  intros Hthrow Hchain. unfold submitAndContinue.
  destruct (requestConfig flow) as [cfg|]; [|apply takes_plain; keeps_flow; apply Hthrow].
  destruct (submits env) as [|[answer|e] subs];
    [no_flow | | apply takes_plain; keeps_flow; apply Hthrow].
  cbn [emit fst snd app].
  apply (takes_app response [OnSubmit (payloadOf flow a ps) cfg; OnFlowChange answer]);
    [keeps_flow|].
  destruct (flowStatus answer); try no_flow.
  unfold handleRedirectionIfNeeded.
  destruct (redirectTarget answer) as [[a' u]|].
  - destruct (popupOpens env); [no_flow|].
    cbn [emit fst snd].
    apply takes_app; [keeps_flow|]. apply continueFlow_takes. apply Hchain.
  - cbn [emit fst snd app]. apply continueFlow_takes. apply Hchain.
Qed.

Lemma handle_takes (st : UiState) (call : Call) : takes response (fst (handle P st call)).
Proof.
  destruct call as [env values | env a formData]; cbn [handle].
  - unfold handleSubmit.
    destruct (currentFlow st) as [flow|]; [|no_flow].
    destruct (currentAuthenticator st) as [a|]; [|no_flow].
    cbn [emit fst snd].
    apply takes_app; [keeps_flow|].
    destruct (formIsValid env); cbn [negb]; [|no_flow].
    cbn [emit fst snd]. apply takes_app; [keeps_flow|].
    apply submitAndContinue_takes.
    + intros e. keeps_flow.
    + intros subs next r Hr. discriminate.
  - unfold handleAuthenticatorSelection.
    destruct (currentFlow st) as [flow|]; [|no_flow].
    cbn [emit fst snd]. apply takes_app; [destruct formData; keeps_flow|].
    destruct (isPasskeyAuthenticator P a).
    + destruct (requireChallengeData a) as [e|challenge]; [no_flow|].
      cbn [emit fst snd]. apply takes_app; [keeps_flow|]. apply passkeyRest_takes.
    + destruct (isRedirectionPrompt a).
      * unfold redirectionBranch.
        destruct (requestConfig flow) as [cfg|]; [|no_flow].
        destruct (submits env) as [|[answer|e] subs]; [no_flow | | no_flow].
        unfold handleRedirectionIfNeeded.
        destruct (flowStatus answer); destruct (redirectTarget answer) as [[a' u]|];
          try destruct (popupOpens env); no_flow.
      * destruct formData as [fd|].
        -- cbn [emit fst snd]. apply takes_app; [keeps_flow|].
           destruct (formIsValid env); cbn [negb]; [|no_flow].
           apply submitAndContinue_takes.
           ++ intros e. keeps_flow.
           ++ intros subs next r Hr. apply (chainPasskey_takes _ _ _ _ _ Hr).
        -- destruct (paramNames a); [|no_flow].
           apply submitAndContinue_takes.
           ++ intros e. keeps_flow.
           ++ intros subs next r Hr. apply (chainPasskey_takes _ _ _ _ _ Hr).
Qed.

End Choice.

(** What the render body shows once the choice of a response is on screen. *)
Lemma choice_on_screen (P : Platform) (response : FlowResponse) (step : Step) (st' : UiState) :
  nextStep response = Some step ->
  isMultiChoice step = true ->
  currentFlow st' = Some response ->
  currentAuthenticator st' = None ->
  isSignInInitializationRequestLoading st' = false ->
  render P false st'
  = ChooseOne (filter isUserPrompt (authenticators step))
      (filter (fun a => negb (includesStr HIDDEN_AUTHENTICATORS (authenticatorId a)))
         (filter (fun a => negb (isUserPrompt a)) (authenticators step)))
  /\ (forall a,
        In a (optionAuthenticators st')
        <-> In a (authenticators step) /\ isUserPrompt a = false
            /\ ~ In (authenticatorId a) HIDDEN_AUTHENTICATORS)
  /\ ((forall a, In a (authenticators step) -> isUserPrompt a = false ->
                 In (authenticatorId a) HIDDEN_AUTHENTICATORS) ->
      optionAuthenticators st' = []).
Proof.
  intros Hstep Hmulti Hf Ha Hl.
  assert (Havail : getAvailableAuthenticators st' = authenticators step).
  { unfold getAvailableAuthenticators. rewrite Hf, Hstep. reflexivity. }
  assert (Hopt : optionAuthenticators st'
                 = filter (fun a => negb (includesStr HIDDEN_AUTHENTICATORS (authenticatorId a)))
                     (filter (fun a => negb (isUserPrompt a)) (authenticators step))).
  { unfold optionAuthenticators. rewrite Havail. reflexivity. }
  split; [|split].
  - unfold render. rewrite Hl, Ha. cbn [orb]. rewrite andb_false_r.
    unfold hasMultipleOptions. rewrite Hf, Hstep, Hmulti.
    unfold userPromptAuthenticators. rewrite Havail, Hopt. reflexivity.
  - intros a. rewrite Hopt, !filter_In, !negb_true_iff.
    rewrite <- (includesStr_In HIDDEN_AUTHENTICATORS (authenticatorId a)).
    destruct (includesStr HIDDEN_AUTHENTICATORS (authenticatorId a)); intuition congruence.
  - intros Hall. rewrite Hopt. apply options_all_hidden. exact Hall.
Qed.

(** A delivered response is taken up, unless a popup is opened for it, which
    is never the case for a step with several authenticators. *)
Lemma Delivered_TakenUp (P : Platform) (response : FlowResponse) (step : Step)
      (st : UiState) (r : Run) :
  nextStep response = Some step ->
  1 < List.length (authenticators step) ->
  Delivered P response st r ->
  TakenUp P response st r.
Proof.
  intros Hstep Hlen Hdel.
  destruct Hdel as [st Hstatus | st env values flow a later Hflow Ha Hlinks Hvalid Hsub Hstatus Hid].
  - apply taken_by_initialize. exact Hstatus.
  - change (handleSubmit P st env values) with (handle P st (CallSubmit env values)).
    apply taken_by_handler. cbn [handle].
    destruct (requestConfig_some flow Hlinks) as [cfg Hcfg].
    unfold handleSubmit, submitAndContinue.
    rewrite Hflow, Ha, Hvalid, Hcfg, Hsub, Hstatus. cbn [negb].
    unfold handleRedirectionIfNeeded.
    rewrite (redirectTarget_needs_one response step Hstep Hlen).
    rewrite (continueFlow_unchained response step Hid Hstep).
    cbn. do 7 right. left. reflexivity.
Qed.

(** C5 (amended).  When a handler takes up a response whose step is a
    [MultiOptionsPrompt] with more than one authenticator (the initialisation
    effect the result of [onInitialize], [handleSubmit] and
    [handleAuthenticatorSelection] the answer to a submission that they make
    the current flow), the current authenticator is set to [null] and the
    render body shows the choice: the authenticators that take input as
    forms, whether on the deny-list or not, and as options those of the
    others that the deny-list [HIDDEN_AUTHENTICATORS] leaves, in the order of
    the step.  An authenticator whose identifier is on the deny-list is never
    among the options, and when every authenticator that is not a form is on
    the deny-list no option is shown. *)
Theorem multi_options_clear_selection_and_filter
        (P : Platform) (response : FlowResponse) (step : Step) (st : UiState) (r : Run) :
  nextStep response = Some step ->
  stepType step = MultiOptionsPrompt ->
  1 < List.length (authenticators step) ->
  TakenUp P response st r ->
  let st' := applyActions st (fst r) in
  currentAuthenticator st' = None
  /\ currentFlow st' = Some response
  /\ render P false st'
     = ChooseOne (filter isUserPrompt (authenticators step))
         (filter (fun a => negb (includesStr HIDDEN_AUTHENTICATORS (authenticatorId a)))
            (filter (fun a => negb (isUserPrompt a)) (authenticators step)))
  /\ (forall a,
        In a (optionAuthenticators st')
        <-> In a (authenticators step) /\ isUserPrompt a = false
            /\ ~ In (authenticatorId a) HIDDEN_AUTHENTICATORS)
  /\ ((forall a, In a (authenticators step) -> isUserPrompt a = false ->
                 In (authenticatorId a) HIDDEN_AUTHENTICATORS) ->
      optionAuthenticators st' = []).
Proof.
  intros Hstep Htype Hlen Htaken. cbv zeta.
  assert (Hmulti : isMultiChoice step = true).
  { unfold isMultiChoice. rewrite Htype. cbn [StepType_eqb andb]. apply Nat.ltb_lt. exact Hlen. }
  assert (Hstate : currentFlow (applyActions st (fst r)) = Some response
                   /\ currentAuthenticator (applyActions st (fst r)) = None
                   /\ isSignInInitializationRequestLoading (applyActions st (fst r)) = false).
  { destruct Htaken as [st Hstatus | st call Hin].
    - destruct (Delivered_shape P response step st _ Hstep (by_initialize P response st Hstatus))
        as [_ [[pre [u [Htarget _]]] | [pre [Hr [_ [Hflow Hauth]]]]]].
      { exfalso. apply Htarget. apply (redirectTarget_needs_one response step Hstep Hlen). }
      assert (Hsel : selectAuthenticator step = [SetCurrentAuthenticator None]).
      { unfold selectAuthenticator. rewrite Hmulti.
        destruct (authenticators step); [cbn in Hlen; lia | reflexivity]. }
      rewrite Hr, Hsel.
      destruct (selection_then_messages st pre [SetCurrentAuthenticator None] step)
        as [Hf [Ha [_ Hl]]].
      rewrite Hf, Ha, Hl. rewrite applyActions_app. cbn. rewrite Hflow.
      repeat split; reflexivity.
    - apply (handle_takes P response step Hstep Hmulti st call Hin). }
  destruct Hstate as [Hf [Ha Hl]].
  split; [exact Ha|]. split; [exact Hf|].
  apply (choice_on_screen P response step _ Hstep Hmulti Hf Ha Hl).
Qed.

Lemma multi_options_clear_selection_and_filter_witness :
  let response := responseOf InProgress
                    (Some (stepOf MultiOptionsPrompt [basic; organizationSSO])) in
  let st := showing (responseOf InProgress (Some (stepOf MultiOptionsPrompt [basic; google])))
                    None in
  let env := sampleEnv true true [] [Resolve response] in
  render samplePlatform false
    (applyActions st (fst (handleAuthenticatorSelection samplePlatform st env basic
                             (Some [("username", "u"); ("password", "p")]))))
  = ChooseOne [basic] [].
Proof.
  cbv zeta.
  refine (proj1 (proj2 (proj2
    (multi_options_clear_selection_and_filter samplePlatform
       (responseOf InProgress (Some (stepOf MultiOptionsPrompt [basic; organizationSSO])))
       (stepOf MultiOptionsPrompt [basic; organizationSSO])
       (showing (responseOf InProgress (Some (stepOf MultiOptionsPrompt [basic; google]))) None)
       _ eq_refl eq_refl _
       (taken_by_handler samplePlatform _ _
          (CallSelection
             (sampleEnv true true []
                [Resolve (responseOf InProgress
                            (Some (stepOf MultiOptionsPrompt [basic; organizationSSO])))])
             basic (Some [("username", "u"); ("password", "p")]))
          _))))).
  - cbn. lia.
  - vm_compute. repeat first [left; reflexivity | right].
Defined.

(** C5 (as stated, refuted).  The deny-list is applied to the options only.
    A step offers an authenticator whose identifier is on the deny-list and
    which takes input, and [google]: the render shows the deny-listed
    authenticator as a form, and submitting that form calls [onSubmit] for
    it.  And a step is not always taken up: when the choice of [google] is
    answered by another step with several authenticators, the redirection
    branch passes the answer to [onFlowChange] and drops it, so that the
    choice on screen is still the one of the step before. *)
Lemma deny_listed_form_is_shown_and_redirect_answer_is_dropped :
  let hidden := {| authenticatorId := "T3JnYW5pemF0aW9uQXV0aGVudGljYXRvcjpTU08";
                   idp := "LOCAL";
                   metadata := Some {| promptType := UserPrompt; params := ["organization"];
                                       challengeData := None; redirectUrl := None |};
                   requiredParams := ["organization"] |} in
  let response := responseOf InProgress (Some (stepOf MultiOptionsPrompt [hidden; google])) in
  let st := applyActions mounted (fst (initialize samplePlatform (Some (Resolve response)))) in
  let answer := responseOf InProgress (Some (stepOf MultiOptionsPrompt [basic; organizationSSO])) in
  let r := handleAuthenticatorSelection samplePlatform st
             (sampleEnv true true [] [Resolve answer]) google None in
  In (authenticatorId hidden) HIDDEN_AUTHENTICATORS
  /\ render samplePlatform false st = ChooseOne [hidden] [google]
  /\ [hidden; google]
     <> filter (fun a => negb (includesStr HIDDEN_AUTHENTICATORS (authenticatorId a)))
          [hidden; google]
  /\ count isOnSubmit
       (fst (handleAuthenticatorSelection samplePlatform st (sampleEnv true true [] [])
               hidden (Some [("organization", "acme")])))
     = 1
  /\ snd r = Returned
  /\ In (OnFlowChange answer) (fst r)
  /\ currentFlow (applyActions st (fst r)) = Some response
  /\ render samplePlatform false (applyActions st (fst r)) = ChooseOne [hidden] [google].
Proof.
  cbv zeta. repeat split; try (vm_compute; reflexivity).
  - left. reflexivity.
  - vm_compute. discriminate.
  - vm_compute. repeat first [left; reflexivity | right].
Qed.

(** ** Chained passkey steps *)

Lemma quiet_counts (tr : list Action) :
  Forall quiet tr -> count isWebAuthn tr = 0 /\ count isOnSubmit tr = 0.
Proof.
  induction 1 as [|x xs [Hw Hs] _ [IHw IHs]]; [split; reflexivity|].
  unfold count in *. cbn [filter]. rewrite Hw, Hs. split; assumption.
Qed.

Lemma quiet_setupFormFields (a : Authenticator) : Forall quiet (setupFormFields a).
Proof.
  unfold setupFormFields. constructor; [split; reflexivity|].
  induction (objectKeys (paramNames a)); constructor; [split; reflexivity | assumption].
Qed.

Lemma quiet_showMessages (step : Step) : Forall quiet (showMessages step).
Proof.
  unfold showMessages. destruct (stepMessages step); repeat constructor.
Qed.

Lemma formSetup_free_entered : count isFormSetup entered = 0.
Proof. reflexivity. Qed.


Lemma requireChallengeData_passkey (P : Platform) (a : Authenticator) :
  isPasskeyAuthenticator P a = true ->
  exists challenge, requireChallengeData a = inr challenge.
Proof.
  intros Hpk. pose proof (isPasskeyAuthenticator_challenge P a Hpk) as Hch.
  unfold challengeOf in Hch. unfold requireChallengeData.
  destruct (metadata a) as [m|]; [|discriminate].
  destruct (challengeData m) as [cd|]; [|discriminate].
  rewrite Hch. eexists. reflexivity.
Qed.















(** * Further properties *)

(** ** The popup handshake, over whole runs *)

Lemma run_cons (P : Platform) (c : Closure) (s : Coordinator) (ev : Event) (evs : list Event) :
  run P c s (ev :: evs)
  = (fst (run P c (fst (step P c s ev)) evs),
     snd (step P c s ev) ++ snd (run P c (fst (step P c s ev)) evs)).
Proof.
  cbn [run]. destruct (step P c s ev) as [s1 tr1]. cbn [fst snd].
  destruct (run P c s1 evs) as [s2 tr2]. reflexivity.
Qed.

(** One event other than a message: either nothing is submitted and a set
    latch stays set, or one payload is submitted, the latch was not set and
    is set now. *)
Lemma step_without_message (P : Platform) (c : Closure) (s : Coordinator) (ev : Event) :
  noMessage ev ->
  (count isOnSubmit (snd (step P c s ev)) = 0
   /\ (hasProcessedCallback s = true -> hasProcessedCallback (fst (step P c s ev)) = true))
  \/ (count isOnSubmit (snd (step P c s ev)) = 1
      /\ hasProcessedCallback s = false
      /\ hasProcessedCallback (fst (step P c s ev)) = true).
Proof.
  intros Hev. destruct ev as [e | href | | i o]; cbn in Hev; [contradiction | | |].
  - cbn [step]. destruct (polling s); [|left; split; [reflexivity | auto]].
    unfold popupMonitor.
    destruct (popupClosed s); [left; split; [reflexivity | auto]|].
    destruct (hasProcessedCallback s) eqn:Hlatch; [left; split; [reflexivity | auto]|].
    destruct href as [popupUrl|]; [|left; split; [reflexivity | intros H; discriminate]].
    destruct (truthyStr (Some popupUrl) && (includes "code=" popupUrl || includes "error=" popupUrl));
      [|left; split; [reflexivity | intros H; discriminate]].
    destruct (truthyStr (searchParam P popupUrl "error"));
      [left; split; [reflexivity | intros H; discriminate]|].
    destruct (searchParam P popupUrl "code") as [cd|];
      [|left; split; [reflexivity | intros H; discriminate]].
    destruct (searchParam P popupUrl "state") as [st|];
      [|left; split; [reflexivity | intros H; discriminate]].
    destruct (truthyStr (Some cd) && truthyStr (Some st));
      [|left; split; [reflexivity | intros H; discriminate]].
    destruct (requestConfig (capturedFlow c));
      [|left; split; [reflexivity | intros H; discriminate]].
    right. repeat split; reflexivity.
  - left. split; [reflexivity | auto].
  - left. cbn [step].
    destruct (nth_error (awaiting s) i) as [[|]|]; [| |split; [reflexivity | auto]].
    + destruct o; split; try reflexivity; auto.
    + destruct o as [response|e]; [|split; [reflexivity | auto]].
      split; [|auto]. cbn. destruct (flowStatus response); reflexivity.
Qed.

Lemma latched_run_submits_nothing (P : Platform) (c : Closure) (evs : list Event) :
  Forall noMessage evs ->
  forall s, hasProcessedCallback s = true ->
            count isOnSubmit (snd (run P c s evs)) = 0.
Proof.
  induction 1 as [|ev evs Hev _ IH]; intros s Hlatch; [reflexivity|].
  rewrite run_cons. cbn [snd]. rewrite count_app.
  destruct (step_without_message P c s ev Hev) as [[H0 Hkeep] | [_ [Hfalse _]]]; [|congruence].
  rewrite H0, IH; [reflexivity | apply Hkeep; exact Hlatch].
Qed.

(** X1.  Whatever the interval reads and however often it fires, and
    whatever closes or settles in between, the interval callback calls
    [onSubmit] at most once per handshake: [hasProcessedCallback] is set
    before the call and tested by every later firing.  Once the latch is set
    no firing submits. *)
Theorem poll_channel_submits_at_most_once
        (P : Platform) (c : Closure) (s : Coordinator) (evs : list Event) :
  Forall noMessage evs ->
  count isOnSubmit (snd (run P c s evs)) <= 1
  /\ (hasProcessedCallback s = true -> count isOnSubmit (snd (run P c s evs)) = 0).
Proof.
  intros Hevs. split; [|apply latched_run_submits_nothing; exact Hevs].
  revert s. induction Hevs as [|ev evs Hev Hevs IH]; intros s; [cbn; lia|].
  rewrite run_cons. cbn [snd]. rewrite count_app.
  destruct (step_without_message P c s ev Hev) as [[H0 _] | [H1 [_ Hset]]].
  - rewrite H0. apply IH.
  - rewrite H1, (latched_run_submits_nothing P c evs Hevs _ Hset). lia.
Qed.

Lemma poll_channel_submits_at_most_once_witness :
  count isOnSubmit
    (snd (run samplePlatform sampleClosure begin
            [Tick None; Tick (Some callbackUrl); Tick (Some callbackUrl);
             Settled 0 (Resolve (responseOf InProgress None)); Tick (Some callbackUrl)]))
  <= 1.
Proof.
  apply (proj1 (poll_channel_submits_at_most_once samplePlatform sampleClosure begin
                  [Tick None; Tick (Some callbackUrl); Tick (Some callbackUrl);
                   Settled 0 (Resolve (responseOf InProgress None)); Tick (Some callbackUrl)]
                  ltac:(repeat constructor))).
Defined.

Lemma step_handshakeAction (P : Platform) (c : Closure) (s : Coordinator) (ev : Event) :
  Forall (handshakeAction c) (snd (step P c s ev)).
Proof.
  destruct ev as [e | href | | i o]; cbn [step].
  - destruct (listening s); [|constructor]. unfold messageEventHandler.
    destruct (negb (isPopup (source e))); [constructor|].
    destruct (expectedOrigin P c) as [eo|]; [|constructor].
    destruct (negb (origin e =? eo) && negb (origin e =? locationOrigin P)); [constructor|].
    destruct (getProp (data e) "code") as [code|]; [|constructor].
    destruct (getProp (data e) "state") as [state|]; [|constructor].
    destruct (truthy code && truthy state) eqn:Htruthy; [|constructor].
    destruct (requestConfig (capturedFlow c)) as [cfg|] eqn:Hcfg; [|constructor].
    apply andb_prop in Htruthy. destruct Htruthy as [Hc Hs].
    constructor; [|constructor]. cbn.
    split; [reflexivity|]. split; [reflexivity|]. split; [exact Hcfg|].
    exists code, state. split; [reflexivity|]. split; assumption.
  - destruct (polling s); [|constructor]. unfold popupMonitor.
    destruct (popupClosed s); [repeat constructor|].
    destruct (hasProcessedCallback s); [constructor|].
    destruct href as [popupUrl|]; [|constructor].
    destruct (truthyStr (Some popupUrl) && (includes "code=" popupUrl || includes "error=" popupUrl));
      [|constructor].
    destruct (truthyStr (searchParam P popupUrl "error")); [repeat constructor|].
    destruct (searchParam P popupUrl "code") as [cd|]; [|constructor].
    destruct (searchParam P popupUrl "state") as [st|]; [|constructor].
    destruct (truthyStr (Some cd) && truthyStr (Some st)) eqn:Htruthy; [|constructor].
    destruct (requestConfig (capturedFlow c)) as [cfg|] eqn:Hcfg; [|constructor].
    apply andb_prop in Htruthy. destruct Htruthy as [Hc Hs].
    constructor; [|constructor]. cbn.
    split; [reflexivity|]. split; [reflexivity|]. split; [exact Hcfg|].
    exists (JStr cd), (JStr st). split; [reflexivity|]. split; assumption.
  - constructor.
  - destruct (nth_error (awaiting s) i) as [[|]|]; [| |constructor].
    + destruct o; repeat constructor.
    + destruct o as [response|e]; [|constructor].
      cbn. destruct (flowStatus response); repeat constructor.
Qed.

Lemma run_handshakeAction (P : Platform) (c : Closure) (evs : list Event) :
  forall s, Forall (handshakeAction c) (snd (run P c s evs)).
Proof.
  induction evs as [|ev evs IH]; intros s; [constructor|].
  rewrite run_cons. cbn [snd]. apply Forall_app. split; [apply step_handshakeAction | apply IH].
Qed.

(** X2.  In every run of the handshake, from any state, each call of
    [onSubmit] carries the flow id of the flow the popup was opened for, the
    identifier of the authenticator of that step, the method and address of
    the first link of that flow, and exactly the two parameters [code] and
    [state], both truthy. *)
Theorem handshake_submits_for_the_captured_flow
        (P : Platform) (c : Closure) (s : Coordinator) (evs : list Event)
        (p : Payload) (cfg : RequestConfig) :
  In (OnSubmit p cfg) (snd (run P c s evs)) ->
  payloadFlowId p = flowId (capturedFlow c)
  /\ selectedAuthenticatorId p = authenticatorId (responseAuthenticator c)
  /\ requestConfig (capturedFlow c) = Some cfg
  /\ exists code state,
       payloadParams p = [("code", code); ("state", state)]
       /\ truthy code = true /\ truthy state = true.
Proof.
  intros Hin.
  pose proof (run_handshakeAction P c evs s) as Hall.
  rewrite Forall_forall in Hall. exact (Hall _ Hin).
Qed.

Lemma handshake_submits_for_the_captured_flow_witness :
  payloadFlowId (redirectPayload sampleClosure (JStr "abc") (JStr "xyz")) = Some "flow-1".
Proof.
  refine (proj1 (handshake_submits_for_the_captured_flow samplePlatform sampleClosure begin
                   [Message callbackMessage]
                   (redirectPayload sampleClosure (JStr "abc") (JStr "xyz"))
                   {| method := "POST"; url := "https://idp/authn" |} _)).
  vm_compute. left. reflexivity.
Defined.

(** X3.  The latch is set by the substring test, before the address is
    parsed.  A readable address that contains [code=] or [error=] but gives
    neither an [error] parameter nor both [code] and [state] sets the latch
    and does nothing else; after that no interval firing does anything while
    the popup is open, whatever address it reads. *)
Theorem marker_without_result_stops_polling
        (P : Platform) (c : Closure) (s : Coordinator) (href : string) :
  polling s = true ->
  popupClosed s = false ->
  hasProcessedCallback s = false ->
  href <> "" ->
  includes "code=" href || includes "error=" href = true ->
  truthyStr (searchParam P href "error") = false ->
  truthyStr (searchParam P href "code") && truthyStr (searchParam P href "state") = false ->
  step P c s (Tick (Some href)) = (withLatch s, [])
  /\ forall later ticks,
       Forall (fun ev => exists h, ev = Tick h) ticks ->
       run P c (withLatch s) (Tick later :: ticks) = (withLatch s, []).
Proof.
  intros Hp Hc Hl Hne Hinc Herr Hcs. split.
  - cbn [step]. rewrite Hp. unfold popupMonitor. rewrite Hc, Hl.
    cbn [truthyStr]. rewrite (eqb_false_of_neq _ _ Hne). cbn [negb andb].
    rewrite Hinc, Herr.
    destruct (searchParam P href "code") as [cd|]; [|reflexivity].
    destruct (searchParam P href "state") as [st|]; [|reflexivity].
    rewrite Hcs. reflexivity.
  - assert (Hidle : forall h, step P c (withLatch s) (Tick h) = (withLatch s, [])).
    { intros h.
      assert (Hp' : polling (withLatch s) = true) by exact Hp.
      assert (Hc' : popupClosed (withLatch s) = false) by exact Hc.
      assert (Hl' : hasProcessedCallback (withLatch s) = true) by reflexivity.
      cbn [step]. rewrite Hp'. unfold popupMonitor. rewrite Hc', Hl'. reflexivity. }
    intros later ticks Hticks.
    assert (Hall : Forall (fun ev => exists h, ev = Tick h) (Tick later :: ticks))
      by (constructor; [exists later; reflexivity | exact Hticks]).
    clear Hticks. induction Hall as [|ev evs [h ->] _ IH]; [reflexivity|].
    rewrite run_cons, Hidle. cbn [fst snd]. rewrite IH. reflexivity.
Qed.

Lemma marker_without_result_stops_polling_witness :
  run samplePlatform sampleClosure begin
    [Tick (Some "https://app/cb?code=abc"); Tick (Some callbackUrl)]
  = (withLatch begin, []).
Proof.
  destruct (marker_without_result_stops_polling samplePlatform sampleClosure begin
              "https://app/cb?code=abc" eq_refl eq_refl eq_refl
              ltac:(discriminate) eq_refl eq_refl eq_refl) as [Hfirst Hlater].
  rewrite run_cons, Hfirst. cbn [fst snd].
  rewrite (Hlater (Some callbackUrl) [] (Forall_nil _)). reflexivity.
Defined.

(** X4.  While the popup is open, interval firings that cannot read its
    address (the cross-origin read throws), or read an address without
    [code=] and [error=], change nothing and cause no effect, however many
    there are. *)
Theorem idle_ticks_change_nothing
        (P : Platform) (c : Closure) (s : Coordinator) (evs : list Event) :
  popupClosed s = false ->
  Forall idleTick evs ->
  run P c s evs = (s, []).
Proof.
  intros Hopen Hevs. induction Hevs as [|ev evs Hev _ IH]; [reflexivity|].
  assert (Hstep : step P c s ev = (s, [])).
  { destruct ev as [e | [href|] | | i o]; unfold idleTick in Hev; try contradiction;
      cbn [step]; destruct (polling s); try reflexivity;
      unfold popupMonitor; rewrite Hopen; destruct (hasProcessedCallback s); try reflexivity.
    rewrite Hev. reflexivity. }
  rewrite run_cons, Hstep. cbn [fst snd]. rewrite IH. reflexivity.
Qed.

Lemma idle_ticks_change_nothing_witness :
  run samplePlatform sampleClosure begin
    [Tick None; Tick (Some "https://idp/login?client=app"); Tick None]
  = (begin, []).
Proof.
  apply idle_ticks_change_nothing; [reflexivity|].
  repeat constructor.
Defined.

Lemma handshakeAction_keeps_state (c : Closure) (tr : list Action) :
  Forall (handshakeAction c) tr ->
  forall st, applyActions st tr = st /\ count isOnError tr = 0.
Proof.
  induction 1 as [|x xs Hx _ IH]; intros st; [split; reflexivity|].
  rewrite applyActions_cons. unfold count. cbn [filter].
  destruct x; cbn in Hx; try contradiction; cbn [applyAction isOnError]; apply IH.
Qed.

(** X5.  The callbacks of the handshake set no React state and never call
    [onError]: after any run, the flow, the authenticator, the error and the
    messages of the component are what they were.  A response obtained
    through the popup reaches the caller only through [onFlowChange] and
    [onSuccess]; a rejected submission reaches nobody. *)
Theorem handshake_leaves_the_component_state
        (P : Platform) (c : Closure) (s : Coordinator) (evs : list Event) (st : UiState) :
  applyActions st (snd (run P c s evs)) = st
  /\ count isOnError (snd (run P c s evs)) = 0
  /\ forall i e, snd (step P c s (Settled i (Reject e))) = [].
Proof.
  destruct (handshakeAction_keeps_state c _ (run_handshakeAction P c evs s) st) as [Hst Herr].
  split; [exact Hst|]. split; [exact Herr|].
  intros i e. cbn [step].
  destruct (nth_error (awaiting s) i) as [[|]|]; reflexivity.
Qed.

(** ** The handlers, over every outcome *)

Lemma submitsFor_quiet (flow : FlowResponse) (tr : list Action) :
  Forall quiet tr -> Forall (submitsFor flow) tr.
Proof.
  intros H. eapply Forall_impl; [|exact H].
  intros a [_ Hs]. destruct a; cbn in Hs |- *; try exact I. discriminate.
Qed.

Ltac quiet_list := solve [repeat (apply Forall_cons; [split; reflexivity|]); apply Forall_nil].

Lemma quiet_redirection (opens : bool) (response : FlowResponse) :
  Forall quiet (snd (handleRedirectionIfNeeded opens response)).
Proof.
  unfold handleRedirectionIfNeeded.
  destruct (redirectTarget response) as [[a u]|]; [destruct opens|]; cbn; quiet_list.
Qed.

Ltac submits_for :=
  cbn [fst snd done emit app];
  repeat first
    [ apply Forall_nil
    | apply Forall_app; split
    | apply submitsFor_quiet;
      first [ apply quiet_setupFormFields | apply quiet_showMessages
            | apply quiet_redirection | quiet_list ]
    | apply Forall_cons; [solve [exact I | cbn; split; [reflexivity | assumption]] |] ].

Lemma continueFlow_submitsFor (flow : FlowResponse)
      (chain : Authenticator -> option Run) (response : FlowResponse) :
  (forall next r, chain next = Some r -> Forall (submitsFor flow) (fst r)) ->
  Forall (submitsFor flow) (fst (continueFlow chain response)).
Proof.
  intros Hchain. unfold continueFlow.
  destruct (flowId response); [|submits_for].
  destruct (nextStep response) as [step|]; [|submits_for].
  destruct (authenticators step) as [|next rest]; [submits_for|].
  destruct (isMultiChoice step); [submits_for|].
  destruct (chain next) as [r|] eqn:Hc; [|submits_for].
  cbn. constructor; [exact I|]. apply (Hchain next r Hc).
Qed.

Lemma chainInto_submitsFor (P : Platform) (flow : FlowResponse) (rest : Run)
      (next : Authenticator) :
  Forall (submitsFor flow) (fst rest) ->
  Forall (submitsFor flow) (fst (chainInto P rest next)).
Proof.
  intros H. unfold chainInto. destruct (requireChallengeData next); cbn.
  - submits_for.
  - repeat (constructor; [exact I|]). exact H.
Qed.

Lemma passkeyRest_submitsFor (P : Platform) (flow : FlowResponse) :
  forall subs a cers, Forall (submitsFor flow) (fst (passkeyRest P flow a cers subs)).
Proof.
  induction subs as [|sub subs IH]; intros a cers.
  - destruct cers as [|[token|e] cers']; cbn [passkeyRest]; [submits_for | | submits_for].
    destruct (requestConfig flow) as [cfg|] eqn:Hcfg; submits_for.
  - destruct cers as [|[token|e] cers']; cbn [passkeyRest]; [submits_for | | submits_for].
    destruct (requestConfig flow) as [cfg|] eqn:Hcfg; [|submits_for].
    destruct sub as [response|e]; [|submits_for].
    cbn [emit fst snd app].
    constructor; [cbn; split; [reflexivity | assumption]|]. constructor; [exact I|].
    destruct (flowStatus response); try submits_for.
    apply continueFlow_submitsFor.
    intros next r Hr.
    destruct (isPasskeyAuthenticator P next); [|discriminate].
    injection Hr as <-. apply chainInto_submitsFor. apply IH.
Qed.

Lemma submitAndContinue_submitsFor (P : Platform) (onThrow : Thrown -> list Action)
      (failure : string)
      (chain : list (Outcome FlowResponse) -> Authenticator -> option Run)
      (flow : FlowResponse) (a : Authenticator) (ps : list (string * JsVal)) (env : Env) :
  (forall e, Forall quiet (onThrow e)) ->
  (forall subs next r, chain subs next = Some r -> Forall (submitsFor flow) (fst r)) ->
  Forall (submitsFor flow) (fst (submitAndContinue P onThrow failure chain flow a ps env)).
Proof.
  intros Hthrow Hchain. unfold submitAndContinue.
  destruct (requestConfig flow) as [cfg|] eqn:Hcfg;
    [|submits_for; apply submitsFor_quiet; apply Hthrow].
  destruct (submits env) as [|[response|e] subs];
    [submits_for | | submits_for; apply submitsFor_quiet; apply Hthrow].
  cbn [emit fst snd app].
  constructor; [cbn; split; [reflexivity | assumption]|]. constructor; [exact I|].
  destruct (flowStatus response); try submits_for.
  pose proof (quiet_redirection (popupOpens env) response) as Hq.
  destruct (handleRedirectionIfNeeded (popupOpens env) response) as [opened acts].
  cbn [snd] in Hq. destruct opened.
  - cbn [done fst]. apply Forall_app. split; [apply submitsFor_quiet; exact Hq | submits_for].
  - cbn [emit fst]. apply Forall_app. split; [apply submitsFor_quiet; exact Hq|].
    apply continueFlow_submitsFor. intros next r Hr. apply (Hchain _ _ _ Hr).
Qed.

Lemma chainPasskey_submitsFor (P : Platform) (flow : FlowResponse) (cers : list (Outcome string))
      (subs : list (Outcome FlowResponse)) (next : Authenticator) (r : Run) :
  chainPasskey P flow cers subs next = Some r -> Forall (submitsFor flow) (fst r).
Proof.
  unfold chainPasskey. destruct (isPasskeyAuthenticator P next); [|discriminate].
  intros Hr. injection Hr as <-. apply chainInto_submitsFor. apply passkeyRest_submitsFor.
Qed.

Lemma handle_submitsFor (P : Platform) (st : UiState) (call : Call) (flow : FlowResponse) :
  currentFlow st = Some flow ->
  Forall (submitsFor flow) (fst (handle P st call)).
Proof.
  intros Hflow. destruct call as [env values | env a formData]; cbn [handle].
  - unfold handleSubmit. rewrite Hflow.
    destruct (currentAuthenticator st) as [a|]; [|submits_for].
    cbn [emit fst snd app]. constructor; [exact I|]. constructor; [exact I|].
    destruct (formIsValid env); cbn [negb]; [|submits_for].
    cbn [emit fst snd]. apply Forall_app. split; [submits_for|].
    apply submitAndContinue_submitsFor.
    + intros e. unfold submitCatch. quiet_list.
    + intros subs next r Hr. discriminate.
  - unfold handleAuthenticatorSelection. rewrite Hflow.
    cbn [emit fst snd]. apply Forall_app. split; [destruct formData; submits_for|].
    destruct (isPasskeyAuthenticator P a).
    + destruct (requireChallengeData a); [submits_for|].
      cbn [emit fst snd app]. constructor; [exact I|]. apply passkeyRest_submitsFor.
    + destruct (isRedirectionPrompt a).
      * unfold redirectionBranch.
        destruct (requestConfig flow) as [cfg|] eqn:Hcfg; [|submits_for].
        destruct (submits env) as [|[response|e] subs]; [submits_for | | submits_for].
        cbn [emit fst snd app].
        constructor; [cbn; split; [reflexivity | assumption]|]. constructor; [exact I|].
        destruct (flowStatus response); submits_for.
      * destruct formData as [fd|].
        -- cbn [emit fst snd app]. constructor; [exact I|].
           destruct (formIsValid env); cbn [negb]; [|submits_for].
           apply submitAndContinue_submitsFor.
           ++ intros e. unfold selectionCatch. quiet_list.
           ++ intros subs next r Hr. apply (chainPasskey_submitsFor _ _ _ _ _ _ Hr).
        -- destruct (paramNames a); [|submits_for].
           apply submitAndContinue_submitsFor.
           ++ intros e. unfold selectionCatch. quiet_list.
           ++ intros subs next r Hr. apply (chainPasskey_submitsFor _ _ _ _ _ _ Hr).
Qed.

(** X6.  Every call of [onSubmit] made by one call of [handleSubmit] or of
    [handleAuthenticatorSelection], the chained passkey submissions included,
    carries the flow id of the flow the handler was closed over and goes to
    the first link of that flow, also after [setCurrentFlow] has been called
    with a later response; a handler closed over no flow submits nothing. *)
Theorem handler_submits_to_the_captured_flow
        (P : Platform) (st : UiState) (call : Call) (p : Payload) (cfg : RequestConfig) :
  In (OnSubmit p cfg) (fst (handle P st call)) ->
  exists flow,
    currentFlow st = Some flow
    /\ payloadFlowId p = flowId flow
    /\ requestConfig flow = Some cfg.
Proof.
  intros Hin. destruct (currentFlow st) as [flow|] eqn:Hflow.
  - exists flow. split; [reflexivity|].
    pose proof (handle_submitsFor P st call flow Hflow) as Hall.
    rewrite Forall_forall in Hall. exact (Hall _ Hin).
  - exfalso. destruct call as [env values | env a formData]; cbn [handle] in Hin.
    + unfold handleSubmit in Hin. rewrite Hflow in Hin. exact Hin.
    + unfold handleAuthenticatorSelection in Hin. rewrite Hflow in Hin. exact Hin.
Qed.

Lemma handler_submits_to_the_captured_flow_witness :
  let first := passkey "challenge-1" in
  let shown := responseOf InProgress (Some (stepOf AuthenticatorPrompt [first])) in
  let next := {| flowId := Some "flow-2"; flowStatus := InProgress;
                 links := [{| linkMethod := "POST"; linkHref := "https://idp/other" |}];
                 nextStep := Some (stepOf AuthenticatorPrompt [passkey "challenge-2"]);
                 authData := None |} in
  let env := sampleEnv true true [Resolve "assertion-1"; Resolve "assertion-2"]
               [Resolve next; Resolve (responseOf SuccessCompleted None)] in
  exists flow,
    Some shown = Some flow
    /\ Some "flow-1" = flowId flow
    /\ requestConfig flow = Some {| method := "POST"; url := "https://idp/authn" |}.
Proof.
  cbv zeta.
  refine (handler_submits_to_the_captured_flow samplePlatform
            (showing (responseOf InProgress (Some (stepOf AuthenticatorPrompt [passkey "challenge-1"])))
                     (Some (passkey "challenge-1")))
            (CallSelection
               (sampleEnv true true [Resolve "assertion-1"; Resolve "assertion-2"]
                  [Resolve {| flowId := Some "flow-2"; flowStatus := InProgress;
                              links := [{| linkMethod := "POST"; linkHref := "https://idp/other" |}];
                              nextStep := Some (stepOf AuthenticatorPrompt [passkey "challenge-2"]);
                              authData := None |};
                   Resolve (responseOf SuccessCompleted None)])
               (passkey "challenge-1") None)
            (payloadOf (responseOf InProgress (Some (stepOf AuthenticatorPrompt [passkey "challenge-1"])))
                       (passkey "challenge-2") [("tokenResponse", JStr "assertion-2")])
            {| method := "POST"; url := "https://idp/authn" |} _).
  vm_compute. do 12 right. left. reflexivity.
Defined.

Lemma passkeyEffect_setter (flow : FlowResponse) (tr : list Action) :
  Forall (fun a => isSetter a = true) tr -> Forall (passkeyEffect flow) tr.
Proof.
  intros H. eapply Forall_impl; [|exact H].
  intros a Ha. destruct a; cbn in Ha |- *; try exact I; discriminate.
Qed.

Lemma setter_setupFormFields (a : Authenticator) :
  Forall (fun x => isSetter x = true) (setupFormFields a).
Proof.
  unfold setupFormFields. constructor; [reflexivity|].
  induction (objectKeys (paramNames a)); constructor; [reflexivity | assumption].
Qed.

Lemma setter_showMessages (step : Step) :
  Forall (fun x => isSetter x = true) (showMessages step).
Proof. unfold showMessages. destruct (stepMessages step); repeat constructor. Qed.

Ltac passkey_effects :=
  cbn [fst snd done emit app];
  repeat first
    [ apply Forall_nil
    | apply Forall_app; split
    | apply passkeyEffect_setter;
      first [ apply setter_setupFormFields | apply setter_showMessages
            | solve [repeat (apply Forall_cons; [reflexivity|]); apply Forall_nil] ]
    | apply Forall_cons; [solve [exact I] |] ].

Lemma passkeyRest_effects (P : Platform) (flow : FlowResponse) :
  forall subs a cers, Forall (passkeyEffect flow) (fst (passkeyRest P flow a cers subs)).
Proof.
  assert (Hsubmit : forall cfg a token,
             requestConfig flow = Some cfg ->
             passkeyEffect flow
               (OnSubmit (payloadOf flow a [("tokenResponse", JStr token)]) cfg)).
  { intros cfg a token Hcfg. cbn. split; [reflexivity|]. split; [exact Hcfg|].
    exists token. reflexivity. }
  induction subs as [|sub subs IH]; intros a cers.
  - destruct cers as [|[token|e] cers']; cbn [passkeyRest];
      [passkey_effects | | unfold passkeyCatch; passkey_effects].
    destruct (requestConfig flow) as [cfg|] eqn:Hcfg;
      [|unfold passkeyCatch; passkey_effects].
    cbn [emit fst snd app]. constructor; [apply Hsubmit; reflexivity | constructor].
  - destruct cers as [|[token|e] cers']; cbn [passkeyRest];
      [passkey_effects | | unfold passkeyCatch; passkey_effects].
    destruct (requestConfig flow) as [cfg|] eqn:Hcfg;
      [|unfold passkeyCatch; passkey_effects].
    destruct sub as [response|e]; cbn [emit fst snd app];
      (constructor; [apply Hsubmit; reflexivity|]);
      [|unfold passkeyCatch; passkey_effects].
    constructor; [exact I|].
    destruct (flowStatus response); try passkey_effects.
    unfold continueFlow.
    destruct (flowId response); [|passkey_effects].
    destruct (nextStep response) as [step|]; [|passkey_effects].
    destruct (authenticators step) as [|next rest]; [passkey_effects|].
    destruct (isMultiChoice step); [passkey_effects|].
    destruct (isPasskeyAuthenticator P next); [|passkey_effects].
    cbn [emit fst snd app]. constructor; [exact I|].
    unfold chainInto. destruct (requireChallengeData next) as [e|challenge].
    + unfold passkeyCatch. passkey_effects.
    + cbn [emit fst snd]. apply Forall_app. split; [passkey_effects | apply IH].
Qed.

Lemma passkeyEffect_counts (flow : FlowResponse) (tr : list Action) :
  Forall (passkeyEffect flow) tr ->
  count isOnError tr = 0 /\ count isWindowOpen tr = 0.
Proof.
  induction 1 as [|x xs Hx _ [IHe IHw]]; [split; reflexivity|].
  unfold count in *. cbn [filter].
  destruct x; cbn in Hx; try contradiction; cbn [isOnError isWindowOpen]; split; assumption.
Qed.

(** X7.  When [handleAuthenticatorSelection] is called on a passkey
    authenticator, whatever the ceremonies and submissions settle to (a
    ceremony that fails, a submission that is rejected, a flow without
    links), [onError] is never called and no popup is opened: failures are
    shown through [setError] only, and a redirection authenticator offered
    after a passkey is not handed to the popup handshake.  Every payload sent
    holds the single parameter [tokenResponse]. *)
Theorem passkey_branch_never_calls_onError
        (P : Platform) (st : UiState) (env : Env) (a : Authenticator)
        (formData : option (list (string * string))) :
  isPasskeyAuthenticator P a = true ->
  let tr := fst (handleAuthenticatorSelection P st env a formData) in
  count isOnError tr = 0
  /\ count isWindowOpen tr = 0
  /\ forall p cfg, In (OnSubmit p cfg) tr ->
                   exists token, payloadParams p = [("tokenResponse", JStr token)].
Proof.
  intros Hpk. cbv zeta.
  unfold handleAuthenticatorSelection.
  destruct (currentFlow st) as [flow|]; [|cbn; repeat split; intros p cfg []].
  rewrite Hpk.
  assert (Hall : Forall (passkeyEffect flow)
                   (fst (emit (match formData with Some _ => [TouchAllFields] | None => [] end
                               ++ entered)
                           match requireChallengeData a with
                           | inl e => done (passkeyCatch P e ++ loadingOff)
                           | inr challenge =>
                               emit [HandleWebAuthnAuthentication challenge]
                                 (passkeyRest P flow a (ceremonies env) (submits env))
                           end))).
  { cbn [emit fst snd]. apply Forall_app. split; [destruct formData; passkey_effects|].
    destruct (requireChallengeData a); [unfold passkeyCatch; passkey_effects|].
    cbn [emit fst snd app]. constructor; [exact I|]. apply passkeyRest_effects. }
  destruct (passkeyEffect_counts flow _ Hall) as [He Hw].
  split; [exact He|]. split; [exact Hw|].
  intros p cfg Hin. rewrite Forall_forall in Hall.
  destruct (Hall _ Hin) as [_ [_ Htoken]]. exact Htoken.
Qed.

Lemma passkey_branch_never_calls_onError_witness :
  let key := passkey "challenge-1" in
  let st := showing (responseOf InProgress (Some (stepOf AuthenticatorPrompt [key]))) (Some key) in
  let env := sampleEnv true true [Resolve "assertion-1"] [Reject (ApiError "denied")] in
  count isOnError (fst (handleAuthenticatorSelection samplePlatform st env key None)) = 0
  /\ error (applyActions st (fst (handleAuthenticatorSelection samplePlatform st env key None)))
     = Some "denied".
Proof.
  cbv zeta. split; [|vm_compute; reflexivity].
  apply (passkey_branch_never_calls_onError samplePlatform
           (showing (responseOf InProgress (Some (stepOf AuthenticatorPrompt [passkey "challenge-1"])))
                    (Some (passkey "challenge-1")))
           (sampleEnv true true [Resolve "assertion-1"] [Reject (ApiError "denied")])
           (passkey "challenge-1") None eq_refl).
Defined.

(** X8.  When the submission of [handleSubmit] fails, either because the
    current flow has no link (the request cannot be built and [onSubmit] is
    not called) or because [onSubmit] rejects, the handler shows the message
    of an [AsgardeoAPIError] or else the translated generic text, calls
    [onError] once with what was thrown, turns the loading flag off and
    leaves the flow and the authenticator on screen as they were. *)
Theorem failed_submission_is_reported
        (P : Platform) (st : UiState) (env : Env) (values : list (string * string))
        (flow : FlowResponse) (a : Authenticator) (e : Thrown) :
  currentFlow st = Some flow ->
  currentAuthenticator st = Some a ->
  formIsValid env = true ->
  (links flow = [] /\ e = PlainError (typeErrorMessage P))
  \/ (links flow <> [] /\ exists later, submits env = Reject e :: later) ->
  let r := handleSubmit P st env values in
  let st' := applyActions st (fst r) in
  snd r = Returned
  /\ count isOnError (fst r) = 1
  /\ In (OnError e) (fst r)
  /\ count isOnSubmit (fst r) = match links flow with [] => 0 | _ => 1 end
  /\ error st' = Some match e with
                      | ApiError m => m
                      | _ => translate P "errors.sign.in.flow.failure"
                      end
  /\ currentFlow st' = Some flow
  /\ currentAuthenticator st' = Some a
  /\ isSignInInitializationRequestLoading st' = false.
Proof.
  intros Hflow Ha Hvalid Hcase. cbv zeta.
  unfold handleSubmit, submitAndContinue, requestConfig. rewrite Hflow, Ha, Hvalid.
  destruct Hcase as [[Hlinks ->] | [Hlinks [later Hsub]]].
  - rewrite Hlinks. cbn. repeat split; try assumption. right. right. right. right. right. right. left. reflexivity.
  - destruct (links flow) as [|l rest]; [congruence|]. rewrite Hsub. cbn.
    repeat split; try assumption. do 7 right. left. reflexivity.
Qed.

Lemma failed_submission_is_reported_witness :
  let st := showing (responseOf InProgress (Some (stepOf AuthenticatorPrompt [basic])))
                    (Some basic) in
  let env := sampleEnv true true [] [Reject (ApiError "invalid credentials")] in
  error (applyActions st (fst (handleSubmit samplePlatform st env [("username", "u")])))
  = Some "invalid credentials".
Proof.
  cbv zeta.
  refine (proj1 (proj2 (proj2 (proj2 (proj2
    (failed_submission_is_reported samplePlatform
       (showing (responseOf InProgress (Some (stepOf AuthenticatorPrompt [basic]))) (Some basic))
       (sampleEnv true true [] [Reject (ApiError "invalid credentials")])
       [("username", "u")]
       (responseOf InProgress (Some (stepOf AuthenticatorPrompt [basic]))) basic
       (ApiError "invalid credentials") eq_refl eq_refl eq_refl _)))))).
  right. split; [cbn; discriminate | exists []; reflexivity].
Defined.

Lemma endsLoadingOff_done (tr : list Action) : endsLoadingOff (done (tr ++ loadingOff)).
Proof. intros _ st. apply loading_after_loadingOff. Qed.

Lemma endsLoadingOff_emit (tr : list Action) (r : Run) :
  endsLoadingOff r -> endsLoadingOff (emit tr r).
Proof.
  intros Hr Hret st. unfold emit in *. cbn [fst snd] in *.
  rewrite applyActions_app. apply Hr. exact Hret.
Qed.

Lemma endsLoadingOff_suspended (tr : list Action) : endsLoadingOff (tr, Suspended).
Proof. intros Hret. discriminate. Qed.

Ltac by_finally Hret :=
  match goal with
  | |- isSignInInitializationRequestLoading (applyActions _ (fst ?r)) = false =>
      cut (endsLoadingOff r); [intros Hfinally; apply Hfinally; exact Hret|]
  end.

Ltac ends_off :=
  first
    [ apply endsLoadingOff_suspended
    | solve [let s := fresh "st" in
             intros _ s; cbn [fst snd done];
             repeat (rewrite applyActions_cons || rewrite applyActions_app); reflexivity] ].

Lemma continueFlow_endsLoadingOff (chain : Authenticator -> option Run)
      (response : FlowResponse) :
  (forall next r, chain next = Some r -> endsLoadingOff r) ->
  endsLoadingOff (continueFlow chain response).
Proof.
  intros Hchain. unfold continueFlow.
  destruct (flowId response); [|ends_off].
  destruct (nextStep response) as [step|]; [|ends_off].
  destruct (authenticators step) as [|next rest]; [ends_off|].
  destruct (isMultiChoice step); [ends_off|].
  destruct (chain next) as [r|] eqn:Hc; [|ends_off].
  apply endsLoadingOff_emit. apply (Hchain next r Hc).
Qed.

Lemma chainInto_endsLoadingOff (P : Platform) (rest : Run) (next : Authenticator) :
  endsLoadingOff rest -> endsLoadingOff (chainInto P rest next).
Proof.
  intros H. unfold chainInto. destruct (requireChallengeData next).
  - unfold passkeyCatch. ends_off.
  - apply endsLoadingOff_emit. exact H.
Qed.

Lemma passkeyRest_endsLoadingOff (P : Platform) (flow : FlowResponse) :
  forall subs a cers, endsLoadingOff (passkeyRest P flow a cers subs).
Proof.
  induction subs as [|sub subs IH]; intros a cers.
  - destruct cers as [|[token|e] cers']; cbn [passkeyRest];
      [ends_off | | unfold passkeyCatch; ends_off].
    destruct (requestConfig flow) as [cfg|]; [|unfold passkeyCatch; ends_off].
    apply endsLoadingOff_emit. ends_off.
  - destruct cers as [|[token|e] cers']; cbn [passkeyRest];
      [ends_off | | unfold passkeyCatch; ends_off].
    destruct (requestConfig flow) as [cfg|]; [|unfold passkeyCatch; ends_off].
    apply endsLoadingOff_emit.
    destruct sub as [response|e]; [|unfold passkeyCatch; ends_off].
    apply endsLoadingOff_emit.
    destruct (flowStatus response); try ends_off.
    apply continueFlow_endsLoadingOff. intros next r Hr.
    destruct (isPasskeyAuthenticator P next); [|discriminate].
    injection Hr as <-. apply chainInto_endsLoadingOff. apply IH.
Qed.

Lemma submitAndContinue_endsLoadingOff (P : Platform) (onThrow : Thrown -> list Action)
      (failure : string)
      (chain : list (Outcome FlowResponse) -> Authenticator -> option Run)
      (flow : FlowResponse) (a : Authenticator) (ps : list (string * JsVal)) (env : Env) :
  (forall subs next r, chain subs next = Some r -> endsLoadingOff r) ->
  endsLoadingOff (submitAndContinue P onThrow failure chain flow a ps env).
Proof.
  intros Hchain. unfold submitAndContinue.
  destruct (requestConfig flow) as [cfg|]; [|apply endsLoadingOff_done].
  apply endsLoadingOff_emit.
  destruct (submits env) as [|[response|e] subs];
    [ends_off | | apply endsLoadingOff_done].
  apply endsLoadingOff_emit.
  destruct (flowStatus response); try ends_off.
  destruct (handleRedirectionIfNeeded (popupOpens env) response) as [opened acts].
  destruct opened; [apply endsLoadingOff_done|].
  apply endsLoadingOff_emit. apply continueFlow_endsLoadingOff.
  intros next r Hr. apply (Hchain _ _ _ Hr).
Qed.

Lemma chainPasskey_endsLoadingOff (P : Platform) (flow : FlowResponse)
      (cers : list (Outcome string)) (subs : list (Outcome FlowResponse))
      (next : Authenticator) (r : Run) :
  chainPasskey P flow cers subs next = Some r -> endsLoadingOff r.
Proof.
  unfold chainPasskey. destruct (isPasskeyAuthenticator P next); [|discriminate].
  intros Hr. injection Hr as <-. apply chainInto_endsLoadingOff.
  apply passkeyRest_endsLoadingOff.
Qed.

(** X9.  A call of [handleSubmit] or of [handleAuthenticatorSelection] that
    returns, on whatever path (success, failure response, rejection, popup,
    next step, chained passkey steps), either has returned before touching
    the state (no flow or authenticator, invalid form) or leaves the loading
    flag off; so does the initialisation effect once [onInitialize] has
    settled. *)
Theorem returned_handler_turns_loading_off (P : Platform) (st : UiState) :
  (forall call,
      snd (handle P st call) = Returned ->
      applyActions st (fst (handle P st call)) = st
      \/ isSignInInitializationRequestLoading (applyActions st (fst (handle P st call))) = false)
  /\ (forall o,
        snd (initialize P o) = Returned ->
        isSignInInitializationRequestLoading (applyActions st (fst (initialize P o))) = false).
Proof.
  split.
  - intros call Hret. destruct call as [env values | env a formData]; cbn [handle] in *.
    + unfold handleSubmit in *.
      destruct (currentFlow st) as [flow|]; [|left; reflexivity].
      destruct (currentAuthenticator st) as [a|]; [|left; reflexivity].
      destruct (formIsValid env); cbn [negb] in *; [|left; reflexivity].
      right. by_finally Hret.
      apply (endsLoadingOff_emit [TouchAllFields; ValidateForm]).
      apply endsLoadingOff_emit. apply submitAndContinue_endsLoadingOff.
      intros subs next r Hr. discriminate.
    + unfold handleAuthenticatorSelection in *.
      destruct (currentFlow st) as [flow|]; [|left; reflexivity].
      right. by_finally Hret.
      apply endsLoadingOff_emit.
      destruct (isPasskeyAuthenticator P a).
      * destruct (requireChallengeData a); [unfold passkeyCatch; ends_off|].
        apply endsLoadingOff_emit. apply passkeyRest_endsLoadingOff.
      * destruct (isRedirectionPrompt a).
        -- unfold redirectionBranch.
           destruct (requestConfig flow) as [cfg|]; [|apply endsLoadingOff_done].
           apply endsLoadingOff_emit.
           destruct (submits env) as [|[response|e] subs];
             [ends_off | | apply endsLoadingOff_done].
           apply endsLoadingOff_emit.
           destruct (flowStatus response); try ends_off; apply endsLoadingOff_done.
        -- destruct formData as [fd|].
           ++ apply endsLoadingOff_emit.
              destruct (formIsValid env); cbn [negb]; [|ends_off].
              apply submitAndContinue_endsLoadingOff.
              intros subs next r Hr. apply (chainPasskey_endsLoadingOff _ _ _ _ _ _ Hr).
           ++ destruct (paramNames a); [|ends_off].
              apply submitAndContinue_endsLoadingOff.
              intros subs next r Hr. apply (chainPasskey_endsLoadingOff _ _ _ _ _ _ Hr).
  - intros o Hret. unfold initialize in *.
    destruct o as [[response|e]|]; [| |discriminate].
    + cbn [emit done fst snd]. rewrite !app_assoc. rewrite applyActions_app. reflexivity.
    + reflexivity.
Qed.

Lemma returned_handler_turns_loading_off_witness :
  let st := showing (responseOf InProgress (Some (stepOf AuthenticatorPrompt [basic])))
                    (Some basic) in
  let call := CallSubmit (sampleEnv true false [] [Reject NonError]) [("username", "u")] in
  applyActions st (fst (handle samplePlatform st call)) = st
  \/ isSignInInitializationRequestLoading (applyActions st (fst (handle samplePlatform st call)))
     = false.
Proof.
  cbv zeta.
  apply (proj1 (returned_handler_turns_loading_off samplePlatform
                  (showing (responseOf InProgress (Some (stepOf AuthenticatorPrompt [basic])))
                           (Some basic)))
           (CallSubmit (sampleEnv true false [] [Reject NonError]) [("username", "u")])).
  reflexivity.
Defined.

Lemma passkeyRest_pending (P : Platform) (flow : FlowResponse) (a : Authenticator)
      (subs : list (Outcome FlowResponse)) :
  passkeyRest P flow a [] subs = ([], Suspended).
Proof. destruct subs; reflexivity. Qed.

(** X10.  While the first ceremony of a passkey step is pending the loading
    flag is on.  When the step chains into a further passkey step, the call
    of the handler on the next authenticator is not awaited: the calling
    invocation runs its [finally] as soon as the next ceremony has started,
    so that ceremony is pending with the loading flag off, the new flow
    current and the authenticator on screen unchanged. *)
Theorem chained_ceremony_pends_with_loading_off
        (P : Platform) (st : UiState) (env : Env) (flow : FlowResponse)
        (a next : Authenticator) (formData : option (list (string * string)))
        (token : string) (response : FlowResponse) (step : Step)
        (later : list (Outcome FlowResponse)) :
  currentFlow st = Some flow ->
  links flow <> [] ->
  isPasskeyAuthenticator P a = true ->
  submits env = Resolve response :: later ->
  flowStatus response = InProgress ->
  flowId response <> None ->
  nextStep response = Some step ->
  authenticators step = [next] ->
  isPasskeyAuthenticator P next = true ->
  let r := handleAuthenticatorSelection P st env a formData in
  let st' := applyActions st (fst r) in
  (ceremonies env = [] ->
   snd r = Suspended
   /\ isSignInInitializationRequestLoading st' = true
   /\ count isWebAuthn (fst r) = 1)
  /\ (ceremonies env = [Resolve token] ->
      snd r = Suspended
      /\ isSignInInitializationRequestLoading st' = false
      /\ count isWebAuthn (fst r) = 2
      /\ count isOnSubmit (fst r) = 1
      /\ currentFlow st' = Some response
      /\ currentAuthenticator st' = currentAuthenticator st).
Proof.
  intros Hflow Hlinks Hpk Hsub Hstatus Hid Hstep Hauths Hnext. cbv zeta.
  destruct (requestConfig_some flow Hlinks) as [cfg Hcfg].
  destruct (requireChallengeData_passkey P a Hpk) as [challenge Hch].
  destruct (requireChallengeData_passkey P next Hnext) as [challenge' Hch'].
  assert (Hmulti : isMultiChoice step = false).
  { unfold isMultiChoice. rewrite Hauths. cbn. apply andb_false_r. }
  unfold handleAuthenticatorSelection. rewrite Hflow, Hpk, Hch.
  split; intros Hcers; rewrite Hcers, Hsub.
  - cbn [passkeyRest emit fst snd].
    split; [reflexivity|]. split.
    + rewrite !applyActions_app. reflexivity.
    + rewrite !count_app. destruct formData; reflexivity.
  - cbn [passkeyRest]. rewrite Hcfg, Hstatus. unfold continueFlow.
    rewrite Hstep, Hauths, Hmulti, Hnext.
    destruct (flowId response) as [fid|]; [|congruence].
    unfold chainInto. rewrite Hch', passkeyRest_pending. cbn [emit fst snd app].
    split; [reflexivity|].
    set (touch := match formData with Some _ => [TouchAllFields] | None => [] end).
    assert (Htouch : applyActions st touch = st) by (subst touch; destruct formData; reflexivity).
    rewrite !count_app.
    assert (Htw : count isWebAuthn touch = 0) by (subst touch; destruct formData; reflexivity).
    assert (Hts : count isOnSubmit touch = 0) by (subst touch; destruct formData; reflexivity).
    rewrite Htw, Hts. rewrite !applyActions_app, Htouch.
    repeat split; reflexivity.
Qed.

Lemma chained_ceremony_pends_with_loading_off_witness :
  let first := passkey "challenge-1" in
  let st := showing (responseOf InProgress (Some (stepOf AuthenticatorPrompt [first])))
                    (Some first) in
  let env := sampleEnv true true [Resolve "assertion-1"]
               [Resolve (responseOf InProgress
                           (Some (stepOf AuthenticatorPrompt [passkey "challenge-2"])))] in
  let r := handleAuthenticatorSelection samplePlatform st env first None in
  snd r = Suspended
  /\ isSignInInitializationRequestLoading (applyActions st (fst r)) = false.
Proof.
  cbv zeta.
  destruct (chained_ceremony_pends_with_loading_off samplePlatform
              (showing (responseOf InProgress
                          (Some (stepOf AuthenticatorPrompt [passkey "challenge-1"])))
                       (Some (passkey "challenge-1")))
              (sampleEnv true true [Resolve "assertion-1"]
                 [Resolve (responseOf InProgress
                             (Some (stepOf AuthenticatorPrompt [passkey "challenge-2"])))])
              (responseOf InProgress (Some (stepOf AuthenticatorPrompt [passkey "challenge-1"])))
              (passkey "challenge-1") (passkey "challenge-2") None "assertion-1"
              (responseOf InProgress (Some (stepOf AuthenticatorPrompt [passkey "challenge-2"])))
              (stepOf AuthenticatorPrompt [passkey "challenge-2"]) []
              eq_refl ltac:(cbn; discriminate) eq_refl eq_refl eq_refl
              ltac:(cbn; discriminate) eq_refl eq_refl eq_refl)
    as [_ Hsecond].
  destruct (Hsecond eq_refl) as [Hs [Hl _]]. split; assumption.
Defined.

(** X11.  Choosing, without form data, an authenticator that declares
    parameters and is neither a passkey nor a redirection prompt calls
    [onSubmit] for nothing: the authenticator becomes the current one, its
    fields are set up empty, any error and messages shown are cleared and the
    flow stays. *)
Theorem choosing_an_input_authenticator_shows_its_form
        (P : Platform) (st : UiState) (env : Env) (flow : FlowResponse) (a : Authenticator) :
  currentFlow st = Some flow ->
  isPasskeyAuthenticator P a = false ->
  isRedirectionPrompt a = false ->
  paramNames a <> [] ->
  let r := handleAuthenticatorSelection P st env a None in
  let st' := applyActions st (fst r) in
  snd r = Returned
  /\ count isOnSubmit (fst r) = 0
  /\ currentAuthenticator st' = Some a
  /\ formFields st' = fieldsOf a
  /\ formValues st' = map (fun k => (k, "")) (objectKeys (paramNames a))
  /\ currentFlow st' = Some flow
  /\ error st' = None
  /\ messages st' = []
  /\ isSignInInitializationRequestLoading st' = false.
Proof.
  intros Hflow Hpk Hrd Hparams. cbv zeta.
  unfold handleAuthenticatorSelection. rewrite Hflow, Hpk, Hrd.
  destruct (paramNames a) as [|k ks] eqn:Hnames; [congruence|].
  cbn [emit done fst snd app].
  assert (Hq : count isOnSubmit (setupFormFields a ++ loadingOff) = 0).
  { rewrite count_app. destruct (quiet_counts _ (quiet_setupFormFields a)) as [_ ->]. reflexivity. }
  split; [reflexivity|].
  split; [rewrite count_app; change (SetCurrentAuthenticator (Some a) :: setupFormFields a ++ loadingOff)
            with ([SetCurrentAuthenticator (Some a)] ++ setupFormFields a ++ loadingOff);
          rewrite count_app, Hq; reflexivity|].
  rewrite applyActions_app, applyActions_cons.
  set (mid := applyAction (applyActions st entered) (SetCurrentAuthenticator (Some a))).
  rewrite applyActions_app.
  destruct (keepsSelection_applyActions _ (keepsSelection_setupFormFields a) mid) as [Hf Ha].
  assert (Hem : forall tr s0, Forall (fun x => isFormSetup x = true) tr ->
                              (forall o, ~ In (SetCurrentAuthenticator o) tr) ->
                              error (applyActions s0 tr) = error s0
                              /\ messages (applyActions s0 tr) = messages s0).
  { induction tr as [|x xs IH]; intros s0 Hall Hno; [split; reflexivity|].
    inversion Hall as [|? ? Hx Hxs]; subst. rewrite applyActions_cons.
    destruct (IH (applyAction s0 x) Hxs) as [He Hm].
    { intros o Hin. apply (Hno o). right. exact Hin. }
    rewrite He, Hm.
    destruct x; cbn in Hx |- *; try discriminate; split; reflexivity. }
  assert (Hsetup : Forall (fun x => isFormSetup x = true) (setupFormFields a)).
  { apply Forall_forall. intros x Hx. apply (In_setupFormFields x a Hx). }
  destruct (Hem _ mid Hsetup) as [He Hm].
  { intros o Hin. unfold setupFormFields in Hin. destruct Hin as [Hin | Hin]; [discriminate|].
    apply in_map_iff in Hin. destruct Hin as [k0 [Hk0 _]]. discriminate. }
  set (final := applyActions (applyActions mid (setupFormFields a)) loadingOff).
  assert (Ra : currentAuthenticator final = currentAuthenticator (applyActions mid (setupFormFields a)))
    by reflexivity.
  assert (Rf : currentFlow final = currentFlow (applyActions mid (setupFormFields a))) by reflexivity.
  assert (Rv : formValues final = formValues (applyActions mid (setupFormFields a))) by reflexivity.
  assert (Re : error final = error (applyActions mid (setupFormFields a))) by reflexivity.
  assert (Rm : messages final = messages (applyActions mid (setupFormFields a))) by reflexivity.
  repeat split.
  - rewrite Ra, Ha. reflexivity.
  - unfold formFields, fieldsOf. rewrite Ra, Ha. reflexivity.
  - rewrite Rv, formValues_setupFormFields, Hnames. reflexivity.
  - rewrite Rf, Hf. cbn. exact Hflow.
  - rewrite Re, He. reflexivity.
  - rewrite Rm, Hm. reflexivity.
Qed.

Lemma choosing_an_input_authenticator_shows_its_form_witness :
  let st := showing (responseOf InProgress (Some (stepOf MultiOptionsPrompt [basic; google])))
                    None in
  let r := handleAuthenticatorSelection samplePlatform st (sampleEnv true true [] []) basic None in
  currentAuthenticator (applyActions st (fst r)) = Some basic.
Proof.
  cbv zeta.
  refine (proj1 (proj2 (proj2
    (choosing_an_input_authenticator_shows_its_form samplePlatform
       (showing (responseOf InProgress (Some (stepOf MultiOptionsPrompt [basic; google]))) None)
       (sampleEnv true true [] [])
       (responseOf InProgress (Some (stepOf MultiOptionsPrompt [basic; google]))) basic
       eq_refl eq_refl eq_refl _)))).
  cbn. discriminate.
Defined.

(** X12.  The parameters of the current authenticator have names that no
    object inherits.  Then submitting its form sends each declared parameter
    exactly once, in the key order of the object built from them
    ([objectKeys]: the names that are array indices first, in ascending
    order, then the other names in the order of their first occurrence): with
    the entered value when there is a non-empty one and with the empty
    string otherwise, never [undefined]; values entered under other names
    are not sent. *)
Theorem form_submission_sends_the_declared_parameters
        (P : Platform) (st : UiState) (env : Env) (flow : FlowResponse)
        (a : Authenticator) (cfg : RequestConfig) :
  currentFlow st = Some flow ->
  currentAuthenticator st = Some a ->
  requestConfig flow = Some cfg ->
  formIsValid env = true ->
  (forall k, In k (paramNames a) -> ~ In k inheritedNames) ->
  let sent := formDataOf a (formValues st) in
  In (OnSubmit (payloadOf flow a (formParams sent)) cfg) (fst (onFormSubmit P st env))
  /\ map fst sent = objectKeys (paramNames a)
  /\ NoDup (map fst sent)
  /\ (forall k, In k (paramNames a) <-> In k (map fst sent))
  /\ (forall k v, In (k, v) sent ->
                  (v <> "" /\ lookupValue k (formValues st) = Some v)
                  \/ (v = "" /\ (lookupValue k (formValues st) = None
                                 \/ lookupValue k (formValues st) = Some ""))).
Proof.
  intros Hflow Ha Hcfg Hvalid Hnames. cbv zeta.
  assert (Hkeys : map fst (formDataOf a (formValues st)) = objectKeys (paramNames a)).
  { unfold formDataOf. rewrite map_map. cbn. apply map_id. }
  split; [|split; [exact Hkeys|split; [rewrite Hkeys; apply objectKeys_NoDup|split]]].
  - unfold onFormSubmit, handleSubmit, submitAndContinue.
    rewrite Ha, Hflow, Hvalid, Hcfg. cbn [negb emit fst snd app].
    do 5 right. left. reflexivity.
  - intros k. rewrite Hkeys, In_objectKeys. split; [|tauto].
    intros Hin. split; [exact Hin|]. intros ->. apply (Hnames _ Hin).
    unfold inheritedNames. cbn. tauto.
  - intros k v Hin. unfold formDataOf in Hin. apply in_map_iff in Hin.
    destruct Hin as [k' [Heq _]]. injection Heq as -> <-.
    unfold orElse. destruct (lookupValue k (formValues st)) as [v|]; [|right; auto].
    destruct (String.eqb_spec v "") as [-> | Hne]; [right; auto | left; auto].
Qed.

Lemma form_submission_sends_the_declared_parameters_witness :
  formDataOf basic [("username", "alice"); ("otp", "123456")]
  = [("username", "alice"); ("password", "")].
Proof.
  pose proof (form_submission_sends_the_declared_parameters samplePlatform
                {| isSignInInitializationRequestLoading := false; isInitialized := true;
                   currentFlow := Some (responseOf InProgress
                                          (Some (stepOf AuthenticatorPrompt [basic])));
                   currentAuthenticator := Some basic; error := None; messages := [];
                   formValues := [("username", "alice"); ("otp", "123456")] |}
                (sampleEnv true true [] [])
                (responseOf InProgress (Some (stepOf AuthenticatorPrompt [basic]))) basic
                {| method := "POST"; url := "https://idp/authn" |}
                eq_refl eq_refl eq_refl eq_refl) as [_ [Hkeys _]].
  - intros k Hk Hin. cbn in Hk, Hin.
    destruct Hk as [<- | [<- | []]]; intuition discriminate.
  - reflexivity.
Defined.

(** X13.  When [onInitialize] rejects, the initialisation effect shows the
    message of an [AsgardeoAPIError] or else the translated initialisation
    text, calls [onError] once with what was thrown and turns the loading
    flag off; no flow and no authenticator are set and the component is not
    marked initialised, so a component that was just mounted renders the
    card without authenticator. *)
Theorem failed_initialisation_is_reported (P : Platform) (e : Thrown) (st : UiState) :
  let r := initialize P (Some (Reject e)) in
  let st' := applyActions st (fst r) in
  snd r = Returned
  /\ count isOnError (fst r) = 1
  /\ In (OnError e) (fst r)
  /\ error st' = Some match e with
                      | ApiError m => m
                      | _ => translate P "errors.sign.in.initialization"
                      end
  /\ currentFlow st' = currentFlow st
  /\ currentAuthenticator st' = currentAuthenticator st
  /\ isInitialized st' = isInitialized st
  /\ isSignInInitializationRequestLoading st' = false
  /\ render P false (applyActions mounted (fst r)) = NoAuthenticatorCard.
Proof.
  cbv zeta. cbn. repeat split; try reflexivity.
  right. right. right. right. left. reflexivity.
Qed.

(** ** The component-driven sign-in *)

Lemma processComponent_nodes :
  forall c, SignInV2.processComponent c = flat_map SignInV2.ownField (SignInV2.nodes c).
Proof.
  fix IH 1. intros [id ty cfg children].
  cbn [SignInV2.processComponent SignInV2.nodes flat_map].
  change (SignInV2.ownField (SignInV2.Component id ty cfg children))
    with (if ty =? "INPUT"
          then match cfg with
               | Some cf => [SignInV2.fieldOf id cf]
               | None => []
               end
          else []).
  f_equal. destruct children as [cs|]; [|reflexivity].
  induction cs as [|x rest IHrest]; [reflexivity|].
  rewrite flat_map_app, <- IHrest, <- (IH x). reflexivity.
Qed.

Lemma extractFormFields_app (xs ys : list SignInV2.EmbeddedFlowComponent) :
  SignInV2.extractFormFields (xs ++ ys)
  = SignInV2.extractFormFields xs ++ SignInV2.extractFormFields ys.
Proof.
  induction xs as [|x rest IH]; [reflexivity|].
  cbn [app SignInV2.extractFormFields]. rewrite IH, app_assoc. reflexivity.
Qed.

(** X14.  [extractFormFields] returns one field for each component of type
    [INPUT] that has a config, at any depth of the tree, in the order in
    which the components are met when parents are read before their
    children; a component of another type, or an [INPUT] without config,
    gives no field of its own but its children are still gone through.  The
    fields of a list of components are those of its parts, one after the
    other. *)
Theorem extractFormFields_reads_the_tree_in_order
        (comps more : list SignInV2.EmbeddedFlowComponent) :
  SignInV2.extractFormFields comps
  = flat_map SignInV2.ownField (SignInV2.allNodes comps)
  /\ SignInV2.extractFormFields (comps ++ more)
     = SignInV2.extractFormFields comps ++ SignInV2.extractFormFields more
  /\ forall id ty cfg children,
       SignInV2.extractFormFields [SignInV2.Component id ty cfg (Some children)]
       = SignInV2.ownField (SignInV2.Component id ty cfg None)
         ++ SignInV2.extractFormFields children.
Proof.
  split; [|split].
  - induction comps as [|x rest IH]; [reflexivity|].
    cbn [SignInV2.extractFormFields SignInV2.allNodes].
    rewrite flat_map_app, <- IH, processComponent_nodes. reflexivity.
  - apply extractFormFields_app.
  - intros id ty cfg children.
    cbn [SignInV2.extractFormFields SignInV2.processComponent SignInV2.ownField].
    rewrite app_nil_r. reflexivity.
Qed.

(** X15.  In the component-driven sign-in, a valid submission from a
    component with a config calls [onSubmit] exactly once, with that
    component as second argument.  When the config has a truthy [actionId]
    the request holds that action id and no inputs at all, whatever data was
    passed; otherwise it holds the filled entries of the data as inputs. *)
Theorem action_submission_sends_no_inputs
        (P : Platform) (outcome : option (Outcome unit))
        (component : SignInV2.EmbeddedFlowComponent)
        (data : option (list (string * JsVal))) (cfg : list (string * JsVal)) :
  SignInV2.componentConfig component = Some cfg ->
  let tr := fst (SignInV2.handleSubmit P true outcome component data) in
  (truthy (lookupField "actionId" cfg) = true ->
   SignInV2.submissions tr
   = [(SignInV2.WithActionId (lookupField "actionId" cfg), component)])
  /\ (truthy (lookupField "actionId" cfg) = false ->
      SignInV2.submissions tr
      = [(SignInV2.WithInputs (SignInV2.filteredInputs data), component)]).
Proof.
  intros Hcfg. cbv zeta. unfold SignInV2.handleSubmit. rewrite Hcfg. cbn [negb].
  split; intros Hid; rewrite Hid; destruct outcome as [[u|e]|]; reflexivity.
Qed.

Lemma action_submission_sends_no_inputs_witness :
  let button := SignInV2.Component "btn" "BUTTON" (Some [("actionId", JStr "continue")]) None in
  SignInV2.submissions
    (fst (SignInV2.handleSubmit samplePlatform true (Some (Resolve tt)) button
            (Some [("username", JStr "alice")])))
  = [(SignInV2.WithActionId (JStr "continue"), button)].
Proof.
  cbv zeta.
  apply (proj1 (action_submission_sends_no_inputs samplePlatform (Some (Resolve tt))
                  (SignInV2.Component "btn" "BUTTON" (Some [("actionId", JStr "continue")]) None)
                  (Some [("username", JStr "alice")])
                  [("actionId", JStr "continue")] eq_refl)).
  reflexivity.
Defined.

(** X16.  The inputs sent are the entries of the data whose value is not
    [undefined], not [null] and not the empty string, in their order; other
    falsy values such as [false] and [0] are sent.  Filtering what has been
    filtered changes nothing, and absent data gives no inputs. *)
Theorem empty_inputs_are_not_sent (data : option (list (string * JsVal))) :
  (forall k v,
      In (k, v) (SignInV2.filteredInputs data)
      <-> (exists kvs, data = Some kvs /\ In (k, v) kvs)
          /\ v <> JUndefined /\ v <> JNull /\ v <> JStr "")
  /\ SignInV2.filteredInputs (Some (SignInV2.filteredInputs data))
     = SignInV2.filteredInputs data
  /\ (forall kvs more,
        SignInV2.filteredInputs (Some (kvs ++ more))
        = SignInV2.filteredInputs (Some kvs) ++ SignInV2.filteredInputs (Some more))
  /\ SignInV2.filteredInputs
       (Some [("a", JBool false); ("b", JNum 0); ("c", JStr ""); ("d", JNull)])
     = [("a", JBool false); ("b", JNum 0)].
Proof.
  assert (Hfilled : forall v, SignInV2.isFilled v = true
                              <-> v <> JUndefined /\ v <> JNull /\ v <> JStr "").
  { intros v. destruct v as [| | b | n | s | fs]; cbn;
      try (split; [intros _; repeat split; discriminate | reflexivity]);
      try (split; [discriminate | intros [H1 [H2 H3]]; congruence]).
    rewrite negb_true_iff, String.eqb_neq. split.
    - intros Hne. repeat split; try discriminate. congruence.
    - intros [_ [_ Hne]] ->. apply Hne. reflexivity. }
  split; [|split; [|split]].
  - intros k v. destruct data as [kvs|]; cbn [SignInV2.filteredInputs].
    + rewrite filter_In. cbn [snd]. rewrite Hfilled. split.
      * intros [Hin Hv]. split; [exists kvs; split; [reflexivity | exact Hin] | exact Hv].
      * intros [[kvs' [Heq Hin]] Hv]. injection Heq as <-. split; assumption.
    + split; [intros [] | intros [[kvs [Heq _]] _]; discriminate].
  - destruct data as [kvs|]; cbn [SignInV2.filteredInputs]; [|reflexivity].
    induction kvs as [|[k v] rest IH]; [reflexivity|].
    cbn [filter snd]. destruct (SignInV2.isFilled v) eqn:Hv; [|exact IH].
    cbn [filter snd]. rewrite Hv, IH. reflexivity.
  - intros kvs more. cbn [SignInV2.filteredInputs]. apply filter_app.
  - reflexivity.
Qed.

(** X17.  In the component-driven sign-in, an invalid form returns before
    any state is set, and a component without config makes the handler fail
    while it builds the request, with the [TypeError] of the read
    [component.config['actionId']]: in both cases [onSubmit] is not called.
    In the second case, and when [onSubmit] rejects, the message of the error
    (of any [Error], not only of an API error) or else the translated generic
    text is shown and [onError] is called once with what was thrown.  A
    handler that went past validation and returned has reset
    [isSubmitting] last. *)
Theorem component_submission_failures
        (P : Platform) (valid : bool) (outcome : option (Outcome unit))
        (component : SignInV2.EmbeddedFlowComponent)
        (data : option (list (string * JsVal))) :
  let r := SignInV2.handleSubmit P valid outcome component data in
  (valid = false ->
   r = ([SignInV2.TouchAllFields; SignInV2.ValidateForm], Returned))
  /\ (valid = true -> SignInV2.componentConfig component = None ->
      SignInV2.submissions (fst r) = []
      /\ SignInV2.reported (fst r) = [PlainError (actionIdTypeErrorMessage P)]
      /\ In (SignInV2.SetError (Some (actionIdTypeErrorMessage P))) (fst r))
  /\ (forall e, valid = true -> SignInV2.componentConfig component <> None ->
                outcome = Some (Reject e) ->
                SignInV2.reported (fst r) = [e]
                /\ In (SignInV2.SetError
                         (Some match e with
                               | ApiError m | PlainError m => m
                               | NonError => translate P "errors.sign.in.flow.failure"
                               end)) (fst r))
  /\ (valid = true -> snd r = Returned ->
      exists before_finally, fst r = before_finally ++ [SignInV2.SetIsSubmitting false]).
Proof.
  cbv zeta. unfold SignInV2.handleSubmit.
  split; [intros ->; reflexivity|].
  split; [intros -> ->; cbn; repeat split; try reflexivity; do 5 right; left; reflexivity|].
  split.
  - intros e -> Hcfg ->. cbn [negb].
    destruct (SignInV2.componentConfig component) as [cfg|]; [|congruence].
    cbn. split; [reflexivity|]. do 6 right. left. reflexivity.
  - intros -> Hret. cbn [negb] in *.
    destruct (SignInV2.componentConfig component) as [cfg|].
    + destruct outcome as [[u|e]|]; [| |discriminate].
      * eexists (_ :: _ :: _ :: _ :: _ :: [_]). reflexivity.
      * eexists (_ :: _ :: _ :: _ :: _ :: _ :: _ :: [_]). reflexivity.
    + eexists (_ :: _ :: _ :: _ :: _ :: _ :: [_]). reflexivity.
Qed.

Lemma component_submission_failures_witness :
  SignInV2.submissions
    (fst (SignInV2.handleSubmit samplePlatform true (Some (Resolve tt))
            (SignInV2.Component "btn" "BUTTON" None None)
            (Some [("username", JStr "alice")])))
  = [].
Proof.
  apply (proj1 (proj2 (component_submission_failures samplePlatform true (Some (Resolve tt))
                         (SignInV2.Component "btn" "BUTTON" None None)
                         (Some [("username", JStr "alice")]))) eq_refl eq_refl).
Defined.

(** ** Callbacks and the redirection branch *)

Lemma fromAnswers_more (x : Outcome FlowResponse) (rs : list (Outcome FlowResponse))
      (tr : list Action) :
  Forall (fromAnswers rs) tr -> Forall (fromAnswers (x :: rs)) tr.
Proof.
  intros H. eapply Forall_impl; [|exact H].
  intros a. destruct a; cbn; auto.
  intros [r [Hin Hr]]. exists r. split; [right; exact Hin | exact Hr].
Qed.

Lemma fromAnswers_plain (rs : list (Outcome FlowResponse)) (tr : list Action) :
  Forall (fun a => isCallback a = false) tr -> Forall (fromAnswers rs) tr.
Proof.
  intros H. eapply Forall_impl; [|exact H].
  intros a Ha. destruct a; cbn in Ha |- *; try exact I; discriminate.
Qed.

Lemma callback_free_setupFormFields (a : Authenticator) :
  Forall (fun x => isCallback x = false) (setupFormFields a).
Proof.
  unfold setupFormFields. constructor; [reflexivity|].
  induction (objectKeys (paramNames a)); constructor; [reflexivity | assumption].
Qed.

Lemma callback_free_showMessages (step : Step) :
  Forall (fun x => isCallback x = false) (showMessages step).
Proof. unfold showMessages. destruct (stepMessages step); repeat constructor. Qed.

Lemma callback_free_redirection (opens : bool) (response : FlowResponse) :
  Forall (fun x => isCallback x = false) (snd (handleRedirectionIfNeeded opens response)).
Proof.
  unfold handleRedirectionIfNeeded.
  destruct (redirectTarget response) as [[a u]|]; [destruct opens|]; repeat constructor.
Qed.

Ltac from_answers :=
  cbn [fst snd done emit app];
  repeat first
    [ apply Forall_nil
    | apply Forall_app; split
    | apply fromAnswers_plain;
      first [ apply callback_free_setupFormFields | apply callback_free_showMessages
            | apply callback_free_redirection
            | solve [repeat (apply Forall_cons; [reflexivity|]); apply Forall_nil] ]
    | apply Forall_cons; [solve [exact I] |] ].

Lemma continueFlow_fromAnswers (rs : list (Outcome FlowResponse))
      (chain : Authenticator -> option Run) (response : FlowResponse) :
  (forall next r, chain next = Some r -> Forall (fromAnswers rs) (fst r)) ->
  Forall (fromAnswers rs) (fst (continueFlow chain response)).
Proof.
  intros Hchain. unfold continueFlow.
  destruct (flowId response); [|from_answers].
  destruct (nextStep response) as [step|]; [|from_answers].
  destruct (authenticators step) as [|next rest]; [from_answers|].
  destruct (isMultiChoice step); [from_answers|].
  destruct (chain next) as [r|] eqn:Hc; [|from_answers].
  cbn. constructor; [exact I|]. apply (Hchain next r Hc).
Qed.

Lemma chainInto_fromAnswers (P : Platform) (rs : list (Outcome FlowResponse))
      (rest : Run) (next : Authenticator) :
  Forall (fromAnswers rs) (fst rest) ->
  Forall (fromAnswers rs) (fst (chainInto P rest next)).
Proof.
  intros H. unfold chainInto. destruct (requireChallengeData next); cbn.
  - unfold passkeyCatch. from_answers.
  - repeat (constructor; [exact I|]). exact H.
Qed.

(** What follows [onFlowChange(response)] in every copy of the response
    handling. *)
Lemma answered_fromAnswers (rs : list (Outcome FlowResponse)) (response : FlowResponse)
      (failure : list Action) (onward : Run) :
  In (Resolve response) rs ->
  Forall (fun a => isCallback a = false) failure ->
  Forall (fromAnswers rs) (fst onward) ->
  Forall (fromAnswers rs)
    (fst (emit [OnFlowChange response]
            match flowStatus response with
            | SuccessCompleted => done (OnSuccess (authData response) :: loadingOff)
            | FailCompleted | FailIncomplete => done failure
            | InProgress => onward
            end)).
Proof.
  intros Hin Hfail Honward. cbn [emit fst snd app]. constructor; [exact Hin|].
  destruct (flowStatus response) eqn:Hstatus.
  - exact Honward.
  - cbn [done fst]. constructor; [|from_answers].
    exists response. repeat split; assumption.
  - cbn [done fst]. apply fromAnswers_plain. exact Hfail.
  - cbn [done fst]. apply fromAnswers_plain. exact Hfail.
Qed.

Lemma passkeyRest_fromAnswers (P : Platform) (flow : FlowResponse) :
  forall subs a cers, Forall (fromAnswers subs) (fst (passkeyRest P flow a cers subs)).
Proof.
  induction subs as [|sub subs IH]; intros a cers.
  - destruct cers as [|[token|e] cers']; cbn [passkeyRest];
      [from_answers | | unfold passkeyCatch; from_answers].
    destruct (requestConfig flow) as [cfg|]; [|unfold passkeyCatch]; from_answers.
  - destruct cers as [|[token|e] cers']; cbn [passkeyRest];
      [from_answers | | unfold passkeyCatch; from_answers].
    destruct (requestConfig flow) as [cfg|]; [|unfold passkeyCatch; from_answers].
    destruct sub as [response|e]; [|unfold passkeyCatch; from_answers].
    unfold emit at 1. cbn [fst snd app]. constructor; [exact I|].
    apply answered_fromAnswers; [left; reflexivity | repeat constructor |].
    apply continueFlow_fromAnswers. intros next r Hr.
    destruct (isPasskeyAuthenticator P next); [|discriminate].
    injection Hr as <-. apply chainInto_fromAnswers. apply fromAnswers_more. apply IH.
Qed.

Lemma chainPasskey_fromAnswers (P : Platform) (flow : FlowResponse) (cers : list (Outcome string))
      (subs : list (Outcome FlowResponse)) (next : Authenticator) (r : Run) :
  chainPasskey P flow cers subs next = Some r -> Forall (fromAnswers subs) (fst r).
Proof.
  unfold chainPasskey. destruct (isPasskeyAuthenticator P next); [|discriminate].
  intros Hr. injection Hr as <-. apply chainInto_fromAnswers. apply passkeyRest_fromAnswers.
Qed.

Lemma submitAndContinue_fromAnswers (P : Platform) (onThrow : Thrown -> list Action)
      (failure : string)
      (chain : list (Outcome FlowResponse) -> Authenticator -> option Run)
      (flow : FlowResponse) (a : Authenticator) (ps : list (string * JsVal)) (env : Env) :
  (forall e, Forall (fun x => isCallback x = false) (onThrow e)) ->
  (forall x subs next r, submits env = x :: subs -> chain subs next = Some r ->
                         Forall (fromAnswers subs) (fst r)) ->
  Forall (fromAnswers (submits env))
    (fst (submitAndContinue P onThrow failure chain flow a ps env)).
Proof.
  intros Hthrow Hchain. unfold submitAndContinue.
  destruct (requestConfig flow) as [cfg|];
    [|from_answers; apply fromAnswers_plain; apply Hthrow].
  destruct (submits env) as [|[response|e] subs] eqn:Hsub;
    [from_answers | | from_answers; apply fromAnswers_plain; apply Hthrow].
  unfold emit at 1. cbn [fst snd app]. constructor; [exact I|].
  apply answered_fromAnswers; [left; reflexivity | repeat constructor |].
  pose proof (callback_free_redirection (popupOpens env) response) as Hq.
  destruct (handleRedirectionIfNeeded (popupOpens env) response) as [opened acts].
  cbn [snd] in Hq. destruct opened.
  - cbn [done fst]. apply Forall_app. split; [apply fromAnswers_plain; exact Hq | from_answers].
  - cbn [emit fst]. apply Forall_app. split; [apply fromAnswers_plain; exact Hq|].
    apply continueFlow_fromAnswers. intros next r Hr.
    apply fromAnswers_more. apply (Hchain _ _ _ _ eq_refl Hr).
Qed.

Lemma handle_fromAnswers (P : Platform) (st : UiState) (call : Call) :
  Forall (fromAnswers (answers call)) (fst (handle P st call)).
Proof.
  destruct call as [env values | env a formData]; cbn [handle answers].
  - unfold handleSubmit.
    destruct (currentFlow st) as [flow|]; [|from_answers].
    destruct (currentAuthenticator st) as [a|]; [|from_answers].
    cbn [emit fst snd app]. constructor; [exact I|]. constructor; [exact I|].
    destruct (formIsValid env); cbn [negb]; [|from_answers].
    cbn [emit fst snd]. apply Forall_app. split; [from_answers|].
    apply submitAndContinue_fromAnswers.
    + intros e. repeat constructor.
    + intros x subs next r _ Hr. discriminate.
  - unfold handleAuthenticatorSelection.
    destruct (currentFlow st) as [flow|]; [|from_answers].
    cbn [emit fst snd]. apply Forall_app. split; [destruct formData; from_answers|].
    destruct (isPasskeyAuthenticator P a).
    + destruct (requireChallengeData a); [unfold passkeyCatch; from_answers|].
      cbn [emit fst snd app]. constructor; [exact I|]. apply passkeyRest_fromAnswers.
    + destruct (isRedirectionPrompt a).
      * unfold redirectionBranch.
        destruct (requestConfig flow) as [cfg|]; [|from_answers].
        destruct (submits env) as [|[response|e] subs]; [from_answers | | from_answers].
        cbn [emit fst snd app]. constructor; [exact I|].
        constructor; [left; reflexivity|].
        destruct (flowStatus response) eqn:Hstatus; cbn [done fst];
          try (apply Forall_app; split;
               [apply fromAnswers_plain; apply callback_free_redirection | from_answers]).
        constructor; [|from_answers].
        exists response. split; [left; reflexivity|]. split; [exact Hstatus | reflexivity].
      * destruct formData as [fd|].
        -- cbn [emit fst snd app]. constructor; [exact I|].
           destruct (formIsValid env); cbn [negb]; [|from_answers].
           apply submitAndContinue_fromAnswers.
           ++ intros e. repeat constructor.
           ++ intros x subs next r _ Hr. apply (chainPasskey_fromAnswers _ _ _ _ _ _ Hr).
        -- destruct (paramNames a); [|from_answers].
           apply submitAndContinue_fromAnswers.
           ++ intros e. repeat constructor.
           ++ intros x subs next r _ Hr. apply (chainPasskey_fromAnswers _ _ _ _ _ _ Hr).
Qed.

(** X18.  A call of [handleSubmit] or of [handleAuthenticatorSelection]
    passes to [onFlowChange] only responses its own submissions resolved to,
    and calls [onSuccess] only with the [authData] of such a response whose
    status is [SuccessCompleted]: no success is reported for a step in
    progress, a failed flow or a rejected submission. *)
Theorem success_is_reported_only_for_a_completed_answer
        (P : Platform) (st : UiState) (call : Call) :
  (forall d, In (OnSuccess d) (fst (handle P st call)) ->
             exists r, In (Resolve r) (answers call)
                       /\ flowStatus r = SuccessCompleted /\ d = authData r)
  /\ (forall r, In (OnFlowChange r) (fst (handle P st call)) ->
                In (Resolve r) (answers call)).
Proof.
  pose proof (handle_fromAnswers P st call) as Hall. rewrite Forall_forall in Hall.
  split.
  - intros d Hin. exact (Hall _ Hin).
  - intros r Hin. exact (Hall _ Hin).
Qed.

Lemma success_is_reported_only_for_a_completed_answer_witness :
  exists r, In (Resolve r) [Resolve (responseOf SuccessCompleted None)]
            /\ flowStatus r = SuccessCompleted /\ None = authData r.
Proof.
  refine (proj1 (success_is_reported_only_for_a_completed_answer samplePlatform
                   (showing (responseOf InProgress (Some (stepOf AuthenticatorPrompt [basic])))
                            (Some basic))
                   (CallSubmit (sampleEnv true true [] [Resolve (responseOf SuccessCompleted None)])
                               [("username", "u")])) None _).
  vm_compute. do 7 right. left. reflexivity.
Defined.

(** X19.  After a redirection authenticator has been chosen, a resolved
    response that is not [SuccessCompleted] changes nothing on screen: the
    flow and the authenticator stay, no error is shown even for
    [FailCompleted] and [FailIncomplete], and the next step is not read
    except to open a popup for a sole redirection authenticator of an
    authenticator prompt.  The payload sent has no parameters. *)
Theorem redirection_choice_ignores_the_next_step
        (P : Platform) (st : UiState) (env : Env) (flow : FlowResponse)
        (a : Authenticator) (formData : option (list (string * string)))
        (cfg : RequestConfig) (response : FlowResponse)
        (later : list (Outcome FlowResponse)) :
  currentFlow st = Some flow ->
  requestConfig flow = Some cfg ->
  isPasskeyAuthenticator P a = false ->
  isRedirectionPrompt a = true ->
  submits env = Resolve response :: later ->
  flowStatus response <> SuccessCompleted ->
  let r := handleAuthenticatorSelection P st env a formData in
  let st' := applyActions st (fst r) in
  fst r = match formData with Some _ => [TouchAllFields] | None => [] end
          ++ entered
          ++ [OnSubmit (payloadOf flow a []) cfg; OnFlowChange response]
          ++ snd (handleRedirectionIfNeeded (popupOpens env) response)
          ++ loadingOff
  /\ currentFlow st' = Some flow
  /\ currentAuthenticator st' = currentAuthenticator st
  /\ error st' = None
  /\ (In AddMessageListener (fst r)
      <-> redirectTarget response <> None /\ popupOpens env = true).
Proof.
  intros Hflow Hcfg Hpk Hrd Hsub Hstatus. cbv zeta.
  assert (Hr : fst (handleAuthenticatorSelection P st env a formData)
               = match formData with Some _ => [TouchAllFields] | None => [] end
                 ++ entered
                 ++ [OnSubmit (payloadOf flow a []) cfg; OnFlowChange response]
                 ++ snd (handleRedirectionIfNeeded (popupOpens env) response)
                 ++ loadingOff).
  { unfold handleAuthenticatorSelection, redirectionBranch.
    rewrite Hflow, Hpk, Hrd, Hcfg, Hsub. cbn [emit fst snd].
    rewrite <- app_assoc. f_equal. f_equal.
    destruct (flowStatus response); try congruence; reflexivity. }
  rewrite Hr. split; [reflexivity|].
  set (touch := match formData with Some _ => [TouchAllFields] | None => [] end).
  assert (Htouch : applyActions st touch = st) by (subst touch; destruct formData; reflexivity).
  rewrite !applyActions_app, Htouch.
  unfold handleRedirectionIfNeeded.
  destruct (redirectTarget response) as [[a' u]|]; [destruct (popupOpens env)|];
    cbn; (split; [exact Hflow|]); (split; [reflexivity|]); (split; [reflexivity|]).
  - split; [intros _; split; [discriminate | reflexivity]|].
    intros _. subst touch. destruct formData; cbn; intuition.
  - split; [|intros [_ H]; discriminate].
    subst touch. destruct formData; cbn; intuition discriminate.
  - split; [|intros [H _]; congruence].
    subst touch. destruct formData; cbn; intuition discriminate.
Qed.

Lemma redirection_choice_ignores_the_next_step_witness :
  let st := showing (responseOf InProgress (Some (stepOf MultiOptionsPrompt [basic; google])))
                    None in
  let env := sampleEnv true true [] [Resolve (responseOf FailCompleted None)] in
  error (applyActions st (fst (handleAuthenticatorSelection samplePlatform st env google None)))
  = None.
Proof.
  cbv zeta.
  refine (proj1 (proj2 (proj2 (proj2
    (redirection_choice_ignores_the_next_step samplePlatform
       (showing (responseOf InProgress (Some (stepOf MultiOptionsPrompt [basic; google]))) None)
       (sampleEnv true true [] [Resolve (responseOf FailCompleted None)])
       (responseOf InProgress (Some (stepOf MultiOptionsPrompt [basic; google])))
       google None {| method := "POST"; url := "https://idp/authn" |}
       (responseOf FailCompleted None) []
       eq_refl eq_refl eq_refl eq_refl eq_refl _))))).
  cbn. discriminate.
Defined.
